(** * Quantis trading engine: order book, market-data store and quote decoder

    A shallow embedding of the C++ core under
    [services/trading-engine/src/main/cpp]:

    - [OrderBook.h], [OrderBook.cpp]: the two-sided book, [addOrder],
      [removeOrder], [updateOrder], [matchOrder], [getSpread];
    - [MarketDataStore.h]: [SymbolIndex] and [MarketDataStore];
    - [FastJsonParser.cpp]: [extractDouble], [extractLong], [extractString],
      [parseAlphaVantage], [parseAlphaVantageSafe] and the metrics;
    - [FastHttpClient.cpp]: [get], [buildAlphaVantageUrl] and the metrics;
    - [CppMarketDataService.cpp]: the watch list, the rate limit,
      [updateMarketData], the pass of [workerThread] and the metrics;
    - [TradingEngineJNI.cpp]: the map of books behind [addOrder] and
      [removeOrder].

    Conventions of the embedding.
    - [double] is Rocq's primitive binary64 [float]; comparisons are
      [PrimFloat.ltb] and [PrimFloat.leb], whose IEEE-754 meaning is given by
      the Standard Library's [FloatAxioms].
    - [long] and [size_t] are [Z]; where the source wraps (atomic counters
      of type [size_t], [uint32_t]) the wrap-around is written out.
    - [std::string] is [string]; a [const char*] into a NUL-terminated buffer
      is the suffix that starts at the pointer.
    - [std::shared_ptr<Order>] is an address together with the object it
      points to; no method of the book writes through such a pointer, so the
      only observable part of sharing is pointer identity (used by
      [std::remove] in [removeOrder]).
    - Clock readings ([std::time], [system_clock::now],
      [high_resolution_clock::now], [steady_clock::now]) are explicit
      arguments, and so is what [curl_easy_perform] does for a URL.
    - A [std::map] is the sequence of its entries in iteration order, read
      and written as a search by the map's comparator does; a NaN key, which
      breaks the comparator's strict weak ordering, is outside what
      [std::map] defines.
    - Writes to [std::cout] and [std::cerr] are not modelled.
    - The embedding is sequential: one thread runs each method to its end. *)

From Stdlib Require Import ZArith List String Ascii Floats Lia Sorted Bool.
From Stdlib Require Import DecimalString.
From stdpp Require Import base option list gmap strings.

Local Open Scope string_scope.
Local Open Scope list_scope.
Local Open Scope Z_scope.

(** ** IEEE-754 comparisons on [double] *)

Module Double.

Definition zero : float := 0%float.

(** [a < b], [a > b], [a <= b], [a >= b] on [double]. *)
Definition lt (a b : float) : bool := PrimFloat.ltb a b.
Definition gt (a b : float) : bool := PrimFloat.ltb b a.
Definition le (a b : float) : bool := PrimFloat.leb a b.
Definition ge (a b : float) : bool := PrimFloat.leb b a.

(** [std::max(a, b)] is [(a < b) ? b : a]; [std::min(a, b)] is
    [(b < a) ? b : a]. *)
Definition max (a b : float) : float := if lt a b then b else a.
Definition min (a b : float) : float := if lt b a then b else a.

(** Conversion of a [long] to [double] (round to nearest, ties to even). *)
Definition of_long (z : Z) : float :=
  SF2Prim (binary_normalize prec emax z 0 false).

End Double.

(** ** OrderBook.h: orders, trades and the book *)

Module Order.
(** [struct Order]. *)
Record t := mk {
  orderId : string;
  userId : string;
  symbol : string;
  side : string;          (* "BUY" or "SELL" *)
  quantity : Z;           (* long *)
  price : float;          (* double *)
  timestamp : Z;
  isActive : bool
}.
End Order.

Module Trade.
(** [struct Trade]. *)
Record t := mk {
  tradeId : string;
  orderId : string;
  userId : string;
  symbol : string;
  side : string;
  quantity : Z;           (* long *)
  price : float;          (* double *)
  totalValue : float;     (* double *)
  executedAt : Z
}.
End Trade.

(** [std::shared_ptr<Order>]: the address of the object and the object.
    Two pointers compare equal when their addresses do. *)
Record OrderPtr := mkPtr { addr : N; obj : Order.t }.

Definition ptr_eqb (p q : OrderPtr) : bool := N.eqb (addr p) (addr q).

(** The readings of the clocks a call makes. *)
Record Clock := mkClock {
  clock_time : Z;           (* std::time(nullptr) *)
  clock_now : Z             (* std::chrono::system_clock::now() *)
}.

(** [std::to_string] of a [long]. *)
Definition to_string (z : Z) : string := NilZero.string_of_int (Z.to_int z).

(** A price level and [std::map<double, std::vector<std::shared_ptr<Order>>, Compare>]
    as the sequence of its entries in iteration order. *)
Definition Level : Type := float * list OrderPtr.
Definition PriceMap : Type := list Level.

Section StdMap.
(** The map's comparator: [std::greater<double>] for the buy side,
    [std::less<double>] for the sell side. *)
Variable comp : float -> float -> bool.


(** [m[k].push_back(o)]: [operator[]] creates an empty vector at [k] when no
    entry is equivalent to [k]. *)
Fixpoint map_push_back (k : float) (o : OrderPtr) (m : PriceMap) : PriceMap :=
  match m with
  | [] => [(k, [o])]
  | (k', v) :: m' =>
      if comp k' k then (k', v) :: map_push_back k o m'
      else if comp k k' then (k, [o]) :: (k', v) :: m'
      else (k', v ++ [o]) :: m'
  end.

(** The body of [removeOrder] for one side:
    [it = m.find(k); if (it != m.end()) { erase-remove o from it->second;
     if (it->second.empty()) m.erase(it); }]. *)
Fixpoint map_remove_order (k : float) (o : OrderPtr) (m : PriceMap) : PriceMap :=
  match m with
  | [] => []
  | (k', v) :: m' =>
      if comp k' k then (k', v) :: map_remove_order k o m'
      else if comp k k' then m
      else
        match List.filter (fun q => negb (ptr_eqb q o)) v with
        | [] => m'
        | v' => (k', v') :: m'
        end
  end.
End StdMap.

(** [size_t] arithmetic of the atomic counters. *)
Definition size_t_wrap (z : Z) : Z := z mod 2 ^ 64.

(** [class OrderBook]: the data members the methods below read or write. *)
Record OrderBook := mkBook {
  symbol_ : string;
  buyOrders_ : PriceMap;              (* std::greater<double>: best bid first *)
  sellOrders_ : PriceMap;             (* std::less<double>: best ask first *)
  totalOrders_ : Z;                   (* std::atomic<size_t> *)
  totalVolume_ : Z;                   (* std::atomic<size_t> *)
  lastTradePrice_ : float;
  orders_ : gmap string OrderPtr;     (* std::map<std::string, shared_ptr<Order>> *)
  lastPrice_ : float;
  bestBid_ : float;
  bestAsk_ : float
}.

(** [OrderBook::OrderBook(symbol)]. *)
Definition newOrderBook (symbol : string) : OrderBook :=
  {| symbol_ := symbol; buyOrders_ := []; sellOrders_ := [];
     totalOrders_ := 0; totalVolume_ := 0; lastTradePrice_ := Double.zero;
     orders_ := ∅; lastPrice_ := Double.zero;
     bestBid_ := Double.zero; bestAsk_ := Double.zero |}.

(** ** OrderBook.cpp *)

(** [OrderBook::addOrder], called with [orderBookMutex_] free: the lock is
    taken on entry and released on return.  The [catch] handler is reached
    only when an allocation fails, which is left out. *)
Definition addOrder (order : OrderPtr) (b : OrderBook) : bool * OrderBook :=
  let o := obj order in
  let orders' := <[Order.orderId o := order]> (orders_ b) in
  let '(buy', sell', bid', ask') :=
    if String.eqb (Order.side o) "BUY" then
      (map_push_back Double.gt (Order.price o) order (buyOrders_ b),
       sellOrders_ b,
       Double.max (bestBid_ b) (Order.price o),
       bestAsk_ b)
    else if String.eqb (Order.side o) "SELL" then
      (buyOrders_ b,
       map_push_back Double.lt (Order.price o) order (sellOrders_ b),
       bestBid_ b,
       Double.min (bestAsk_ b) (Order.price o))
    else (buyOrders_ b, sellOrders_ b, bestBid_ b, bestAsk_ b) in
  (true,
   {| symbol_ := symbol_ b;
      buyOrders_ := buy'; sellOrders_ := sell';
      totalOrders_ := size_t_wrap (totalOrders_ b + 1);
      totalVolume_ := size_t_wrap (totalVolume_ b + Order.quantity o);
      lastTradePrice_ := lastTradePrice_ b;
      orders_ := orders';
      lastPrice_ := lastPrice_ b;
      bestBid_ := bid'; bestAsk_ := ask' |}).

(** [OrderBook::removeOrder], called with [orderBookMutex_] free. *)
Definition removeOrder (orderId : string) (b : OrderBook) : bool * OrderBook :=
  match orders_ b !! orderId with
  | None => (false, b)
  | Some order =>
      let o := obj order in
      let '(buy', sell') :=
        if String.eqb (Order.side o) "BUY" then
          (map_remove_order Double.gt (Order.price o) order (buyOrders_ b),
           sellOrders_ b)
        else if String.eqb (Order.side o) "SELL" then
          (buyOrders_ b,
           map_remove_order Double.lt (Order.price o) order (sellOrders_ b))
        else (buyOrders_ b, sellOrders_ b) in
      (true,
       {| symbol_ := symbol_ b;
          buyOrders_ := buy'; sellOrders_ := sell';
          totalOrders_ := size_t_wrap (totalOrders_ b - 1);
          totalVolume_ := size_t_wrap (totalVolume_ b - Order.quantity o);
          lastTradePrice_ := lastTradePrice_ b;
          orders_ := delete orderId (orders_ b);
          lastPrice_ := lastPrice_ b;
          bestBid_ := bestBid_ b; bestAsk_ := bestAsk_ b |})
  end.

(** [std::unique_lock<std::shared_mutex> lock(orderBookMutex_)] as the first
    statement of a method: [held] tells whether the calling thread owns the
    mutex already.  Locking a [std::shared_mutex] the thread owns is undefined
    in C++; libstdc++ on glibc reports it: the constructor of the lock raises
    [std::system_error] ([resource_deadlock_would_occur]) before the method's
    [try] block is entered, so that the exception leaves the method.  [None]
    is that exception. *)
Definition unique_lock {A : Type} (held : bool) (body : A) : option A :=
  if held then None else Some body.

Definition addOrder_holding (held : bool) (order : OrderPtr) (b : OrderBook)
    : option (bool * OrderBook) :=
  unique_lock held (addOrder order b).

Definition removeOrder_holding (held : bool) (orderId : string) (b : OrderBook)
    : option (bool * OrderBook) :=
  unique_lock held (removeOrder orderId b).

(** [OrderBook::updateOrder], called with [orderBookMutex_] free.  It holds
    the mutex from its first statement on, and calls [removeOrder] and
    [addOrder] while holding it, inside its [try] block: an exception that
    leaves one of them is caught by the handler of [updateOrder], which
    returns [false].  The result is wrapped in [Some] as the results of the
    two calls are. *)
Definition updateOrder (order : OrderPtr) (b : OrderBook) : option (bool * OrderBook) :=
  match orders_ b !! Order.orderId (obj order) with
  | None => Some (false, b)
  | Some oldOrder =>
      match removeOrder_holding true (Order.orderId (obj order)) b with
      | None => Some (false, b)
      | Some (_, b1) =>
          match addOrder_holding true order b1 with
          | None => Some (false, b1)
          | Some r => Some r
          end
      end
  end.

(** The trade both matching functions build. *)
Definition make_trade (order : OrderPtr) (maker : OrderPtr) (levelPrice : float)
    (clk : Clock) : Trade.t :=
  let o := obj order in
  let q := Z.min (Order.quantity o) (Order.quantity (obj maker)) in
  {| Trade.tradeId := String.append "trade_" (to_string (clock_time clk));
     Trade.orderId := Order.orderId o;
     Trade.userId := Order.userId o;
     Trade.symbol := Order.symbol o;
     Trade.side := Order.side o;
     Trade.quantity := q;
     Trade.price := levelPrice;
     Trade.totalValue := (Double.of_long q * levelPrice)%float;
     Trade.executedAt := clock_now clk |}.

(** [OrderBook::matchBuyOrder].  [bestAskIt->second[0]] on an empty vector is
    out of range: [None]. *)
Definition matchBuyOrder (order : OrderPtr) (clk : Clock) (b : OrderBook)
    : option (list Trade.t) :=
  match sellOrders_ b with
  | [] => Some []
  | (bestAskPrice, level) :: _ =>
      if Double.ge (Order.price (obj order)) bestAskPrice then
        match level with
        | [] => None
        | maker :: _ => Some [make_trade order maker bestAskPrice clk]
        end
      else Some []
  end.

(** [OrderBook::matchSellOrder]. *)
Definition matchSellOrder (order : OrderPtr) (clk : Clock) (b : OrderBook)
    : option (list Trade.t) :=
  match buyOrders_ b with
  | [] => Some []
  | (bestBidPrice, level) :: _ =>
      if Double.le (Order.price (obj order)) bestBidPrice then
        match level with
        | [] => None
        | maker :: _ => Some [make_trade order maker bestBidPrice clk]
        end
      else Some []
  end.

(** [b.lastTradePrice_.store(p)]. *)
Definition set_lastTradePrice (p : float) (b : OrderBook) : OrderBook :=
  {| symbol_ := symbol_ b;
     buyOrders_ := buyOrders_ b; sellOrders_ := sellOrders_ b;
     totalOrders_ := totalOrders_ b; totalVolume_ := totalVolume_ b;
     lastTradePrice_ := p;
     orders_ := orders_ b;
     lastPrice_ := lastPrice_ b;
     bestBid_ := bestBid_ b; bestAsk_ := bestAsk_ b |}.

(** [OrderBook::matchOrder]: the trades and the book after the call. *)
Definition matchOrder (order : OrderPtr) (clk : Clock) (b : OrderBook)
    : option (list Trade.t * OrderBook) :=
  let side := Order.side (obj order) in
  match (if String.eqb side "BUY" then matchBuyOrder order clk b
         else if String.eqb side "SELL" then matchSellOrder order clk b
         else Some []) with
  | None => None
  | Some trades =>
      match List.last (List.map Some trades) None with
      | Some t => Some (trades, set_lastTradePrice (Trade.price t) b)
      | None => Some (trades, b)
      end
  end.

(** [getBestBid], [getBestAsk], [getSpread], [getOrderCount]. *)
Definition getBestBid (b : OrderBook) : float := bestBid_ b.
Definition getBestAsk (b : OrderBook) : float := bestAsk_ b.

Definition getSpread (b : OrderBook) : float :=
  let bid := bestBid_ b in
  let ask := bestAsk_ b in
  if Double.gt bid Double.zero && Double.gt ask Double.zero
  then (ask - bid)%float
  else Double.zero.

Definition getOrderCount (b : OrderBook) : Z := totalOrders_ b.

(** ** C strings *)

Definition NUL : ascii := "000"%char.
Definition dquote : ascii := "034"%char.

(** [*p] and [p + 1] for a [const char*] into a NUL-terminated buffer: past the
    characters of the string lies its terminator. *)
Definition peek (p : string) : ascii :=
  match p with EmptyString => NUL | String c _ => c end.
Definition advance (p : string) : string :=
  match p with EmptyString => EmptyString | String _ p' => p' end.

(** [s.c_str()] as the C functions read it: the characters before the first
    NUL. *)
Fixpoint c_str (s : string) : string :=
  match s with
  | EmptyString => EmptyString
  | String c s' => if Ascii.eqb c NUL then EmptyString else String c (c_str s')
  end.

(** [strncpy(dst, src, n)]: the [n] bytes written at [dst], the characters of
    [src] up to its terminator and NULs after them. *)
Fixpoint strncpy (src : string) (n : nat) : string :=
  match n with
  | O => EmptyString
  | S n' =>
      if Ascii.eqb (peek src) NUL then String NUL (strncpy EmptyString n')
      else String (peek src) (strncpy (advance src) n')
  end.

(** [strncmp(s1, s2, n)]: the difference of the first bytes that differ among
    the first [n], [0] when none does before a terminator. *)
Fixpoint strncmp (s1 s2 : string) (n : nat) : Z :=
  match n with
  | O => 0
  | S n' =>
      let c1 := peek s1 in
      let c2 := peek s2 in
      if negb (Ascii.eqb c1 c2)
      then Z.of_nat (nat_of_ascii c1) - Z.of_nat (nat_of_ascii c2)
      else if Ascii.eqb c1 NUL then 0
      else strncmp (advance s1) (advance s2) n'
  end.

(** [strstr(haystack, needle)]: the suffix at the first occurrence. *)
Fixpoint strstr (haystack needle : string) : option string :=
  if String.prefix needle haystack then Some haystack
  else match haystack with
       | EmptyString => None
       | String _ h' => strstr h' needle
       end.

(** [strchr(s, c)] for a character [c] other than NUL. *)
Fixpoint strchr (s : string) (c : ascii) : option string :=
  match s with
  | EmptyString => None
  | String c' s' => if Ascii.eqb c' c then Some s else strchr s' c
  end.

(** ** MarketDataStore.h: the symbol index *)

Definition MAX_SYMBOLS : Z := 10000.
Definition SYMBOL_LENGTH : nat := 8.
Definition UINT32_MAX : Z := 4294967295.

Definition uint32_wrap (z : Z) : Z := z mod 2 ^ 32.
Definition uint64_wrap (z : Z) : Z := z mod 2 ^ 64.

Module SymbolEntry.
(** [struct SymbolEntry].  The bytes of [symbol] are indeterminate until the
    slot is claimed; no path reads them before [isActive] is set. *)
Record t := mk {
  symbol : string;          (* char symbol[SYMBOL_LENGTH] *)
  index : Z;                (* std::atomic<uint32_t> *)
  isActive : bool           (* std::atomic<bool> *)
}.
Definition initial : t := {| symbol := EmptyString; index := 0; isActive := false |}.
End SymbolEntry.

#[global] Instance SymbolEntry_inhabited : Inhabited SymbolEntry.t :=
  populate SymbolEntry.initial.

(** [class SymbolIndex]. *)
Record SymbolIndex := mkIndex {
  symbolTable_ : list SymbolEntry.t;    (* std::array<SymbolEntry, MAX_SYMBOLS> *)
  nextIndex_ : Z                        (* std::atomic<uint32_t> *)
}.

Definition newSymbolIndex : SymbolIndex :=
  {| symbolTable_ := replicate (Z.to_nat MAX_SYMBOLS) SymbolEntry.initial;
     nextIndex_ := 0 |}.

(** The key [getOrCreateIndex] writes into a claimed slot:
    [strncpy(entry.symbol, symbol.c_str(), SYMBOL_LENGTH - 1);
     entry.symbol[SYMBOL_LENGTH - 1] = '\0']. *)
Definition stored_key (symbol : string) : string :=
  String.append (strncpy (c_str symbol) (SYMBOL_LENGTH - 1)) (String NUL EmptyString).

(** [strncmp(entry.symbol, symbol.c_str(), SYMBOL_LENGTH - 1) == 0]. *)
Definition key_matches (entry : SymbolEntry.t) (symbol : string) : bool :=
  strncmp (SymbolEntry.symbol entry) (c_str symbol) (SYMBOL_LENGTH - 1) =? 0.

Section SymbolIndexOps.
(** [std::hash<std::string>], which the C++ implementation chooses. *)
Variable hash : string -> N.

(** [std::hash<std::string>{}(symbol) % MAX_SYMBOLS]. *)
Definition bucket (symbol : string) : Z := Z.of_N (hash symbol) mod MAX_SYMBOLS.

(** The loop of [SymbolIndex::getOrCreateIndex] from iteration [i], with [n]
    iterations left.  The compare-and-swap on [isActive] succeeds exactly when
    the slot is inactive. *)
Fixpoint getOrCreateIndex_loop (n : nat) (i : Z) (h : Z) (symbol : string)
    (s : SymbolIndex) : Z * SymbolIndex :=
  match n with
  | O => (UINT32_MAX, s)
  | S n' =>
      let idx := Z.to_nat ((h + i) mod MAX_SYMBOLS) in
      let entry := symbolTable_ s !!! idx in
      if negb (SymbolEntry.isActive entry) then
        let newIndex := nextIndex_ s in
        (newIndex,
         {| symbolTable_ :=
              <[idx := {| SymbolEntry.symbol := stored_key symbol;
                          SymbolEntry.index := newIndex;
                          SymbolEntry.isActive := true |}]> (symbolTable_ s);
            nextIndex_ := uint32_wrap (newIndex + 1) |})
      else if key_matches entry symbol then (SymbolEntry.index entry, s)
      else getOrCreateIndex_loop n' (i + 1) h symbol s
  end.

(** [SymbolIndex::getOrCreateIndex]. *)
Definition getOrCreateIndex (symbol : string) (s : SymbolIndex) : Z * SymbolIndex :=
  getOrCreateIndex_loop (Z.to_nat MAX_SYMBOLS) 0 (bucket symbol) symbol s.

(** The loop of [SymbolIndex::getIndex]. *)
Fixpoint getIndex_loop (n : nat) (i : Z) (h : Z) (symbol : string)
    (s : SymbolIndex) : Z :=
  match n with
  | O => UINT32_MAX
  | S n' =>
      let idx := Z.to_nat ((h + i) mod MAX_SYMBOLS) in
      let entry := symbolTable_ s !!! idx in
      if SymbolEntry.isActive entry && key_matches entry symbol
      then SymbolEntry.index entry
      else getIndex_loop n' (i + 1) h symbol s
  end.

(** [SymbolIndex::getIndex]. *)
Definition getIndex (symbol : string) (s : SymbolIndex) : Z :=
  getIndex_loop (Z.to_nat MAX_SYMBOLS) 0 (bucket symbol) symbol s.
End SymbolIndexOps.

(** ** MarketDataStore.h: the snapshot store *)

Module MarketDataSnapshot.
(** [struct MarketDataSnapshot]. *)
Record t := mk {
  bestBid : float;
  bestAsk : float;
  lastPrice : float;
  spread : float;
  volume : Z;               (* std::atomic<long> *)
  timestamp : Z;            (* std::atomic<uint64_t> *)
  sequenceNumber : Z;       (* std::atomic<uint32_t> *)
  isValid : bool
}.
Definition initial : t :=
  {| bestBid := 0; bestAsk := 0; lastPrice := 0; spread := 0;
     volume := 0; timestamp := 0; sequenceNumber := 0; isValid := false |}.
End MarketDataSnapshot.

#[global] Instance MarketDataSnapshot_inhabited : Inhabited MarketDataSnapshot.t :=
  populate MarketDataSnapshot.initial.

(** [class MarketDataStore]. *)
Record MarketDataStore := mkStore {
  marketData_ : list MarketDataSnapshot.t;  (* std::array<MarketDataSnapshot, MAX_SYMBOLS> *)
  symbolIndex_ : SymbolIndex;
  totalUpdates_ : Z;                        (* std::atomic<uint64_t> *)
  totalReads_ : Z                           (* std::atomic<uint64_t> *)
}.

(** [MarketDataStore::MarketDataStore()]. *)
Definition newMarketDataStore : MarketDataStore :=
  {| marketData_ := replicate (Z.to_nat MAX_SYMBOLS) MarketDataSnapshot.initial;
     symbolIndex_ := newSymbolIndex;
     totalUpdates_ := 0; totalReads_ := 0 |}.

(** What [getMarketData] writes through its reference parameters:
    [(bestBid, bestAsk, lastPrice, spread, volume, timestamp)]. *)
Definition MarketDataOut : Type := float * float * float * float * Z * Z.

Section MarketDataStoreOps.
Variable hash : string -> N.

(** [MarketDataStore::updateMarketData]; [now] is the reading of
    [high_resolution_clock], in nanoseconds, as the [uint64_t] stored. *)
Definition updateMarketData (symbol : string) (bestBid bestAsk lastPrice : float)
    (volume : Z) (now : Z) (st : MarketDataStore) : bool * MarketDataStore :=
  let '(index, si) := getOrCreateIndex hash symbol (symbolIndex_ st) in
  if index >=? MAX_SYMBOLS then
    (false,
     {| marketData_ := marketData_ st; symbolIndex_ := si;
        totalUpdates_ := totalUpdates_ st; totalReads_ := totalReads_ st |})
  else
    let snapshot := marketData_ st !!! Z.to_nat index in
    let spread := (bestAsk - bestBid)%float in
    let snapshot' :=
      {| MarketDataSnapshot.bestBid := bestBid;
         MarketDataSnapshot.bestAsk := bestAsk;
         MarketDataSnapshot.lastPrice := lastPrice;
         MarketDataSnapshot.spread := spread;
         MarketDataSnapshot.volume := volume;
         MarketDataSnapshot.timestamp := now;
         MarketDataSnapshot.sequenceNumber :=
           uint32_wrap (MarketDataSnapshot.sequenceNumber snapshot + 1);
         MarketDataSnapshot.isValid := true |} in
    (true,
     {| marketData_ := <[Z.to_nat index := snapshot']> (marketData_ st);
        symbolIndex_ := si;
        totalUpdates_ := uint64_wrap (totalUpdates_ st + 1);
        totalReads_ := totalReads_ st |}).

(** [MarketDataStore::getMarketData]: [None] when it returns [false]. *)
Definition getMarketData (symbol : string) (st : MarketDataStore)
    : option MarketDataOut * MarketDataStore :=
  let index := getIndex hash symbol (symbolIndex_ st) in
  if index >=? MAX_SYMBOLS then (None, st)
  else
    let snapshot := marketData_ st !!! Z.to_nat index in
    if negb (MarketDataSnapshot.isValid snapshot) then (None, st)
    else
      (Some (MarketDataSnapshot.bestBid snapshot,
             MarketDataSnapshot.bestAsk snapshot,
             MarketDataSnapshot.lastPrice snapshot,
             MarketDataSnapshot.spread snapshot,
             MarketDataSnapshot.volume snapshot,
             MarketDataSnapshot.timestamp snapshot),
       {| marketData_ := marketData_ st; symbolIndex_ := symbolIndex_ st;
          totalUpdates_ := totalUpdates_ st;
          totalReads_ := uint64_wrap (totalReads_ st + 1) |}).

(** [MarketDataStore::hasValidData]. *)
Definition hasValidData (symbol : string) (st : MarketDataStore) : bool :=
  let index := getIndex hash symbol (symbolIndex_ st) in
  if index >=? MAX_SYMBOLS then false
  else MarketDataSnapshot.isValid (marketData_ st !!! Z.to_nat index).
End MarketDataStoreOps.

(** ** FastJsonParser.cpp *)

(** The exceptions the decoder raises or receives, all of them
    [std::exception]s. *)
Inductive exn :=
| runtime_error (what : string)
| invalid_argument (what : string)
| out_of_range (what : string).

Inductive result (A : Type) :=
| Ok (a : A)
| Throw (e : exn).
Arguments Ok {A} a.
Arguments Throw {A} e.

Definition isspace (c : ascii) : bool :=
  let n := nat_of_ascii c in
  Nat.eqb n 32 || (Nat.leb 9 n && Nat.leb n 13).

Definition isdigit (c : ascii) : bool :=
  let n := nat_of_ascii c in
  Nat.leb 48 n && Nat.leb n 57.

Fixpoint skip_spaces (s : string) : string :=
  match s with
  | String c s' => if isspace c then skip_spaces s' else s
  | EmptyString => s
  end.

(** A run of decimal digits: its value on top of [acc], how many digits were
    read on top of [count], and the rest. *)
Fixpoint read_digits (s : string) (acc count : Z) : Z * Z * string :=
  match s with
  | String c s' =>
      if isdigit c
      then read_digits s' (10 * acc + (Z.of_nat (nat_of_ascii c) - 48)) (count + 1)
      else (acc, count, s)
  | EmptyString => (acc, count, s)
  end.

(** An optional sign: whether it is [-], and the rest. *)
Definition read_sign (s : string) : bool * string :=
  match s with
  | String "-" s' => (true, s')
  | String "+" s' => (false, s')
  | _ => (false, s)
  end.

Definition lower (c : ascii) : ascii :=
  let n := nat_of_ascii c in
  if Nat.leb 65 n && Nat.leb n 90 then ascii_of_nat (n + 32) else c.

Fixpoint lower_string (s : string) : string :=
  match s with
  | EmptyString => EmptyString
  | String c s' => String (lower c) (lower_string s')
  end.

(** [isxdigit(c)] and the value of a hexadecimal digit. *)
Definition isxdigit (c : ascii) : bool :=
  let n := nat_of_ascii (lower c) in
  isdigit c || (Nat.leb 97 n && Nat.leb n 102).

Definition xdigit_value (c : ascii) : Z :=
  if isdigit c then Z.of_nat (nat_of_ascii c) - 48
  else Z.of_nat (nat_of_ascii (lower c)) - 87.

(** A run of hexadecimal digits, as [read_digits] reads decimal ones. *)
Fixpoint read_xdigits (s : string) (acc count : Z) : Z * Z * string :=
  match s with
  | String c s' =>
      if isxdigit c
      then read_xdigits s' (16 * acc + xdigit_value c) (count + 1)
      else (acc, count, s)
  | EmptyString => (acc, count, s)
  end.

(** An exponent part: the letter [mark] in either case, an optional sign and
    decimal digits; [0] where there is none. *)
Definition read_exponent (mark : ascii) (s : string) : Z :=
  match s with
  | String c r =>
      if Ascii.eqb (lower c) mark then
        let '(eneg, r3) := read_sign r in
        let '(ev, n3, _) := read_digits r3 0 0 in
        if n3 =? 0 then 0 else if eneg then - ev else ev
      else 0
  | EmptyString => 0
  end.

(** An exponent range in which no quotient below underflows. *)
Definition wide_emax : Z := 2 ^ 62.

(** Whether a non-zero value, rounded to the 53 bits of a [double] with no
    bound on the exponent, lies below the least normal [double]. *)
Definition is_tiny (wide : spec_float) : bool :=
  match wide with
  | S754_finite _ m e => Z.log2 (Zpos m) + e <? -1022
  | S754_zero _ => true
  | _ => false
  end.

(** Whether [num / den * 2^e2] is the value of [sf]. *)
Definition is_exact (num den e2 : Z) (sf : spec_float) : bool :=
  match sf with
  | S754_finite _ m e =>
      let low := Z.min e e2 in
      num * 2 ^ (e2 - low) =? Zpos m * den * 2 ^ (e - low)
  | _ => false
  end.

(** The correctly rounded [double] of [(-1)^neg * num / den * 2^e2], for
    [num >= 0] and [den > 0].  glibc's [strtod] reports [ERANGE], and
    [std::stod] then raises [out_of_range], when the value overflows and when
    it is tiny and not exact, which includes every non-zero value that rounds
    to zero. *)
Definition strtod_round (neg : bool) (num den e2 : Z) : result float :=
  if num =? 0 then Ok (SF2Prim (S754_zero neg))
  else
    let x := S754_finite neg (Z.to_pos num) e2 in
    let y := S754_finite false (Z.to_pos den) 0 in
    let sf := SFdiv prec emax x y in
    match sf with
    | S754_infinity _ => Throw (out_of_range "stod")
    | _ =>
        if is_tiny (SFdiv prec wide_emax x y) && negb (is_exact num den e2 sf)
        then Throw (out_of_range "stod")
        else Ok (SF2Prim sf)
    end.

(** The [double] of [(-1)^neg * m * 10^e10], [m >= 0]. *)
Definition decimal_to_double (neg : bool) (m e10 : Z) : result float :=
  if 0 <=? e10 then strtod_round neg (m * 10 ^ e10) 1 0
  else strtod_round neg m (10 ^ (- e10)) 0.

(** [std::stod(str)], that is [strtod] in the C locale with its [ERANGE]
    turned into [out_of_range]: white space, a sign, then [inf], [infinity]
    or [nan] in any case, or [0x] and hexadecimal digits with an optional
    point and an optional binary exponent, or decimal digits with an optional
    point and an optional exponent.  Nothing converted raises
    [invalid_argument]; [0x] that no hexadecimal digit follows is read as the
    decimal [0]. *)
Definition stod (str : string) : result float :=
  let s := skip_spaces (c_str str) in
  let '(neg, s1) := read_sign s in
  let low := lower_string s1 in
  if String.prefix "inf" low
  then Ok (if neg then neg_infinity else infinity)
  else if String.prefix "nan" low
  then Ok nan
  else
    let hex :=
      match s1 with
      | String "0" (String x r) =>
          if Ascii.eqb (lower x) "x" then
            let '(ip, n1, r1) := read_xdigits r 0 0 in
            let '(m, n2, r2) :=
              match r1 with
              | String "." r' => read_xdigits r' ip 0
              | _ => (ip, 0, r1)
              end in
            if n1 + n2 =? 0 then None
            else Some (strtod_round neg m 1 (read_exponent "p" r2 - 4 * n2))
          else None
      | _ => None
      end in
    match hex with
    | Some r => r
    | None =>
        let '(ip, n1, r1) := read_digits s1 0 0 in
        let '(m, n2, r2) :=
          match r1 with
          | String "." r => read_digits r ip 0
          | _ => (ip, 0, r1)
          end in
        if n1 + n2 =? 0 then Throw (invalid_argument "stod")
        else decimal_to_double neg m (read_exponent "e" r2 - n2)
    end.

(** [std::stol(str)]: base 10, range of [long]. *)
Definition stol (str : string) : result Z :=
  let s := skip_spaces (c_str str) in
  let '(neg, s1) := read_sign s in
  let '(v, n, _) := read_digits s1 0 0 in
  if n =? 0 then Throw (invalid_argument "stol")
  else
    let z := if neg then - v else v in
    if (z <? - 2 ^ 63) || (2 ^ 63 - 1 <? z) then Throw (out_of_range "stol")
    else Ok z.

(** The loop that moves [valueStart] over spaces, tabs and newlines. *)
Fixpoint skip_ws (p : string) : string :=
  match p with
  | String c p' =>
      if Ascii.eqb c " " || Ascii.eqb c "009" || Ascii.eqb c "010"
      then skip_ws p' else p
  | EmptyString => p
  end.

(** The loop that moves [valueEnd] on while the character is none of NUL,
    comma, closing brace, closing bracket and double quote, followed by
    [std::string(valueStart, valueEnd - valueStart)]: the characters passed
    over. *)
Fixpoint scan_value (p : string) : string :=
  match p with
  | String c p' =>
      if Ascii.eqb c NUL || Ascii.eqb c "," || Ascii.eqb c "}" || Ascii.eqb c "]"
         || Ascii.eqb c dquote
      then EmptyString
      else String c (scan_value p')
  | EmptyString => EmptyString
  end.

(** [s.front()] is [s[0]], which for an empty [s] is the terminator the
    buffer holds at [s[size()]]; [s.back()] is [s[size() - 1]] and is only
    evaluated after [s.front()] was found to be a double quote, on a
    non-empty [s]. *)
Definition front (s : string) : ascii := peek s.

Fixpoint back (s : string) : ascii :=
  match s with
  | EmptyString => NUL
  | String c EmptyString => c
  | String _ s' => back s'
  end.

Fixpoint string_drop (n : nat) (s : string) : string :=
  match n, s with
  | S n', String _ s' => string_drop n' s'
  | _, _ => s
  end.

Fixpoint string_take (n : nat) (s : string) : string :=
  match n, s with
  | S n', String c s' => String c (string_take n' s')
  | _, _ => EmptyString
  end.

(** [s.substr(pos, count)] for [pos <= s.size()]; [count] is a [size_t]. *)
Definition substr (s : string) (pos : nat) (count : Z) : string :=
  string_take (Z.to_nat (size_t_wrap count)) (string_drop pos s).

Definition quoted (s : string) : string :=
  String dquote (String.append s (String dquote EmptyString)).

(** The text [extractDouble] and [extractLong] hand to [std::stod] and
    [std::stol]: both functions repeat these statements. *)
Definition value_text (json key : string) : result string :=
  let keyPattern := quoted key in
  match strstr json keyPattern with
  | None => Throw (runtime_error (String.append "Key not found: " key))
  | Some keyPos =>
      match strchr keyPos ":" with
      | None => Throw (runtime_error (String.append "Colon not found after key: " key))
      | Some colonPos =>
          let valueStart := skip_ws (advance colonPos) in
          let valueStr := scan_value valueStart in
          if Ascii.eqb (front valueStr) dquote && Ascii.eqb (back valueStr) dquote
          then Ok (substr valueStr 1 (Z.of_nat (String.length valueStr) - 2))
          else Ok valueStr
      end
  end.

(** [FastJsonParser::extractDouble]. *)
Definition extractDouble (json key : string) : result float :=
  match value_text json key with
  | Throw e => Throw e
  | Ok valueStr => stod valueStr
  end.

(** [FastJsonParser::extractLong]. *)
Definition extractLong (json key : string) : result Z :=
  match value_text json key with
  | Throw e => Throw e
  | Ok valueStr => stol valueStr
  end.

Module MarketData.
(** [struct FastJsonParser::MarketData]. *)
Record t := mk {
  symbol : string;
  bestBid : float;
  bestAsk : float;
  lastPrice : float;
  open : float;
  high : float;
  low : float;
  volume : Z;
  timestamp : Z;
  isValid : bool
}.
(** [MarketData() = default] with the member initialisers. *)
Definition default : t :=
  {| symbol := EmptyString; bestBid := 0; bestAsk := 0; lastPrice := 0;
     open := 0; high := 0; low := 0; volume := 0; timestamp := 0;
     isValid := false |}.
End MarketData.

(** The counters of [class FastJsonParser]. *)
Record FastJsonParser := mkParser {
  totalParses_ : Z;
  failedParses_ : Z;
  totalParseTimeNs_ : Z
}.

(** The readings of [high_resolution_clock] in one [parseAlphaVantage]. *)
Record ParseClock := mkParseClock {
  t_start : Z;
  t_stamp : Z;
  t_end : Z
}.

(** The [try] block of [parseAlphaVantage]: [data] as the statements leave
    it, and the exception that ended the block if one did.  A member assigned
    before the exception keeps its value. *)
Definition parse_try (jsonResponse : string) (stamp : Z) (data : MarketData.t)
    : MarketData.t * option exn :=
  let json := c_str jsonResponse in
  match strstr json (quoted "Global Quote") with
  | None => (data, Some (runtime_error "Global Quote not found"))
  | Some globalQuote =>
    match extractDouble globalQuote "02. open" with
    | Throw e => (data, Some e)
    | Ok v1 =>
      let data := MarketData.mk (MarketData.symbol data) (MarketData.bestBid data)
        (MarketData.bestAsk data) (MarketData.lastPrice data) v1
        (MarketData.high data) (MarketData.low data) (MarketData.volume data)
        (MarketData.timestamp data) (MarketData.isValid data) in
      match extractDouble globalQuote "03. high" with
      | Throw e => (data, Some e)
      | Ok v2 =>
        let data := MarketData.mk (MarketData.symbol data) (MarketData.bestBid data)
          (MarketData.bestAsk data) (MarketData.lastPrice data) (MarketData.open data)
          v2 (MarketData.low data) (MarketData.volume data)
          (MarketData.timestamp data) (MarketData.isValid data) in
        match extractDouble globalQuote "04. low" with
        | Throw e => (data, Some e)
        | Ok v3 =>
          let data := MarketData.mk (MarketData.symbol data) (MarketData.bestBid data)
            (MarketData.bestAsk data) (MarketData.lastPrice data) (MarketData.open data)
            (MarketData.high data) v3 (MarketData.volume data)
            (MarketData.timestamp data) (MarketData.isValid data) in
          match extractDouble globalQuote "05. price" with
          | Throw e => (data, Some e)
          | Ok v4 =>
            let data := MarketData.mk (MarketData.symbol data) (MarketData.bestBid data)
              (MarketData.bestAsk data) v4 (MarketData.open data)
              (MarketData.high data) (MarketData.low data) (MarketData.volume data)
              (MarketData.timestamp data) (MarketData.isValid data) in
            match extractLong globalQuote "06. volume" with
            | Throw e => (data, Some e)
            | Ok v5 =>
              (MarketData.mk (MarketData.symbol data)
                 (MarketData.low data)       (* data.bestBid = data.low *)
                 (MarketData.high data)      (* data.bestAsk = data.high *)
                 (MarketData.lastPrice data) (MarketData.open data)
                 (MarketData.high data) (MarketData.low data) v5
                 stamp true,
               None)
            end
          end
        end
      end
    end
  end.

Definition set_isValid (v : bool) (data : MarketData.t) : MarketData.t :=
  MarketData.mk (MarketData.symbol data) (MarketData.bestBid data)
    (MarketData.bestAsk data) (MarketData.lastPrice data) (MarketData.open data)
    (MarketData.high data) (MarketData.low data) (MarketData.volume data)
    (MarketData.timestamp data) v.

(** [FastJsonParser::parseAlphaVantage]. *)
Definition parseAlphaVantage (symbol jsonResponse : string) (clk : ParseClock)
    (p : FastJsonParser) : MarketData.t * FastJsonParser :=
  let total := uint64_wrap (totalParses_ p + 1) in
  let data0 :=
    MarketData.mk symbol 0 0 0 0 0 0 0 0 false in
  let '(data, failed) :=
    match parse_try jsonResponse (t_stamp clk) data0 with
    | (d, None) => (d, failedParses_ p)
    | (d, Some _) => (set_isValid false d, uint64_wrap (failedParses_ p + 1))
    end in
  (data,
   {| totalParses_ := total;
      failedParses_ := failed;
      totalParseTimeNs_ :=
        uint64_wrap (totalParseTimeNs_ p + (t_end clk - t_start clk)) |}).

(** [FastJsonParser::parseAlphaVantageSafe]. *)
Definition parseAlphaVantageSafe (symbol jsonResponse : string) (clk : ParseClock)
    (p : FastJsonParser) : MarketData.t * FastJsonParser :=
  let '(data, p1) := parseAlphaVantage symbol jsonResponse clk p in
  if MarketData.isValid data
     && (Double.le (MarketData.lastPrice data) 0 || (MarketData.volume data <? 0))
  then
    (set_isValid false data,
     {| totalParses_ := totalParses_ p1;
        failedParses_ := uint64_wrap (failedParses_ p1 + 1);
        totalParseTimeNs_ := totalParseTimeNs_ p1 |})
  else (data, p1).

(** ** MarketDataStore.h: the reader of the two best prices *)

Section MoreStoreOps.
Variable hash : string -> N.

(** [MarketDataStore::getBestPrices]: [None] when it returns [false]. *)
Definition getBestPrices (symbol : string) (st : MarketDataStore)
    : option (float * float) :=
  let index := getIndex hash symbol (symbolIndex_ st) in
  if index >=? MAX_SYMBOLS then None
  else
    let snapshot := marketData_ st !!! Z.to_nat index in
    if negb (MarketDataSnapshot.isValid snapshot) then None
    else Some (MarketDataSnapshot.bestBid snapshot,
               MarketDataSnapshot.bestAsk snapshot).
End MoreStoreOps.

(** ** FastHttpClient.cpp *)

(** Conversion of a [uint64_t] to [double]. *)
Definition double_of_uint64 (z : Z) : float :=
  SF2Prim (binary_normalize prec emax z 0 false).

Module FastHttpClient.

(** The counters of [class FastHttpClient]. *)
Record t := mk {
  totalRequests_ : Z;
  failedRequests_ : Z;
  totalLatencyNs_ : Z
}.

(** What one [curl_easy_perform] did: whether it returned [CURLE_OK], the
    bytes [writeCallback] appended to the cleared [responseBuffer_], and the
    readings of [high_resolution_clock] before and after it. *)
Record Transfer := mkTransfer {
  curle_ok : bool;
  received : string;
  t_before : Z;
  t_after : Z
}.

(** [FastHttpClient::get(url)]. *)
Definition get (url : string) (curl_easy_perform : string -> Transfer) (c : t)
    : string * t :=
  let tr := curl_easy_perform url in
  let total := uint64_wrap (totalRequests_ c + 1) in
  let latency := uint64_wrap (totalLatencyNs_ c + (t_after tr - t_before tr)) in
  if negb (curle_ok tr)
  then (EmptyString,
        {| totalRequests_ := total;
           failedRequests_ := uint64_wrap (failedRequests_ c + 1);
           totalLatencyNs_ := latency |})
  else (received tr,
        {| totalRequests_ := total;
           failedRequests_ := failedRequests_ c;
           totalLatencyNs_ := latency |}).

(** [FastHttpClient::buildAlphaVantageUrl]. *)
Definition buildAlphaVantageUrl (symbol apiKey : string) : string :=
  String.concat ""
    ["https://www.alphavantage.co/query?"; "function=GLOBAL_QUOTE&";
     "symbol="; symbol; "&"; "apikey="; apiKey].

(** [FastHttpClient::resetMetrics] and [FastHttpClient::isHealthy], with
    [curl_] not null as the constructor leaves it. *)
Definition resetMetrics (c : t) : t :=
  {| totalRequests_ := 0; failedRequests_ := 0; totalLatencyNs_ := 0 |}.

Definition isHealthy (c : t) : bool := totalRequests_ c >? 0.

(** [struct FastHttpClient::PerformanceMetrics]. *)
Record PerformanceMetrics := mkMetrics {
  totalRequests : Z;
  failedRequests : Z;
  avgLatencyMs : float;
  successRate : float;
  requestsPerSecond : float
}.

(** [FastHttpClient::getPerformanceMetrics]. *)
Definition getPerformanceMetrics (c : t) : PerformanceMetrics :=
  let total := totalRequests_ c in
  let failed := failedRequests_ c in
  let latencyNs := totalLatencyNs_ c in
  {| totalRequests := total;
     failedRequests := failed;
     avgLatencyMs :=
       if total >? 0 then (double_of_uint64 (latencyNs / total) / 1000000)%float
       else 0%float;
     successRate :=
       if total >? 0
       then (double_of_uint64 (uint64_wrap (total - failed))
             / double_of_uint64 total * 100)%float
       else 0%float;
     requestsPerSecond :=
       if total >? 0
       then (double_of_uint64 total / (double_of_uint64 latencyNs / 1000000000))%float
       else 0%float |}.

End FastHttpClient.

(** ** FastJsonParser.cpp: string values and metrics *)

(** [FastJsonParser::extractString]: the loop that moves [valueEnd] on to the
    closing quote or the terminator. *)
Fixpoint scan_string (p : string) : string :=
  match p with
  | String c p' =>
      if Ascii.eqb c NUL || Ascii.eqb c dquote then EmptyString
      else String c (scan_string p')
  | EmptyString => EmptyString
  end.

(** [FastJsonParser::extractString]; [json] and [key] are the characters of
    the two C strings. *)
Definition extractString (json key : string) : result string :=
  let keyPattern := quoted key in
  match strstr json keyPattern with
  | None => Throw (runtime_error (String.append "Key not found: " key))
  | Some keyPos =>
      match strchr keyPos ":" with
      | None => Throw (runtime_error (String.append "Colon not found after key: " key))
      | Some colonPos =>
          let valueStart := skip_ws (advance colonPos) in
          if negb (Ascii.eqb (peek valueStart) dquote)
          then Throw (runtime_error
                        (String.append "String value not found for key: " key))
          else Ok (scan_string (advance valueStart))
      end
  end.

(** [FastJsonParser::resetMetrics] and [FastJsonParser::isHealthy]. *)
Definition resetMetrics (p : FastJsonParser) : FastJsonParser :=
  {| totalParses_ := 0; failedParses_ := 0; totalParseTimeNs_ := 0 |}.

Definition isHealthy (p : FastJsonParser) : bool := totalParses_ p >? 0.

(** [struct FastJsonParser::PerformanceMetrics]. *)
Record ParserMetrics := mkParserMetrics {
  totalParses : Z;
  failedParses : Z;
  avgParseTimeMs : float;
  successRate : float;
  parsesPerSecond : float
}.

(** [FastJsonParser::getPerformanceMetrics]. *)
Definition getPerformanceMetrics (p : FastJsonParser) : ParserMetrics :=
  let total := totalParses_ p in
  let failed := failedParses_ p in
  let parseTimeNs := totalParseTimeNs_ p in
  {| totalParses := total;
     failedParses := failed;
     avgParseTimeMs :=
       if total >? 0 then (double_of_uint64 (parseTimeNs / total) / 1000000)%float
       else 0%float;
     successRate :=
       if total >? 0
       then (double_of_uint64 (uint64_wrap (total - failed))
             / double_of_uint64 total * 100)%float
       else 0%float;
     parsesPerSecond :=
       if total >? 0
       then (double_of_uint64 total / (double_of_uint64 parseTimeNs / 1000000000))%float
       else 0%float |}.

(** ** CppMarketDataService.cpp *)

Module CppMarketDataService.

(** The members of [class CppMarketDataService] but the store, which the
    service holds by reference and which is passed to the methods that use
    it.  [startTime_] is a reading of [steady_clock] in nanoseconds,
    [updateInterval_] and [minUpdateInterval_] are counts of milliseconds. *)
Record t := mk {
  httpClient_ : FastHttpClient.t;
  jsonParser_ : FastJsonParser;
  symbols_ : list string;
  apiKey_ : string;
  updateInterval_ : Z;
  running_ : bool;
  totalUpdates_ : Z;
  failedUpdates_ : Z;
  totalLatencyNs_ : Z;
  startTime_ : Z;
  lastUpdateTime_ : Z;
  minUpdateInterval_ : Z
}.

(** The constructor; [now] is the reading of [steady_clock]. *)
Definition new (now : Z) : t :=
  {| httpClient_ := FastHttpClient.mk 0 0 0;
     jsonParser_ := mkParser 0 0 0;
     symbols_ := ["AAPL"; "GOOGL"; "MSFT"; "TSLA"; "AMZN"; "META"; "NVDA"; "NFLX"];
     apiKey_ := EmptyString;
     updateInterval_ := 12;
     running_ := false;
     totalUpdates_ := 0;
     failedUpdates_ := 0;
     totalLatencyNs_ := 0;
     startTime_ := now;
     lastUpdateTime_ := 0;
     minUpdateInterval_ := 12 |}.

Definition set_symbols (l : list string) (s : t) : t :=
  mk (httpClient_ s) (jsonParser_ s) l (apiKey_ s) (updateInterval_ s)
     (running_ s) (totalUpdates_ s) (failedUpdates_ s) (totalLatencyNs_ s)
     (startTime_ s) (lastUpdateTime_ s) (minUpdateInterval_ s).

(** [std::find(symbols_.begin(), symbols_.end(), symbol) != symbols_.end()]. *)
Definition found (symbol : string) (l : list string) : bool :=
  existsb (String.eqb symbol) l.

(** [symbols_.erase(it)] at the first element equal to [symbol]. *)
Fixpoint erase_first (symbol : string) (l : list string) : list string :=
  match l with
  | [] => []
  | x :: l' => if String.eqb symbol x then l' else x :: erase_first symbol l'
  end.

(** [setSymbols], [addSymbol], [removeSymbol], [getSymbols]. *)
Definition setSymbols (symbols : list string) (s : t) : t :=
  set_symbols symbols s.

Definition addSymbol (symbol : string) (s : t) : t :=
  if negb (found symbol (symbols_ s))
  then set_symbols (symbols_ s ++ [symbol]) s
  else s.

Definition removeSymbol (symbol : string) (s : t) : t :=
  if found symbol (symbols_ s)
  then set_symbols (erase_first symbol (symbols_ s)) s
  else s.

Definition getSymbols (s : t) : list string := symbols_ s.

(** [setApiKey] and [setUpdateInterval]. *)
Definition setApiKey (apiKey : string) (s : t) : t :=
  mk (httpClient_ s) (jsonParser_ s) (symbols_ s) apiKey (updateInterval_ s)
     (running_ s) (totalUpdates_ s) (failedUpdates_ s) (totalLatencyNs_ s)
     (startTime_ s) (lastUpdateTime_ s) (minUpdateInterval_ s).

Definition setUpdateInterval (interval : Z) (s : t) : t :=
  mk (httpClient_ s) (jsonParser_ s) (symbols_ s) (apiKey_ s) interval
     (running_ s) (totalUpdates_ s) (failedUpdates_ s) (totalLatencyNs_ s)
     (startTime_ s) (lastUpdateTime_ s) (minUpdateInterval_ s).

(** [canUpdate]; [nowMs] is the count of whole milliseconds that
    [steady_clock] reads. *)
Definition canUpdate (nowMs : Z) (s : t) : bool :=
  let lastUpdate := lastUpdateTime_ s in
  let intervalMs := uint64_wrap (minUpdateInterval_ s) in
  uint64_wrap (uint64_wrap nowMs - lastUpdate) >=? intervalMs.

(** [updateRateLimit]. *)
Definition updateRateLimit (nowMs : Z) (s : t) : t :=
  mk (httpClient_ s) (jsonParser_ s) (symbols_ s) (apiKey_ s) (updateInterval_ s)
     (running_ s) (totalUpdates_ s) (failedUpdates_ s) (totalLatencyNs_ s)
     (startTime_ s) (uint64_wrap nowMs) (minUpdateInterval_ s).

(** What one call of [updateMarketData] meets: the transfer curl performs
    for a URL, the readings of [high_resolution_clock] at the start and at
    the end of the call, those taken by the parser and the one taken by the
    store. *)
Record Fetch := mkFetch {
  curl_easy_perform : string -> FastHttpClient.Transfer;
  clock_start : Z;
  clock_end : Z;
  parse_clock : ParseClock;
  store_now : Z
}.

Definition set_counters (http : FastHttpClient.t) (parser : FastJsonParser)
    (total failed latency : Z) (s : t) : t :=
  mk http parser (symbols_ s) (apiKey_ s) (updateInterval_ s) (running_ s)
     total failed latency (startTime_ s) (lastUpdateTime_ s)
     (minUpdateInterval_ s).

Section Update.
Variable hash : string -> N.

(** [CppMarketDataService::updateMarketData].  Nothing in the [try] block
    raises: [parseAlphaVantageSafe] catches what the parser throws. *)
Definition updateMarketData (symbol : string) (env : Fetch) (s : t)
    (store : MarketDataStore) : bool * t * MarketDataStore :=
  let url := FastHttpClient.buildAlphaVantageUrl symbol (apiKey_ s) in
  let '(response, http) :=
    FastHttpClient.get url (curl_easy_perform env) (httpClient_ s) in
  if String.eqb response EmptyString
  then (false,
        set_counters http (jsonParser_ s) (totalUpdates_ s)
          (uint64_wrap (failedUpdates_ s + 1)) (totalLatencyNs_ s) s,
        store)
  else
    let '(marketData, parser) :=
      parseAlphaVantageSafe symbol response (parse_clock env) (jsonParser_ s) in
    if negb (MarketData.isValid marketData)
    then (false,
          set_counters http parser (totalUpdates_ s)
            (uint64_wrap (failedUpdates_ s + 1)) (totalLatencyNs_ s) s,
          store)
    else
      let '(success, store') :=
        updateMarketData hash symbol (MarketData.bestBid marketData)
          (MarketData.bestAsk marketData) (MarketData.lastPrice marketData)
          (MarketData.volume marketData) (store_now env) store in
      let latency :=
        uint64_wrap (totalLatencyNs_ s + (clock_end env - clock_start env)) in
      (success,
       if success
       then set_counters http parser (uint64_wrap (totalUpdates_ s + 1))
              (failedUpdates_ s) latency s
       else set_counters http parser (totalUpdates_ s)
              (uint64_wrap (failedUpdates_ s + 1)) latency s,
       store').

(** [updateSymbol]. *)
Definition updateSymbol (symbol : string) (env : Fetch) (s : t)
    (store : MarketDataStore) : bool * t * MarketDataStore :=
  updateMarketData symbol env s store.

(** What the worker meets at one symbol of its pass: the value of
    [running_], which [stop] may have cleared from another thread, the
    milliseconds read by [canUpdate], the call of [updateMarketData] and the
    milliseconds read by [updateRateLimit]. *)
Record Turn := mkTurn {
  running_now : bool;
  check_ms : Z;
  fetch : Fetch;
  limit_ms : Z
}.

(** The [for] loop of [workerThread]: one pass over the copy of
    [symbols_]. *)
Fixpoint workerThread_pass (currentSymbols : list string) (turns : list Turn)
    (s : t) (store : MarketDataStore) : t * MarketDataStore :=
  match currentSymbols, turns with
  | symbol :: rest, turn :: turns' =>
      if negb (running_now turn) then (s, store)
      else if canUpdate (check_ms turn) s
      then
        let '(_, s1, store1) := updateMarketData symbol (fetch turn) s store in
        workerThread_pass rest turns' (updateRateLimit (limit_ms turn) s1) store1
      else workerThread_pass rest turns' s store
  | _, _ => (s, store)
  end.

End Update.

(** [struct CppMarketDataService::PerformanceMetrics]. *)
Record PerformanceMetrics := mkMetrics {
  totalUpdates : Z;
  failedUpdates : Z;
  avgLatencyMs : float;
  updatesPerSecond : float;
  successRate : float;
  uptimeSeconds : float;
  httpMetrics : FastHttpClient.PerformanceMetrics;
  parserMetrics : ParserMetrics
}.

(** [CppMarketDataService::getPerformanceMetrics]; [now] is the reading of
    [steady_clock] in nanoseconds.  [total / uptime.count()] divides a
    [uint64_t] by an integer count of seconds, converted to [uint64_t]: with
    a count of zero the division is undefined and the function has no
    result. *)
Definition getPerformanceMetrics (now : Z) (s : t) : option PerformanceMetrics :=
  let uptime := Z.quot (now - startTime_ s) 1000000000 in
  let total := totalUpdates_ s in
  let failed := failedUpdates_ s in
  let latencyNs := totalLatencyNs_ s in
  let perSecond :=
    if total >? 0
    then if uint64_wrap uptime =? 0 then None
         else Some (double_of_uint64 (total / uint64_wrap uptime))
    else Some 0%float in
  match perSecond with
  | None => None
  | Some ups =>
      Some {| totalUpdates := total;
              failedUpdates := failed;
              avgLatencyMs :=
                if total >? 0
                then (double_of_uint64 (latencyNs / total) / 1000000)%float
                else 0%float;
              updatesPerSecond := ups;
              successRate :=
                if total >? 0
                then (double_of_uint64 (uint64_wrap (total - failed))
                      / double_of_uint64 total * 100)%float
                else 0%float;
              uptimeSeconds := Double.of_long uptime;
              httpMetrics := FastHttpClient.getPerformanceMetrics (httpClient_ s);
              parserMetrics := getPerformanceMetrics (jsonParser_ s) |}
  end.

(** [CppMarketDataService::resetMetrics]; [now] is the reading of
    [steady_clock]. *)
Definition resetMetrics (now : Z) (s : t) : t :=
  mk (FastHttpClient.resetMetrics (httpClient_ s)) (resetMetrics (jsonParser_ s))
     (symbols_ s) (apiKey_ s) (updateInterval_ s) (running_ s) 0 0 0 now
     (lastUpdateTime_ s) (minUpdateInterval_ s).

(** [CppMarketDataService::isHealthy]. *)
Definition isHealthy (s : t) : bool :=
  running_ s && FastHttpClient.isHealthy (httpClient_ s)
  && isHealthy (jsonParser_ s).

End CppMarketDataService.

(** ** TradingEngineJNI.cpp: the books of the engine *)

(** The method of the book, under a name that the engine's method of the
    same name does not hide. *)
Local Abbreviation OrderBook_removeOrder := removeOrder (only parsing).

Module TradingEngineJNI.

(** [orderBooks_], a [std::map] from symbol to book: its entries in
    iteration order, which is the order of the keys.  A book is held by
    pointer and written in place; here the entry is replaced. *)
Definition Books := list (string * OrderBook).

(** [orderBooks_.find(symbol)]. *)
Fixpoint find (symbol : string) (m : Books) : option OrderBook :=
  match m with
  | [] => None
  | (k, b) :: m' => if String.eqb symbol k then Some b else find symbol m'
  end.

(** The entry of [symbol] set to [book]: replaced where the key is present,
    inserted before the first greater key where it is not. *)
Fixpoint assign (symbol : string) (book : OrderBook) (m : Books) : Books :=
  match m with
  | [] => [(symbol, book)]
  | (k, b) :: m' =>
      if String.eqb symbol k then (k, book) :: m'
      else if String.ltb symbol k then (symbol, book) :: m
      else (k, b) :: assign symbol book m'
  end.

(** [TradingEngineJNI::getOrderBook]: the book of the symbol, made on first
    use. *)
Definition getOrderBook (symbol : string) (m : Books) : OrderBook * Books :=
  match find symbol m with
  | None => (newOrderBook symbol, assign symbol (newOrderBook symbol) m)
  | Some b => (b, m)
  end.

(** [std::make_shared<Order>(id, user, sym, s, qty, prc)]: [at_addr] is the
    address of the new object, [now] the reading of [system_clock]. *)
Definition make_order (at_addr : N) (now : Z) (orderId userId symbol side : string)
    (quantity : Z) (price : float) : OrderPtr :=
  mkPtr at_addr (Order.mk orderId userId symbol side quantity price now true).

(** [TradingEngineJNI::addOrder] on the strings the JNI arguments decode
    to. *)
Definition addOrder (at_addr : N) (now : Z) (orderId userId symbol side : string)
    (quantity : Z) (price : float) (m : Books) : bool * Books :=
  let order := make_order at_addr now orderId userId symbol side quantity price in
  let '(orderBook, m1) := getOrderBook symbol m in
  let '(success, orderBook') := addOrder order orderBook in
  (success, assign symbol orderBook' m1).

(** [TradingEngineJNI::removeOrder]: the loop over the books, left at the
    first book that removes the order. *)
Fixpoint removeOrder (orderId : string) (m : Books) : bool * Books :=
  match m with
  | [] => (false, [])
  | (k, b) :: m' =>
      let '(removed, b') := OrderBook_removeOrder orderId b in
      if removed then (true, (k, b') :: m')
      else
        let '(r, m'') := removeOrder orderId m' in
        (r, (k, b') :: m'')
  end.

(** [TradingEngineJNI::getOrderCount] and [TradingEngineJNI::getSpread]. *)
Definition getOrderCount (symbol : string) (m : Books) : Z * Books :=
  let '(orderBook, m1) := getOrderBook symbol m in
  (getOrderCount orderBook, m1).

Definition getSpread (symbol : string) (m : Books) : float * Books :=
  let '(orderBook, m1) := getOrderBook symbol m in
  (getSpread orderBook, m1).

(** [TradingEngineJNI::isSymbolHalted]. *)
Definition isSymbolHalted (symbol : string) (m : Books) : bool := false.

End TradingEngineJNI.

(** ** Predicates on books *)

(** [m.begin()->first]: the best price of a side. *)
Definition best_price (m : PriceMap) : option float :=
  match m with
  | [] => None
  | (p, _) :: _ => Some p
  end.

(** The keys of a side are in the strict order of its comparator. *)
Definition keys_sorted (comp : float -> float -> bool) (m : PriceMap) : Prop :=
  StronglySorted (fun l1 l2 => comp (fst l1) (fst l2) = true) m.

(** No level of a side holds an empty vector. *)
Definition levels_nonempty (m : PriceMap) : Prop :=
  Forall (fun l : Level => snd l <> []) m.

Definition book_sorted (b : OrderBook) : Prop :=
  keys_sorted Double.gt (buyOrders_ b) /\ keys_sorted Double.lt (sellOrders_ b).

Definition book_levels_nonempty (b : OrderBook) : Prop :=
  levels_nonempty (buyOrders_ b) /\ levels_nonempty (sellOrders_ b).

(** Every resting order of a side has a positive quantity. *)
Definition resting_positive (m : PriceMap) : Prop :=
  Forall (fun l : Level => Forall (fun p => 0 < Order.quantity (obj p)) (snd l)) m.

(** Best bid strictly below best ask whenever both sides are occupied. *)
Definition uncrossed (b : OrderBook) : Prop :=
  match best_price (buyOrders_ b), best_price (sellOrders_ b) with
  | Some bid, Some ask => Double.lt bid ask = true
  | _, _ => True
  end.

(** The side an incoming order is matched against, and the test that lets it
    trade at a level price, as [matchOrder] dispatches them. *)
Definition opposing (order : OrderPtr) (b : OrderBook) : PriceMap :=
  if String.eqb (Order.side (obj order)) "BUY" then sellOrders_ b
  else if String.eqb (Order.side (obj order)) "SELL" then buyOrders_ b
  else [].

Definition crosses (order : OrderPtr) (levelPrice : float) : bool :=
  if String.eqb (Order.side (obj order)) "BUY"
  then Double.ge (Order.price (obj order)) levelPrice
  else if String.eqb (Order.side (obj order)) "SELL"
  then Double.le (Order.price (obj order)) levelPrice
  else false.

(** An order that can rest without crossing: its price is strictly on its own
    side of the best opposing price. *)
Definition rests_without_crossing (order : OrderPtr) (b : OrderBook) : Prop :=
  if String.eqb (Order.side (obj order)) "BUY" then
    match best_price (sellOrders_ b) with
    | Some ask => Double.lt (Order.price (obj order)) ask = true
    | None => True
    end
  else if String.eqb (Order.side (obj order)) "SELL" then
    match best_price (buyOrders_ b) with
    | Some bid => Double.lt bid (Order.price (obj order)) = true
    | None => True
    end
  else True.

(** One call of the book's interface that returns, where every order added
    rests without crossing. *)
Inductive book_step : OrderBook -> OrderBook -> Prop :=
| step_add order b :
    rests_without_crossing order b ->
    book_step b (snd (addOrder order b))
| step_remove orderId b :
    book_step b (snd (removeOrder orderId b))
| step_update order b r :
    updateOrder order b = Some r ->
    book_step b (snd r)
| step_match order clk b r :
    matchOrder order clk b = Some r ->
    book_step b (snd r).

(** The books such calls lead to from a new book. *)
Inductive book_reachable : OrderBook -> Prop :=
| reach_new symbol : book_reachable (newOrderBook symbol)
| reach_step b b' : book_reachable b -> book_step b b' -> book_reachable b'.

(** The order object after [matchOrder(order)] has returned: the method and
    the two functions it calls read [*order] and never assign to it. *)
Definition taker_after_match (order : OrderPtr) : Order.t := obj order.

(** The quantity and price of each trade. *)
Definition fills (trades : list Trade.t) : list (Z * float) :=
  List.map (fun t => (Trade.quantity t, Trade.price t)) trades.

Definition traded_quantity (trades : list Trade.t) : Z :=
  fold_right (fun t acc => Trade.quantity t + acc) 0 trades.

(** *** The matching policy in the words of the specification

    "Repeatedly examine the best opposing level.  If the incoming order
    crosses it, consume from the front of its FIFO queue: trade at the maker
    price for min(Q, maker.quantity).  Reduce both; remove maker when it hits
    zero; remove empty levels.  Stop when Q=0 or no crossing level remains."
    The result is the fills, the remaining taker quantity and the opposing
    side left. *)
Definition reduce_quantity (q : Z) (p : OrderPtr) : OrderPtr :=
  let o := obj p in
  mkPtr (addr p)
    (Order.mk (Order.orderId o) (Order.userId o) (Order.symbol o) (Order.side o)
       (Order.quantity o - q) (Order.price o) (Order.timestamp o) (Order.isActive o)).

Fixpoint spec_match (fuel : nat) (cross : float -> bool) (Q : Z) (opp : PriceMap)
    : list (Z * float) * Z * PriceMap :=
  match fuel with
  | O => ([], Q, opp)
  | S fuel' =>
      if Q <=? 0 then ([], Q, opp)
      else
        match opp with
        | [] => ([], Q, opp)
        | (p, []) :: rest => spec_match fuel' cross Q rest
        | (p, maker :: queue) :: rest =>
            if cross p then
              let q := Z.min Q (Order.quantity (obj maker)) in
              let opp' :=
                if Order.quantity (obj maker) - q =? 0
                then match queue with [] => rest | _ => (p, queue) :: rest end
                else (p, reduce_quantity q maker :: queue) :: rest in
              let '(fs, Q', opp'') := spec_match fuel' cross (Q - q) opp' in
              ((q, p) :: fs, Q', opp'')
            else ([], Q, opp)
        end
  end.

(** Enough fuel for [spec_match] when resting quantities are positive: each
    round removes a maker, removes a level or fills the taker. *)
Definition spec_fuel (opp : PriceMap) : nat :=
  S (fold_right (fun l acc => S (length (snd l)) + acc)%nat O opp).

Definition spec_matchOrder (order : OrderPtr) (b : OrderBook)
    : list (Z * float) * Z * PriceMap :=
  spec_match (spec_fuel (opposing order b)) (crosses order)
    (Order.quantity (obj order)) (opposing order b).

(** * Properties *)

(** ** Order of [double] *)

Lemma SFltb_Lt x y : SFltb x y = true <-> SFcompare x y = Some Lt.
Proof.
  unfold SFltb. destruct (SFcompare x y) as [[]|]; split; congruence.
Qed.

Lemma SFcompare_irrefl x : SFcompare x x <> Some Lt.
Proof.
  destruct x as [s|s| |s m e]; simpl; try congruence.
  - destruct s; congruence.
  - destruct s; rewrite Z.compare_refl.
    + rewrite Pos.compare_cont_refl. simpl. congruence.
    + rewrite Pos.compare_cont_refl. congruence.
Qed.

Lemma SFcompare_trans x y z :
  SFcompare x y = Some Lt -> SFcompare y z = Some Lt ->
  SFcompare x z = Some Lt.
Proof.
  destruct x as [sx|sx| |sx mx ex], y as [sy|sy| |sy my ey],
           z as [sz|sz| |sz mz ez]; simpl;
    repeat match goal with b : bool |- _ => destruct b end;
    try congruence;
    repeat match goal with
      | |- context [Z.compare ?a ?b] =>
          destruct (Z.compare_spec a b); subst; try congruence
      end;
    try lia;
    rewrite ?Z.compare_refl;
    repeat match goal with
      | |- context [Pos.compare_cont Eq ?a ?b] =>
          change (Pos.compare_cont Eq a b) with (Pos.compare a b);
          destruct (Pos.compare_spec a b); subst; simpl; try congruence
      end;
    try lia.
Qed.

Lemma lt_irrefl a : Double.lt a a = false.
Proof.
  unfold Double.lt. rewrite ltb_spec. apply not_true_is_false.
  rewrite SFltb_Lt. apply SFcompare_irrefl.
Qed.

Lemma lt_trans a b c :
  Double.lt a b = true -> Double.lt b c = true -> Double.lt a c = true.
Proof.
  unfold Double.lt. rewrite !ltb_spec, !SFltb_Lt. apply SFcompare_trans.
Qed.

Lemma lt_asym a b : Double.lt a b = true -> Double.lt b a = false.
Proof.
  intros H. apply not_true_is_false. intros H'.
  pose proof (lt_trans _ _ _ H H') as E. rewrite lt_irrefl in E. discriminate.
Qed.

Lemma gt_irrefl a : Double.gt a a = false.
Proof. apply lt_irrefl. Qed.

Lemma gt_trans a b c :
  Double.gt a b = true -> Double.gt b c = true -> Double.gt a c = true.
Proof. unfold Double.gt. intros H1 H2. exact (lt_trans _ _ _ H2 H1). Qed.

(** ** The price maps *)

Section StdMapFacts.
Variable comp : float -> float -> bool.
Hypothesis comp_irrefl : forall a, comp a a = false.
Hypothesis comp_trans :
  forall a b c, comp a b = true -> comp b c = true -> comp a c = true.


Lemma push_back_keys (P : float -> Prop) k o m :
  Forall (fun l : Level => P (fst l)) m -> P k ->
  Forall (fun l : Level => P (fst l)) (map_push_back comp k o m).
Proof.
  intros Hm Hk. induction Hm as [|[k' v] m Hk' Hm IH]; simpl.
  - repeat constructor. exact Hk.
  - destruct (comp k' k); [|destruct (comp k k')];
      repeat (constructor; simpl; try assumption).
Qed.

Lemma push_back_sorted k o m :
  keys_sorted comp m -> keys_sorted comp (map_push_back comp k o m).
Proof.
  unfold keys_sorted. intros Hs.
  induction Hs as [|[k' v] m Hs IH Hall]; simpl.
  - repeat constructor.
  - destruct (comp k' k) eqn:E1; [|destruct (comp k k') eqn:E2].
    + constructor; [exact IH|].
      apply (push_back_keys (fun x => comp k' x = true)); assumption.
    + constructor; [constructor; assumption|].
      constructor; [exact E2|].
      eapply Forall_impl; [exact Hall|].
      intros [k2 v2] H2. simpl in *. eapply comp_trans; eassumption.
    + constructor; assumption.
Qed.

Lemma push_back_nonempty k o m :
  levels_nonempty m -> levels_nonempty (map_push_back comp k o m).
Proof.
  unfold levels_nonempty. intros Hm.
  induction Hm as [|[k' v] m Hv Hm IH]; simpl.
  - repeat constructor. discriminate.
  - destruct (comp k' k); [|destruct (comp k k')];
      repeat (constructor; simpl; try assumption); try discriminate.
    intros E. apply app_eq_nil in E. destruct E; discriminate.
Qed.

Lemma push_back_positive k o m :
  0 < Order.quantity (obj o) ->
  resting_positive m -> resting_positive (map_push_back comp k o m).
Proof.
  unfold resting_positive. intros Ho Hm.
  induction Hm as [|[k' v] m Hv Hm IH]; simpl.
  - repeat constructor. exact Ho.
  - destruct (comp k' k); [|destruct (comp k k')];
      repeat (constructor; simpl; try assumption).
    apply Forall_app. split; [assumption|]. repeat constructor. exact Ho.
Qed.

Lemma push_back_best k o m :
  best_price (map_push_back comp k o m) = Some k \/
  (m <> [] /\ best_price (map_push_back comp k o m) = best_price m).
Proof.
  destruct m as [|[k' v] m]; simpl.
  - left. reflexivity.
  - destruct (comp k' k); [|destruct (comp k k')]; simpl.
    + right. split; [discriminate|reflexivity].
    + left. reflexivity.
    + right. split; [discriminate|reflexivity].
Qed.

Lemma remove_order_keys (P : float -> Prop) k o m :
  Forall (fun l : Level => P (fst l)) m ->
  Forall (fun l : Level => P (fst l)) (map_remove_order comp k o m).
Proof.
  intros Hm. induction Hm as [|[k' v] m Hk' Hm IH]; simpl.
  - constructor.
  - destruct (comp k' k); [|destruct (comp k k')].
    + constructor; assumption.
    + constructor; assumption.
    + destruct (List.filter _ v); [assumption|constructor; assumption].
Qed.

Lemma remove_order_sorted k o m :
  keys_sorted comp m -> keys_sorted comp (map_remove_order comp k o m).
Proof.
  unfold keys_sorted. intros Hs.
  induction Hs as [|[k' v] m Hs IH Hall]; simpl.
  - constructor.
  - destruct (comp k' k); [|destruct (comp k k')].
    + constructor; [exact IH|].
      apply (remove_order_keys (fun x => comp k' x = true)). exact Hall.
    + constructor; assumption.
    + destruct (List.filter _ v); [assumption|constructor; assumption].
Qed.

Lemma remove_order_nonempty k o m :
  levels_nonempty m -> levels_nonempty (map_remove_order comp k o m).
Proof.
  unfold levels_nonempty. intros Hm.
  induction Hm as [|[k' v] m Hv Hm IH]; simpl.
  - constructor.
  - destruct (comp k' k); [|destruct (comp k k')].
    + constructor; assumption.
    + constructor; assumption.
    + destruct (List.filter _ v) eqn:E; [assumption|].
      constructor; [simpl; discriminate|assumption].
Qed.

(** After a removal the best price is the old one or one the old one
    precedes. *)
Lemma remove_order_best k o m k1 :
  keys_sorted comp m ->
  best_price (map_remove_order comp k o m) = Some k1 ->
  exists k0, best_price m = Some k0 /\ (k1 = k0 \/ comp k0 k1 = true).
Proof.
  unfold keys_sorted. intros Hs.
  destruct Hs as [|[k' v] m Hs Hall]; simpl.
  - discriminate.
  - intros H. exists k'. split; [reflexivity|].
    destruct (comp k' k); [|destruct (comp k k')]; simpl in H.
    + left. congruence.
    + left. congruence.
    + destruct (List.filter _ v); simpl in H; [|left; congruence].
      right. destruct m as [|[k2 v2] m]; simpl in H; [discriminate|].
      inversion H; subst. inversion Hall; subst. assumption.
Qed.
End StdMapFacts.

(** ** Sample orders and books *)

Definition sample_order (id side : string) (quantity : Z) (price : float)
    (address : N) : OrderPtr :=
  mkPtr address (Order.mk id "user" "SYM" side quantity price 0 true).

Definition sell_10_at_20 : OrderPtr := sample_order "s1" "SELL" 10 20 1.
Definition sell_5_at_21 : OrderPtr := sample_order "s2" "SELL" 5 21 2.
Definition buy_12_at_25 : OrderPtr := sample_order "b1" "BUY" 12 25 3.
Definition buy_100_at_10 : OrderPtr := sample_order "b2" "BUY" 100 10 4.
Definition sell_100_at_9 : OrderPtr := sample_order "s3" "SELL" 100 9 5.
Definition sample_clock : Clock := mkClock 1700000000 1700000000123.

(** SELL 10@20 and SELL 5@21 resting. *)
Definition two_asks : OrderBook :=
  snd (addOrder sell_5_at_21 (snd (addOrder sell_10_at_20 (newOrderBook "SYM")))).

(** BUY 100@10, then SELL 100@9. *)
Definition bid_then_lower_ask : OrderBook :=
  snd (addOrder sell_100_at_9 (snd (addOrder buy_100_at_10 (newOrderBook "SYM")))).

(** ** Unknown ids *)

(** C5.  For an [orderId] that is not in the book's id map, [removeOrder]
    and [updateOrder] both return [false] and leave the book exactly as it
    was: both sides, the id map and the two counters. *)
Theorem unknown_id_is_rejected (b : OrderBook) (orderId : string) (order : OrderPtr) :
  orders_ b !! orderId = None ->
  Order.orderId (obj order) = orderId ->
  removeOrder orderId b = (false, b) /\
  updateOrder order b = Some (false, b).
Proof.
  intros Hnone Hid. split.
  - unfold removeOrder. rewrite Hnone. reflexivity.
  - unfold updateOrder. rewrite Hid, Hnone. reflexivity.
Qed.

Lemma unknown_id_is_rejected_witness :
  orders_ two_asks !! "b1" = None /\
  Order.orderId (obj buy_12_at_25) = "b1" /\
  removeOrder "b1" two_asks = (false, two_asks) /\
  updateOrder buy_12_at_25 two_asks = Some (false, two_asks).
Proof.
  split; [vm_compute; reflexivity|].
  split; [reflexivity|].
  apply (unknown_id_is_rejected two_asks "b1" buy_12_at_25).
  - vm_compute; reflexivity.
  - reflexivity.
Defined.

(** ** [addOrder] *)

Lemma addOrder_buy (order : OrderPtr) (b : OrderBook) :
  Order.side (obj order) = "BUY" ->
  addOrder order b =
  (true,
   {| symbol_ := symbol_ b;
      buyOrders_ := map_push_back Double.gt (Order.price (obj order)) order (buyOrders_ b);
      sellOrders_ := sellOrders_ b;
      totalOrders_ := size_t_wrap (totalOrders_ b + 1);
      totalVolume_ := size_t_wrap (totalVolume_ b + Order.quantity (obj order));
      lastTradePrice_ := lastTradePrice_ b;
      orders_ := <[Order.orderId (obj order) := order]> (orders_ b);
      lastPrice_ := lastPrice_ b;
      bestBid_ := Double.max (bestBid_ b) (Order.price (obj order));
      bestAsk_ := bestAsk_ b |}).
Proof. intros H. unfold addOrder. rewrite H. reflexivity. Qed.

Lemma addOrder_sell (order : OrderPtr) (b : OrderBook) :
  Order.side (obj order) = "SELL" ->
  addOrder order b =
  (true,
   {| symbol_ := symbol_ b;
      buyOrders_ := buyOrders_ b;
      sellOrders_ := map_push_back Double.lt (Order.price (obj order)) order (sellOrders_ b);
      totalOrders_ := size_t_wrap (totalOrders_ b + 1);
      totalVolume_ := size_t_wrap (totalVolume_ b + Order.quantity (obj order));
      lastTradePrice_ := lastTradePrice_ b;
      orders_ := <[Order.orderId (obj order) := order]> (orders_ b);
      lastPrice_ := lastPrice_ b;
      bestBid_ := bestBid_ b;
      bestAsk_ := Double.min (bestAsk_ b) (Order.price (obj order)) |}).
Proof. intros H. unfold addOrder. rewrite H. reflexivity. Qed.

Lemma addOrder_other (order : OrderPtr) (b : OrderBook) :
  String.eqb (Order.side (obj order)) "BUY" = false ->
  String.eqb (Order.side (obj order)) "SELL" = false ->
  addOrder order b =
  (true,
   {| symbol_ := symbol_ b;
      buyOrders_ := buyOrders_ b;
      sellOrders_ := sellOrders_ b;
      totalOrders_ := size_t_wrap (totalOrders_ b + 1);
      totalVolume_ := size_t_wrap (totalVolume_ b + Order.quantity (obj order));
      lastTradePrice_ := lastTradePrice_ b;
      orders_ := <[Order.orderId (obj order) := order]> (orders_ b);
      lastPrice_ := lastPrice_ b;
      bestBid_ := bestBid_ b;
      bestAsk_ := bestAsk_ b |}).
Proof. intros H1 H2. unfold addOrder. rewrite H1, H2. reflexivity. Qed.

(** The three ways [addOrder] dispatches on [side]. *)
Lemma side_cases (order : OrderPtr) :
  Order.side (obj order) = "BUY" \/
  Order.side (obj order) = "SELL" \/
  (String.eqb (Order.side (obj order)) "BUY" = false /\
   String.eqb (Order.side (obj order)) "SELL" = false).
Proof.
  destruct (String.eqb_spec (Order.side (obj order)) "BUY") as [E|E];
    [left; exact E|].
  destruct (String.eqb_spec (Order.side (obj order)) "SELL") as [E'|E'];
    [right; left; exact E'|].
  right; right; split; reflexivity.
Qed.



(** ** The cached best ask *)

Lemma positive_not_below_zero p :
  Double.gt p Double.zero = true -> Double.lt p Double.zero = false.
Proof. intros H. apply lt_asym. exact H. Qed.

(** C10.  In a new book, after [addOrder] of a SELL order at a price
    [p > 0], [getBestAsk] is [0.0] and not [p], because [std::min] combines
    [p] with the initial [0.0]; [getSpread] is then [0.0], also once a BUY
    order rests on the other side. *)
Theorem best_ask_cache_stays_zero (symbol : string) (sell buy : OrderPtr) :
  Order.side (obj sell) = "SELL" ->
  Double.gt (Order.price (obj sell)) Double.zero = true ->
  Order.side (obj buy) = "BUY" ->
  let b1 := snd (addOrder sell (newOrderBook symbol)) in
  let b2 := snd (addOrder buy b1) in
  fst (addOrder sell (newOrderBook symbol)) = true /\
  sellOrders_ b1 = [(Order.price (obj sell), [sell])] /\
  getBestAsk b1 = Double.zero /\
  getBestAsk b1 <> Order.price (obj sell) /\
  getSpread b1 = Double.zero /\
  buyOrders_ b2 = [(Order.price (obj buy), [buy])] /\
  sellOrders_ b2 = [(Order.price (obj sell), [sell])] /\
  getBestAsk b2 = Double.zero /\
  getSpread b2 = Double.zero.
Proof.
  intros Hs Hp Hb. cbv zeta.
  rewrite (addOrder_sell _ _ Hs).
  rewrite (addOrder_buy _ _ Hb).
  unfold getBestAsk, getSpread. simpl.
  unfold Double.min. rewrite (positive_not_below_zero _ Hp).
  replace (Double.gt Double.zero Double.zero) with false
    by (symmetry; apply gt_irrefl).
  rewrite !andb_false_r.
  repeat split.
  intros E. rewrite <- E in Hp. rewrite gt_irrefl in Hp. discriminate.
Qed.

Lemma best_ask_cache_stays_zero_witness :
  getBestAsk (snd (addOrder sell_10_at_20 (newOrderBook "SYM"))) = Double.zero /\
  getSpread (snd (addOrder buy_100_at_10
                    (snd (addOrder sell_10_at_20 (newOrderBook "SYM")))))
    = Double.zero.
Proof.
  pose proof (best_ask_cache_stays_zero "SYM" sell_10_at_20 buy_100_at_10
                eq_refl eq_refl eq_refl) as H.
  cbv zeta in H.
  destruct H as (_ & _ & H1 & _ & _ & _ & _ & _ & H2).
  split; assumption.
Defined.

(** ** [matchOrder] *)

(** What [matchOrder] returns, by the best opposing level. *)
Lemma matchOrder_cases (order : OrderPtr) (clk : Clock) (b : OrderBook) :
  book_levels_nonempty b ->
  match opposing order b with
  | (p, maker :: _) :: _ =>
      if crosses order p
      then matchOrder order clk b
           = Some ([make_trade order maker p clk], set_lastTradePrice p b)
      else matchOrder order clk b = Some ([], b)
  | _ => matchOrder order clk b = Some ([], b)
  end.
Proof.
  intros [Hbuy Hsell].
  unfold opposing, crosses, matchOrder.
  destruct (String.eqb (Order.side (obj order)) "BUY").
  - unfold matchBuyOrder.
    destruct (sellOrders_ b) as [|[p [|maker level]] rest]; try reflexivity.
    + inversion Hsell as [|? ? Hne _]. simpl in Hne. congruence.
    + destruct (Double.ge (Order.price (obj order)) p); reflexivity.
  - destruct (String.eqb (Order.side (obj order)) "SELL"); [|reflexivity].
    unfold matchSellOrder.
    destruct (buyOrders_ b) as [|[p [|maker level]] rest]; try reflexivity.
    + inversion Hbuy as [|? ? Hne _]. simpl in Hne. congruence.
    + destruct (Double.le (Order.price (obj order)) p); reflexivity.
Qed.

(** [matchOrder] writes [lastTradePrice_] and nothing else. *)
Lemma matchOrder_frame (order : OrderPtr) (clk : Clock) (b : OrderBook) trades b' :
  matchOrder order clk b = Some (trades, b') ->
  buyOrders_ b' = buyOrders_ b /\ sellOrders_ b' = sellOrders_ b /\
  orders_ b' = orders_ b /\
  totalOrders_ b' = totalOrders_ b /\ totalVolume_ b' = totalVolume_ b /\
  bestBid_ b' = bestBid_ b /\ bestAsk_ b' = bestAsk_ b.
Proof.
  unfold matchOrder.
  destruct (if String.eqb (Order.side (obj order)) "BUY" then _ else _)
    as [ts|]; [|discriminate].
  destruct (List.last (List.map Some ts) None) as [t|];
    intros H; inversion H; subst; repeat split.
Qed.

(** C1, as the code has it.  [matchOrder] examines the front order of the
    best opposing level once.  If the incoming order crosses that level (BUY:
    its price >= the level price; SELL: its price <= the level price) one
    trade is emitted, for the minimum of the taker's and that maker's
    quantities, at the level price; otherwise none is.  No quantity is
    reduced and no order or level is removed: both sides, the id map and the
    counters are as before the call. *)
Theorem matchOrder_fills_once (order : OrderPtr) (clk : Clock) (b : OrderBook) :
  book_levels_nonempty b ->
  exists trades b',
    matchOrder order clk b = Some (trades, b') /\
    buyOrders_ b' = buyOrders_ b /\ sellOrders_ b' = sellOrders_ b /\
    orders_ b' = orders_ b /\
    totalOrders_ b' = totalOrders_ b /\ totalVolume_ b' = totalVolume_ b /\
    match opposing order b with
    | (p, maker :: _) :: _ =>
        if crosses order p
        then trades = [make_trade order maker p clk] /\
             fills trades
             = [(Z.min (Order.quantity (obj order)) (Order.quantity (obj maker)), p)]
        else trades = []
    | _ => trades = []
    end.
Proof.
  intros Hne. pose proof (matchOrder_cases order clk b Hne) as Hc.
  assert (Hex : exists trades b', matchOrder order clk b = Some (trades, b')).
  { destruct (opposing order b) as [|[p [|maker level]] rest]; eauto.
    destruct (crosses order p); eauto. }
  destruct Hex as (trades & b' & Hm). exists trades, b'.
  destruct (matchOrder_frame _ _ _ _ _ Hm) as (H1 & H2 & H3 & H4 & H5 & _).
  repeat (split; [assumption|]).
  rewrite Hm in Hc.
  destruct (opposing order b) as [|[p [|maker level]] rest];
    try (inversion Hc; reflexivity).
  destruct (crosses order p); inversion Hc; subst; [split|]; reflexivity.
Qed.

Lemma two_asks_levels_nonempty : book_levels_nonempty two_asks.
Proof.
  split; vm_compute; repeat constructor; discriminate.
Qed.

Lemma matchOrder_fills_once_witness :
  exists trades b',
    matchOrder buy_12_at_25 sample_clock two_asks = Some (trades, b') /\
    sellOrders_ b' = sellOrders_ two_asks /\
    fills trades = [(10, 20%float)].
Proof.
  destruct (matchOrder_fills_once buy_12_at_25 sample_clock two_asks
              two_asks_levels_nonempty)
    as (trades & b' & Hm & _ & Hs & _ & _ & _ & Hf).
  exists trades, b'. split; [exact Hm|]. split; [exact Hs|].
  vm_compute in Hf. destruct Hf as [-> _]. reflexivity.
Defined.

(** C1 as stated fails.  With SELL 10@20 and SELL 5@21 resting, the policy
    of the specification fills BUY 12@25 twice (10@20, then 2@21) and leaves
    SELL 3@21; [matchOrder] emits the first fill only and leaves the book as
    it was, the filled maker still at the front with its 10. *)
Lemma matchOrder_stops_after_one_fill :
  exists trades b',
    matchOrder buy_12_at_25 sample_clock two_asks = Some (trades, b') /\
    fills trades = [(10, 20%float)] /\
    sellOrders_ b' = [(20%float, [sell_10_at_20]); (21%float, [sell_5_at_21])] /\
    spec_matchOrder buy_12_at_25 two_asks
    = ([(10, 20%float); (2, 21%float)], 0,
       [(21%float, [reduce_quantity 2 sell_5_at_21])]) /\
    fills trades <> fst (fst (spec_matchOrder buy_12_at_25 two_asks)) /\
    sellOrders_ b' <> snd (spec_matchOrder buy_12_at_25 two_asks).
Proof.
  eexists _, _. split; [vm_compute; reflexivity|].
  repeat split; try (vm_compute; reflexivity); vm_compute; discriminate.
Qed.

(** C2, as the code has it.  When the taker's quantity and the resting
    quantities it is matched against are positive, every emitted trade has a
    positive quantity and the price of the best opposing level, where its
    maker rests.  The taker's quantity is not reduced: what remains of it
    after the call is its original quantity, and the emitted quantities sum
    to at most that. *)
Theorem trades_priced_at_maker_level (order : OrderPtr) (clk : Clock) (b : OrderBook) :
  book_levels_nonempty b ->
  0 < Order.quantity (obj order) ->
  resting_positive (opposing order b) ->
  exists trades b',
    matchOrder order clk b = Some (trades, b') /\
    Forall (fun t => 0 < Trade.quantity t /\
                     Some (Trade.price t) = best_price (opposing order b)) trades /\
    Order.quantity (taker_after_match order) = Order.quantity (obj order) /\
    0 <= traded_quantity trades <= Order.quantity (obj order).
Proof.
  intros Hne Hq Hpos.
  pose proof (matchOrder_cases order clk b Hne) as Hc.
  destruct (opposing order b) as [|[p [|maker level]] rest].
  - exists [], b. repeat split; try assumption; simpl; try lia. constructor.
  - exists [], b. repeat split; try assumption; simpl; try lia. constructor.
  - destruct (crosses order p).
    + exists [make_trade order maker p clk], (set_lastTradePrice p b).
      assert (Hmk : 0 < Order.quantity (obj maker)).
      { inversion Hpos as [|? ? Hl _]. inversion Hl. assumption. }
      repeat split; try assumption; simpl; try lia.
      repeat constructor; simpl; lia.
    + exists [], b. repeat split; try assumption; simpl; try lia. constructor.
Qed.

Lemma trades_priced_at_maker_level_witness :
  exists trades b',
    matchOrder buy_12_at_25 sample_clock two_asks = Some (trades, b') /\
    Forall (fun t => 0 < Trade.quantity t /\ Some (Trade.price t) = Some 20%float)
      trades /\
    0 <= traded_quantity trades <= 12.
Proof.
  assert (Hq : 0 < Order.quantity (obj buy_12_at_25)) by (vm_compute; reflexivity).
  assert (Hpos : resting_positive (opposing buy_12_at_25 two_asks)).
  { vm_compute. repeat constructor. }
  destruct (trades_priced_at_maker_level buy_12_at_25 sample_clock two_asks
              two_asks_levels_nonempty Hq Hpos)
    as (trades & b' & Hm & Hall & _ & Hsum).
  exists trades, b'. repeat split; try assumption; apply Hsum.
Defined.

(** C2 as stated fails on conservation: BUY 12@25 against SELL 10@20 trades
    10 and the taker still holds 12, so traded plus remaining is 22. *)
Lemma taker_volume_not_conserved :
  exists trades b',
    matchOrder buy_12_at_25 sample_clock two_asks = Some (trades, b') /\
    traded_quantity trades = 10 /\
    Order.quantity (taker_after_match buy_12_at_25) = 12 /\
    traded_quantity trades + Order.quantity (taker_after_match buy_12_at_25)
    <> Order.quantity (obj buy_12_at_25).
Proof.
  eexists _, _. split; [vm_compute; reflexivity|].
  repeat split; vm_compute; discriminate.
Qed.

(** For an id the book knows, [updateOrder] reaches [removeOrder] with the
    mutex held and gets no further: the exception of the second lock ends in
    its handler. *)
Lemma updateOrder_known_id (order oldOrder : OrderPtr) (b : OrderBook) :
  orders_ b !! Order.orderId (obj order) = Some oldOrder ->
  updateOrder order b = Some (false, b).
Proof. intros H. unfold updateOrder. rewrite H. reflexivity. Qed.

(** No call leaves an empty vector in the book, whatever is added. *)
Lemma addOrder_levels_nonempty (order : OrderPtr) (b : OrderBook) :
  book_levels_nonempty b -> book_levels_nonempty (snd (addOrder order b)).
Proof.
  intros [Hb Hs]. destruct (side_cases order) as [H|[H|[H1 H2]]].
  - rewrite (addOrder_buy _ _ H). split; [apply push_back_nonempty|]; assumption.
  - rewrite (addOrder_sell _ _ H). split; [|apply push_back_nonempty]; assumption.
  - rewrite (addOrder_other _ _ H1 H2). split; assumption.
Qed.

Lemma removeOrder_levels_nonempty (orderId : string) (b : OrderBook) :
  book_levels_nonempty b -> book_levels_nonempty (snd (removeOrder orderId b)).
Proof.
  intros [Hb Hs]. unfold removeOrder.
  destruct (orders_ b !! orderId) as [order|]; [|split; assumption].
  destruct (String.eqb (Order.side (obj order)) "BUY");
    [|destruct (String.eqb (Order.side (obj order)) "SELL")];
    split; cbn [snd buyOrders_ sellOrders_]; try assumption;
    apply remove_order_nonempty; assumption.
Qed.

(** ** The book at rest *)

(** What the calls preserve on top of [uncrossed]. *)
Definition book_invariant (b : OrderBook) : Prop :=
  book_sorted b /\ book_levels_nonempty b /\ uncrossed b.

Lemma new_book_invariant symbol : book_invariant (newOrderBook symbol).
Proof.
  unfold book_invariant, book_sorted, book_levels_nonempty, keys_sorted,
    levels_nonempty, uncrossed. simpl.
  repeat split; constructor.
Qed.

Lemma invariant_same_sides (b b' : OrderBook) :
  buyOrders_ b' = buyOrders_ b -> sellOrders_ b' = sellOrders_ b ->
  book_invariant b -> book_invariant b'.
Proof.
  unfold book_invariant, book_sorted, book_levels_nonempty, uncrossed.
  intros -> ->. tauto.
Qed.

Lemma addOrder_invariant (order : OrderPtr) (b : OrderBook) :
  rests_without_crossing order b ->
  book_invariant b -> book_invariant (snd (addOrder order b)).
Proof.
  intros Hrest Hinv.
  destruct (side_cases order) as [H|[H|[H1 H2]]].
  - rewrite (addOrder_buy _ _ H).
    destruct Hinv as ((Hsb & Hss) & (Hnb & Hns) & Hun).
    unfold book_invariant, book_sorted, book_levels_nonempty, uncrossed. simpl.
    repeat split; try assumption.
    + apply push_back_sorted; [exact gt_trans|exact Hsb].
    + apply push_back_nonempty. exact Hnb.
    + unfold rests_without_crossing in Hrest. rewrite H in Hrest. simpl in Hrest.
      unfold uncrossed in Hun.
      destruct (push_back_best Double.gt (Order.price (obj order)) order (buyOrders_ b))
        as [E|[_ E]]; rewrite E.
      * destruct (best_price (sellOrders_ b)); [exact Hrest|exact I].
      * exact Hun.
  - rewrite (addOrder_sell _ _ H).
    destruct Hinv as ((Hsb & Hss) & (Hnb & Hns) & Hun).
    unfold book_invariant, book_sorted, book_levels_nonempty, uncrossed. simpl.
    repeat split; try assumption.
    + apply push_back_sorted; [exact lt_trans|exact Hss].
    + apply push_back_nonempty. exact Hns.
    + unfold rests_without_crossing in Hrest. rewrite H in Hrest. simpl in Hrest.
      unfold uncrossed in Hun.
      destruct (push_back_best Double.lt (Order.price (obj order)) order (sellOrders_ b))
        as [E|[_ E]]; rewrite E.
      * destruct (best_price (buyOrders_ b)); [exact Hrest|exact I].
      * exact Hun.
  - rewrite (addOrder_other _ _ H1 H2).
    eapply invariant_same_sides; [| |exact Hinv]; reflexivity.
Qed.

Lemma removeOrder_invariant (orderId : string) (b : OrderBook) :
  book_invariant b -> book_invariant (snd (removeOrder orderId b)).
Proof.
  intros Hinv. unfold removeOrder.
  destruct (orders_ b !! orderId) as [order|]; [|exact Hinv].
  destruct Hinv as ((Hsb & Hss) & (Hnb & Hns) & Hun).
  destruct (String.eqb (Order.side (obj order)) "BUY");
    [|destruct (String.eqb (Order.side (obj order)) "SELL")];
    unfold book_invariant, book_sorted, book_levels_nonempty, uncrossed; simpl;
    repeat split; try assumption.
  - apply remove_order_sorted. exact Hsb.
  - apply remove_order_nonempty. exact Hnb.
  - destruct (best_price (map_remove_order Double.gt _ order (buyOrders_ b)))
      as [k1|] eqn:E; [|exact I].
    destruct (remove_order_best Double.gt _ _ _ _ Hsb E) as (k0 & E0 & Hk).
    unfold uncrossed in Hun. rewrite E0 in Hun.
    destruct (best_price (sellOrders_ b)) as [ask|]; [|exact I].
    destruct Hk as [->|Hk]; [exact Hun|].
    eapply lt_trans; [exact Hk|exact Hun].
  - apply remove_order_sorted. exact Hss.
  - apply remove_order_nonempty. exact Hns.
  - unfold uncrossed in Hun.
    destruct (best_price (buyOrders_ b)) as [bid|]; [|exact I].
    destruct (best_price (map_remove_order Double.lt _ order (sellOrders_ b)))
      as [k1|] eqn:E; [|exact I].
    destruct (remove_order_best Double.lt _ _ _ _ Hss E) as (k0 & E0 & Hk).
    rewrite E0 in Hun.
    destruct Hk as [->|Hk]; [exact Hun|].
    eapply lt_trans; [exact Hun|exact Hk].
Qed.

Lemma book_step_invariant (b b' : OrderBook) :
  book_step b b' -> book_invariant b -> book_invariant b'.
Proof.
  intros Hstep Hinv. destruct Hstep as [order b Hrest|orderId b|order b r Hu|order clk b r Hm].
  - apply addOrder_invariant; assumption.
  - apply removeOrder_invariant; assumption.
  - unfold updateOrder in Hu.
    destruct (orders_ b !! Order.orderId (obj order));
      cbn in Hu; inversion Hu; subst; exact Hinv.
  - destruct r as [trades b'].
    destruct (matchOrder_frame _ _ _ _ _ Hm) as (H1 & H2 & _).
    eapply invariant_same_sides; eassumption.
Qed.

Lemma reachable_invariant (b : OrderBook) :
  book_reachable b -> book_invariant b.
Proof.
  induction 1 as [symbol|b b' _ IH Hstep].
  - apply new_book_invariant.
  - eapply book_step_invariant; eassumption.
Qed.

(** C3, as the code has it.  Neither [addOrder] nor [matchOrder] uncrosses
    anything, so best bid < best ask is kept only if no order is added across
    the other side.  For every sequence of calls of [addOrder], [removeOrder],
    [updateOrder] and [matchOrder] on a new book in which each order added is
    priced strictly on its own side of the best opposing price, best bid is
    strictly below best ask whenever both sides are occupied. *)
Theorem book_stays_uncrossed (b : OrderBook) :
  book_reachable b -> uncrossed b.
Proof.
  intros H. apply reachable_invariant in H. apply H.
Qed.

Definition bid_10_ask_20 : OrderBook :=
  snd (addOrder sell_10_at_20 (snd (addOrder buy_100_at_10 (newOrderBook "SYM")))).

Lemma bid_10_ask_20_reachable : book_reachable bid_10_ask_20.
Proof.
  unfold bid_10_ask_20.
  apply (reach_step (snd (addOrder buy_100_at_10 (newOrderBook "SYM")))).
  - apply (reach_step (newOrderBook "SYM")).
    + apply reach_new.
    + apply (step_add buy_100_at_10 (newOrderBook "SYM")). exact I.
  - apply (step_add sell_10_at_20). reflexivity.
Defined.

Lemma book_stays_uncrossed_witness :
  best_price (buyOrders_ bid_10_ask_20) = Some 10%float /\
  best_price (sellOrders_ bid_10_ask_20) = Some 20%float /\
  uncrossed bid_10_ask_20.
Proof.
  split; [reflexivity|]. split; [reflexivity|].
  apply (book_stays_uncrossed bid_10_ask_20 bid_10_ask_20_reachable).
Defined.

(** C3 as stated fails: BUY 100@10 is added, SELL 100@9 is added, and
    [matchOrder] is called for the SELL order.  It reports a trade of 100 at
    10 and returns with both orders still resting: best bid 10, best ask 9. *)
Lemma book_left_crossed :
  exists trades b',
    matchOrder sell_100_at_9 sample_clock bid_then_lower_ask = Some (trades, b') /\
    fills trades = [(100, 10%float)] /\
    best_price (buyOrders_ b') = Some 10%float /\
    best_price (sellOrders_ b') = Some 9%float /\
    ~ uncrossed b'.
Proof.
  eexists _, _. split; [vm_compute; reflexivity|].
  repeat split. vm_compute. discriminate.
Qed.

(** ** Predicates on the symbol index and the store *)

(** The slot an entry claims for a symbol: active, with a matching key. *)
Definition holds_symbol (e : SymbolEntry.t) (symbol : string) : bool :=
  SymbolEntry.isActive e && key_matches e symbol.

(** The bytes of a symbol the index looks at. *)
Definition first7 (s : string) : string :=
  string_take (SYMBOL_LENGTH - 1) (c_str s).

Definition count_active (l : list SymbolEntry.t) : Z :=
  Z.of_nat (length (List.filter SymbolEntry.isActive l)).

(** The table has its [MAX_SYMBOLS] slots, the counter equals the number of
    claimed slots, and every claimed slot holds an index below the counter. *)
Definition index_wf (s : SymbolIndex) : Prop :=
  length (symbolTable_ s) = Z.to_nat MAX_SYMBOLS /\
  nextIndex_ s = count_active (symbolTable_ s) /\
  Forall (fun e => SymbolEntry.isActive e = true ->
                   0 <= SymbolEntry.index e < nextIndex_ s) (symbolTable_ s).

(** Both arrays of the store have their [MAX_SYMBOLS] elements. *)
Definition store_wf (st : MarketDataStore) : Prop :=
  length (marketData_ st) = Z.to_nat MAX_SYMBOLS /\
  length (symbolTable_ (symbolIndex_ st)) = Z.to_nat MAX_SYMBOLS.

(** No claimed slot matches the symbol. *)
Definition unknown_symbol (symbol : string) (s : SymbolIndex) : Prop :=
  Forall (fun e => holds_symbol e symbol = false) (symbolTable_ s).

(** ** The symbol index *)

Lemma MAX_SYMBOLS_pos : 0 < MAX_SYMBOLS.
Proof. reflexivity. Qed.

Lemma slot_in_range (z : Z) :
  (Z.to_nat (z mod MAX_SYMBOLS) < Z.to_nat MAX_SYMBOLS)%nat.
Proof.
  pose proof (Z.mod_pos_bound z MAX_SYMBOLS MAX_SYMBOLS_pos). lia.
Qed.

Lemma append_cons (c : ascii) (s r : string) :
  String.append (String c s) r = String c (String.append s r).
Proof. reflexivity. Qed.

Lemma strncmp_stored (src rest : string) (n : nat) :
  strncmp (String.append (strncpy src n) rest) src n = 0.
Proof.
  revert src. induction n as [|n IH]; intros src; [reflexivity|].
  cbn [strncpy].
  destruct (Ascii.eqb (peek src) NUL) eqn:E; rewrite append_cons;
    cbn [strncmp peek advance].
  - apply Ascii.eqb_eq in E. rewrite E. reflexivity.
  - rewrite Ascii.eqb_refl. cbn [negb]. rewrite E. apply IH.
Qed.

Lemma stored_key_matches (symbol : string) (index : Z) :
  key_matches (SymbolEntry.mk (stored_key symbol) index true) symbol = true.
Proof.
  unfold key_matches, stored_key. cbn [SymbolEntry.symbol].
  rewrite strncmp_stored. reflexivity.
Qed.

Lemma peek_take (n : nat) (a : string) :
  peek (string_take (S n) a) = peek a.
Proof. destruct a; reflexivity. Qed.

Lemma advance_take (n : nat) (a : string) :
  advance (string_take (S n) a) = string_take n (advance a).
Proof. destruct a; [destruct n|]; reflexivity. Qed.



Section SymbolIndexFacts.
Variable hash : string -> N.

(** [getOrCreateIndex] keeps the size of the table and writes to no slot
    that was claimed. *)
Lemma getOrCreateIndex_loop_frame n i h symbol s r s' :
  getOrCreateIndex_loop n i h symbol s = (r, s') ->
  length (symbolTable_ s') = length (symbolTable_ s) /\
  forall k, SymbolEntry.isActive (symbolTable_ s !!! k) = true ->
            symbolTable_ s' !!! k = symbolTable_ s !!! k.
Proof.
  revert i. induction n as [|n IH]; intros i; cbn [getOrCreateIndex_loop].
  - intros H. inversion H; subst. split; reflexivity.
  - destruct (SymbolEntry.isActive
                (symbolTable_ s !!! Z.to_nat ((h + i) mod MAX_SYMBOLS))) eqn:Ea;
      cbn [negb].
    + destruct (key_matches _ symbol).
      * intros H. inversion H; subst. split; reflexivity.
      * apply IH.
    + intros H. inversion H; subst. cbn [symbolTable_].
      split; [apply length_insert|].
      intros k Hk. apply list_lookup_total_insert_ne.
      intros E. rewrite <- E, Ea in Hk. discriminate.
Qed.

(** A lookup of the symbol just interned returns the index interning
    returned. *)
Lemma getIndex_loop_after_getOrCreate n i h symbol s r s' :
  length (symbolTable_ s) = Z.to_nat MAX_SYMBOLS ->
  getOrCreateIndex_loop n i h symbol s = (r, s') ->
  r < MAX_SYMBOLS ->
  getIndex_loop n i h symbol s' = r.
Proof.
  intros Hlen. revert i.
  induction n as [|n IH]; intros i; cbn [getOrCreateIndex_loop getIndex_loop].
  - intros H Hr. inversion H; subst. vm_compute in Hr. discriminate.
  - destruct (SymbolEntry.isActive
                (symbolTable_ s !!! Z.to_nat ((h + i) mod MAX_SYMBOLS))) eqn:Ea;
      cbn [negb].
    + destruct (key_matches (symbolTable_ s !!! _) symbol) eqn:Ek.
      * intros H _. inversion H; subst. rewrite Ea, Ek. reflexivity.
      * intros H Hr.
        destruct (getOrCreateIndex_loop_frame _ _ _ _ _ _ _ H) as [_ Hsame].
        rewrite (Hsame _ Ea), Ea, Ek. cbn [andb].
        apply IH; assumption.
    + intros H _. inversion H; subst. cbn [symbolTable_].
      rewrite list_lookup_total_insert_eq
        by (rewrite Hlen; apply slot_in_range).
      cbn [SymbolEntry.isActive SymbolEntry.index].
      rewrite stored_key_matches. reflexivity.
Qed.

Lemma getIndex_after_getOrCreateIndex symbol s r s' :
  length (symbolTable_ s) = Z.to_nat MAX_SYMBOLS ->
  getOrCreateIndex hash symbol s = (r, s') ->
  r < MAX_SYMBOLS ->
  getIndex hash symbol s' = r.
Proof.
  unfold getOrCreateIndex, getIndex.
  apply getIndex_loop_after_getOrCreate.
Qed.
End SymbolIndexFacts.

(** ** The snapshot store *)

(** A hash function for the examples: a polynomial hash of the bytes. *)
Fixpoint sample_hash_from (acc : N) (s : string) : N :=
  match s with
  | EmptyString => acc
  | String c s' => sample_hash_from (31 * acc + N.of_nat (nat_of_ascii c))%N s'
  end.
Definition sample_hash (s : string) : N := sample_hash_from 7%N s.

Definition out_timestamp (out : MarketDataOut) : Z := snd out.

Lemma new_store_wf : store_wf newMarketDataStore.
Proof. split; apply length_replicate. Qed.

Section MarketDataStoreFacts.
Variable hash : string -> N.

(** A successful update, step by step. *)
Lemma updateMarketData_true symbol bid ask last vol now st st' :
  updateMarketData hash symbol bid ask last vol now st = (true, st') ->
  exists index si,
    getOrCreateIndex hash symbol (symbolIndex_ st) = (index, si) /\
    index < MAX_SYMBOLS /\
    symbolIndex_ st' = si /\
    marketData_ st' =
      <[Z.to_nat index :=
          MarketDataSnapshot.mk bid ask last (ask - bid)%float vol now
            (uint32_wrap (MarketDataSnapshot.sequenceNumber
                            (marketData_ st !!! Z.to_nat index) + 1))
            true]> (marketData_ st).
Proof.
  unfold updateMarketData.
  destruct (getOrCreateIndex hash symbol (symbolIndex_ st)) as [index si].
  destruct (index >=? MAX_SYMBOLS) eqn:E; [discriminate|].
  intros H. inversion H; subst. exists index, si.
  repeat split. lia.
Qed.

Lemma updateMarketData_wf symbol bid ask last vol now st :
  store_wf st ->
  store_wf (snd (updateMarketData hash symbol bid ask last vol now st)).
Proof.
  intros [Hm Hs]. unfold updateMarketData.
  destruct (getOrCreateIndex hash symbol (symbolIndex_ st)) as [index si] eqn:E.
  unfold getOrCreateIndex in E.
  apply getOrCreateIndex_loop_frame in E. destruct E as [El _].
  destruct (index >=? MAX_SYMBOLS); split; cbn [snd marketData_ symbolIndex_];
    rewrite ?length_insert; congruence.
Qed.

Lemma read_after_update st symbol bid ask last vol now st1 :
  store_wf st ->
  updateMarketData hash symbol bid ask last vol now st = (true, st1) ->
  fst (getMarketData hash symbol st1)
  = Some (bid, ask, last, (ask - bid)%float, vol, now).
Proof.
  intros [Hm Hs] Hu.
  destruct (updateMarketData_true _ _ _ _ _ _ _ _ Hu)
    as (index & si & Hi & Hlt & Esi & Emd).
  unfold getMarketData. rewrite Esi.
  rewrite (getIndex_after_getOrCreateIndex hash _ _ _ _ Hs Hi Hlt).
  replace (index >=? MAX_SYMBOLS) with false by lia.
  rewrite Emd.
  rewrite list_lookup_total_insert_eq by (rewrite Hm; unfold MAX_SYMBOLS in *; lia).
  reflexivity.
Qed.

(** With a clock that does not run backwards, no slot's timestamp ever
    decreases: if every stored timestamp is at most the reading [now], an
    update made at [now] raises or keeps the timestamp of every slot and
    leaves all of them at most [now]. *)
Lemma update_keeps_timestamps_ordered symbol bid ask last vol now st :
  store_wf st ->
  Forall (fun snap => MarketDataSnapshot.timestamp snap <= now) (marketData_ st) ->
  let st' := snd (updateMarketData hash symbol bid ask last vol now st) in
  Forall (fun snap => MarketDataSnapshot.timestamp snap <= now) (marketData_ st') /\
  forall i, (i < Z.to_nat MAX_SYMBOLS)%nat ->
    MarketDataSnapshot.timestamp (marketData_ st !!! i)
    <= MarketDataSnapshot.timestamp (marketData_ st' !!! i).
Proof.
  intros [Hm Hs] Hall. cbv zeta. unfold updateMarketData.
  destruct (getOrCreateIndex hash symbol (symbolIndex_ st)) as [index si].
  destruct (index >=? MAX_SYMBOLS) eqn:E; cbn [snd marketData_].
  - split; [exact Hall|]. intros i _. lia.
  - split.
    + apply Forall_insert; [exact Hall|]. cbn. lia.
    + intros i Hi. rewrite list_lookup_total_insert.
      destruct (decide _) as [[-> _]|_]; [|lia].
      cbn. apply (Forall_lookup_total_1 _ _ _ Hall). rewrite Hm. exact Hi.
Qed.

(** C6, as the code has it.  After a successful [updateMarketData] of a
    symbol, [getMarketData] of that symbol succeeds and returns the bid, ask,
    last price and volume of the update, the spread [ask - bid], and as
    timestamp the clock reading the update took.  The store never compares
    that reading with the timestamp it holds: after a later successful update
    of the symbol the timestamp read back is the later reading, so the two
    timestamps are ordered exactly as the two readings of the clock were. *)
Theorem read_returns_the_update
    (st : MarketDataStore) (symbol : string) (bid ask last : float)
    (vol now : Z) (st1 : MarketDataStore) :
  store_wf st ->
  updateMarketData hash symbol bid ask last vol now st = (true, st1) ->
  fst (getMarketData hash symbol st1)
  = Some (bid, ask, last, (ask - bid)%float, vol, now) /\
  forall (later : MarketDataStore) (bid2 ask2 last2 : float) (vol2 now2 : Z)
         (st2 : MarketDataStore),
    store_wf later ->
    updateMarketData hash symbol bid2 ask2 last2 vol2 now2 later = (true, st2) ->
    exists out1 out2,
      fst (getMarketData hash symbol st1) = Some out1 /\
      fst (getMarketData hash symbol st2) = Some out2 /\
      out2 = (bid2, ask2, last2, (ask2 - bid2)%float, vol2, now2) /\
      out_timestamp out1 = now /\
      out_timestamp out2 = now2 /\
      (out_timestamp out1 <= out_timestamp out2 <-> now <= now2).
Proof.
  intros Hwf Hu.
  pose proof (read_after_update _ _ _ _ _ _ _ _ Hwf Hu) as H1.
  split; [exact H1|].
  intros later bid2 ask2 last2 vol2 now2 st2 Hwf2 Hu2.
  pose proof (read_after_update _ _ _ _ _ _ _ _ Hwf2 Hu2) as H2.
  eexists _, _. split; [exact H1|]. split; [exact H2|].
  split; [reflexivity|]. split; [reflexivity|]. split; [reflexivity|].
  unfold out_timestamp. cbn [snd]. tauto.
Qed.
End MarketDataStoreFacts.

Definition store_after_first_update : MarketDataStore :=
  snd (updateMarketData sample_hash "AAPL" 1 2 1.5 100 1000 newMarketDataStore).

Lemma read_returns_the_update_witness :
  fst (getMarketData sample_hash "AAPL" store_after_first_update)
  = Some (1%float, 2%float, 1.5%float, 1%float, 100, 1000).
Proof.
  assert (Hu : updateMarketData sample_hash "AAPL" 1 2 1.5 100 1000 newMarketDataStore
               = (true, store_after_first_update)) by (vm_compute; reflexivity).
  exact (proj1 (read_returns_the_update sample_hash newMarketDataStore "AAPL"
                  1 2 1.5 100 1000 store_after_first_update new_store_wf Hu)).
Defined.

(** AAPL is updated at a clock reading of 1000, then at a reading of 999. *)
Definition store_after_earlier_reading : MarketDataStore :=
  snd (updateMarketData sample_hash "AAPL" 3 4 3.5 20 999 store_after_first_update).

(** C6 as stated fails where the clock does: [high_resolution_clock] need not
    be steady, and the store takes its reading as it comes.  Two successful
    updates of AAPL, the second at an earlier reading, are read back with
    timestamps 1000 and then 999. *)
Lemma timestamp_follows_the_clock_back :
  fst (updateMarketData sample_hash "AAPL" 1 2 1.5 100 1000 newMarketDataStore) = true /\
  fst (updateMarketData sample_hash "AAPL" 3 4 3.5 20 999 store_after_first_update)
  = true /\
  fst (getMarketData sample_hash "AAPL" store_after_first_update)
  = Some (1%float, 2%float, 1.5%float, 1%float, 100, 1000) /\
  fst (getMarketData sample_hash "AAPL" store_after_earlier_reading)
  = Some (3%float, 4%float, 3.5%float, 1%float, 20, 999) /\
  999 < 1000.
Proof.
  split; [vm_compute; reflexivity|].
  split; [vm_compute; reflexivity|].
  split; [vm_compute; reflexivity|].
  split; [vm_compute; reflexivity|].
  reflexivity.
Qed.

(** ** Interning *)

(** Every slot is some probe of a full sweep, whatever the bucket. *)
Lemma slot_cover (h : Z) (k : nat) :
  (k < Z.to_nat MAX_SYMBOLS)%nat ->
  exists j, 0 <= j < MAX_SYMBOLS /\ Z.to_nat ((h + j) mod MAX_SYMBOLS) = k.
Proof.
  intros Hk. exists ((Z.of_nat k - h) mod MAX_SYMBOLS).
  split; [apply Z.mod_pos_bound, MAX_SYMBOLS_pos|].
  rewrite Zplus_mod_idemp_r.
  replace (h + (Z.of_nat k - h)) with (Z.of_nat k) by lia.
  rewrite Z.mod_small by lia. apply Nat2Z.id.
Qed.

Lemma count_active_insert (l : list SymbolEntry.t) (idx : nat) (e e' : SymbolEntry.t) :
  l !! idx = Some e ->
  SymbolEntry.isActive e = false -> SymbolEntry.isActive e' = true ->
  count_active (<[idx := e']> l) = count_active l + 1.
Proof.
  unfold count_active. revert idx.
  induction l as [|a l IH]; intros [|idx] Hl He He'; simpl in *; try discriminate.
  - inversion Hl; subst. rewrite He, He'. simpl. lia.
  - specialize (IH idx Hl He He').
    destruct (SymbolEntry.isActive a); simpl; lia.
Qed.

Lemma count_active_bound (l : list SymbolEntry.t) :
  0 <= count_active l <= Z.of_nat (length l).
Proof.
  unfold count_active. induction l as [|a l IH]; simpl; [lia|].
  destruct (SymbolEntry.isActive a); simpl; lia.
Qed.

Lemma count_active_free (l : list SymbolEntry.t) (idx : nat) (e : SymbolEntry.t) :
  l !! idx = Some e -> SymbolEntry.isActive e = false ->
  count_active l < Z.of_nat (length l).
Proof.
  revert idx. induction l as [|a l IH]; intros [|idx] Hl He; simpl in *;
    try discriminate.
  - inversion Hl; subst. pose proof (count_active_bound l) as Hb.
    unfold count_active in *. simpl. rewrite He. lia.
  - specialize (IH idx Hl He). unfold count_active in *. simpl.
    destruct (SymbolEntry.isActive a); simpl; lia.
Qed.

(** The three ways the loop of [getOrCreateIndex] ends; [swept] is what is
    known of the slots probed when it falls through. *)
Inductive intern_outcome (swept : Prop) (symbol : string) (s : SymbolIndex)
    (r : Z) (s' : SymbolIndex) : Prop :=
| intern_claimed (idx : nat) :
    (idx < Z.to_nat MAX_SYMBOLS)%nat ->
    SymbolEntry.isActive (symbolTable_ s !!! idx) = false ->
    r = nextIndex_ s ->
    s' = {| symbolTable_ :=
              <[idx := SymbolEntry.mk (stored_key symbol) (nextIndex_ s) true]>
                (symbolTable_ s);
            nextIndex_ := uint32_wrap (nextIndex_ s + 1) |} ->
    intern_outcome swept symbol s r s'
| intern_found (idx : nat) :
    (idx < Z.to_nat MAX_SYMBOLS)%nat ->
    holds_symbol (symbolTable_ s !!! idx) symbol = true ->
    r = SymbolEntry.index (symbolTable_ s !!! idx) ->
    s' = s ->
    intern_outcome swept symbol s r s'
| intern_full :
    r = UINT32_MAX ->
    s' = s ->
    swept ->
    intern_outcome swept symbol s r s'.

Lemma intern_outcome_weaken (P Q : Prop) symbol s r s' :
  (P -> Q) -> intern_outcome P symbol s r s' -> intern_outcome Q symbol s r s'.
Proof.
  intros HPQ [idx H1 H2 H3 H4|idx H1 H2 H3 H4|H1 H2 H3].
  - eapply intern_claimed; eassumption.
  - eapply intern_found; eassumption.
  - apply intern_full; auto.
Qed.

Section InternFacts.
Variable hash : string -> N.

Lemma getOrCreateIndex_loop_outcome n i h symbol s r s' :
  getOrCreateIndex_loop n i h symbol s = (r, s') ->
  intern_outcome
    (forall j, i <= j < i + Z.of_nat n ->
       SymbolEntry.isActive
         (symbolTable_ s !!! Z.to_nat ((h + j) mod MAX_SYMBOLS)) = true)
    symbol s r s'.
Proof.
  revert i. induction n as [|n IH]; intros i; cbn [getOrCreateIndex_loop].
  - intros H. inversion H; subst. apply intern_full; try reflexivity.
    intros j Hj. lia.
  - destruct (SymbolEntry.isActive
                (symbolTable_ s !!! Z.to_nat ((h + i) mod MAX_SYMBOLS))) eqn:Ea;
      cbn [negb].
    + destruct (key_matches (symbolTable_ s !!! _) symbol) eqn:Ek.
      * intros H. inversion H; subst.
        eapply intern_found; [apply slot_in_range| |reflexivity|reflexivity].
        unfold holds_symbol. rewrite Ea, Ek. reflexivity.
      * intros H. eapply intern_outcome_weaken; [|exact (IH _ H)].
        intros Hall j Hj.
        destruct (Z.eq_dec j i) as [->|Hne]; [exact Ea|].
        apply Hall. lia.
    + intros H. inversion H; subst.
      eapply intern_claimed; [apply slot_in_range|exact Ea|reflexivity|reflexivity].
Qed.

(** With a free slot in the table, a full sweep does not fall through. *)
Lemma getOrCreateIndex_outcome symbol s r s' :
  getOrCreateIndex hash symbol s = (r, s') ->
  intern_outcome
    (forall k, (k < Z.to_nat MAX_SYMBOLS)%nat ->
               SymbolEntry.isActive (symbolTable_ s !!! k) = true)
    symbol s r s'.
Proof.
  unfold getOrCreateIndex. intros H.
  eapply intern_outcome_weaken; [|exact (getOrCreateIndex_loop_outcome _ _ _ _ _ _ _ H)].
  intros Hall k Hk.
  destruct (slot_cover (bucket hash symbol) k Hk) as (j & Hj & <-).
  apply Hall. rewrite Z2Nat.id by (unfold MAX_SYMBOLS; lia). lia.
Qed.




(** Interning a symbol no slot holds claims a slot, or finds the table
    full. *)
Lemma getOrCreateIndex_unknown symbol s r s' :
  length (symbolTable_ s) = Z.to_nat MAX_SYMBOLS ->
  unknown_symbol symbol s ->
  getOrCreateIndex hash symbol s = (r, s') ->
  r < MAX_SYMBOLS ->
  exists idx,
    (idx < Z.to_nat MAX_SYMBOLS)%nat /\
    SymbolEntry.isActive (symbolTable_ s !!! idx) = false /\
    r = nextIndex_ s /\
    symbolTable_ s' =
      <[idx := SymbolEntry.mk (stored_key symbol) r true]> (symbolTable_ s).
Proof.
  intros Hlen Hun H Hr.
  destruct (getOrCreateIndex_outcome _ _ _ _ H)
    as [idx Hlt Hina -> ->|idx Hlt Hh _ _| -> _ _].
  - exists idx. repeat split; assumption.
  - exfalso. unfold unknown_symbol in Hun.
    pose proof (Forall_lookup_total_1 _ _ idx Hun) as Hf. cbv beta in Hf.
    rewrite Hf in Hh by (rewrite Hlen; exact Hlt). discriminate.
  - vm_compute in Hr. discriminate.
Qed.
End InternFacts.

Lemma strncpy_take (x : string) (n : nat) :
  strncpy (string_take n x) n = strncpy x n.
Proof.
  revert x. induction n as [|n IH]; intros x; [reflexivity|].
  cbn [strncpy]. rewrite peek_take, advance_take, IH. reflexivity.
Qed.

Lemma c_str_take (s : string) (n : nat) :
  c_str (string_take n (c_str s)) = string_take n (c_str s).
Proof.
  revert n. induction s as [|c s IH]; intros n; cbn [c_str].
  - destruct n; reflexivity.
  - destruct (Ascii.eqb c NUL) eqn:E; [destruct n; reflexivity|].
    destruct n; [reflexivity|]. cbn [string_take c_str]. rewrite E, IH.
    reflexivity.
Qed.

(** The key written for a symbol is the key of its first seven bytes. *)
Lemma stored_key_first7 (symbol : string) :
  stored_key symbol = stored_key (first7 symbol).
Proof.
  unfold stored_key, first7. rewrite c_str_take, strncpy_take. reflexivity.
Qed.

Lemma new_index_wf : index_wf newSymbolIndex.
Proof.
  unfold index_wf, newSymbolIndex. cbn [symbolTable_ nextIndex_].
  split; [apply length_replicate|]. split.
  - unfold count_active.
    induction (Z.to_nat MAX_SYMBOLS) as [|n IH]; [reflexivity|exact IH].
  - apply Forall_replicate. discriminate.
Qed.

Lemma new_index_unknown (symbol : string) : unknown_symbol symbol newSymbolIndex.
Proof. apply Forall_replicate. reflexivity. Qed.

Lemma new_index_free :
  exists k, (k < Z.to_nat MAX_SYMBOLS)%nat /\
            SymbolEntry.isActive (symbolTable_ newSymbolIndex !!! k) = false.
Proof. exists O. split; [vm_compute; lia|reflexivity]. Qed.

Section InterningTheorems.
Variable hash : string -> N.

Lemma getOrCreateIndex_wf symbol s r s' :
  index_wf s ->
  getOrCreateIndex hash symbol s = (r, s') ->
  index_wf s' /\ (r = UINT32_MAX \/ 0 <= r < MAX_SYMBOLS).
Proof.
  intros (Hlen & Hnext & Hall) H.
  destruct (getOrCreateIndex_outcome hash _ _ _ _ H)
    as [idx Hlt Hina -> ->|idx Hlt Hh -> ->| -> -> _].
  - assert (Hl : symbolTable_ s !! idx = Some (symbolTable_ s !!! idx))
      by (apply list_lookup_lookup_total_lt; rewrite Hlen; exact Hlt).
    pose proof (count_active_free _ _ _ Hl Hina) as Hfree.
    pose proof (count_active_bound (symbolTable_ s)) as Hb.
    assert (Hw : uint32_wrap (nextIndex_ s + 1) = nextIndex_ s + 1).
    { unfold uint32_wrap. apply Z.mod_small. unfold MAX_SYMBOLS in *. lia. }
    split; [|right; unfold MAX_SYMBOLS in *; lia].
    unfold index_wf. cbn [symbolTable_ nextIndex_]. rewrite Hw.
    split; [rewrite length_insert; exact Hlen|]. split.
    + rewrite (count_active_insert _ idx _
                 (SymbolEntry.mk (stored_key symbol) (nextIndex_ s) true)
                 Hl Hina eq_refl). lia.
    + apply Forall_insert.
      * eapply Forall_impl; [exact Hall|]. cbv beta. intros e He Ha.
        specialize (He Ha). lia.
      * cbn. intros _. lia.
  - split; [repeat split; assumption|]. right.
    unfold holds_symbol in Hh. apply andb_true_iff in Hh. destruct Hh as [Ha _].
    pose proof (Forall_lookup_total_1 _ _ idx Hall) as Hf. cbv beta in Hf.
    specialize (Hf ltac:(rewrite Hlen; exact Hlt) Ha).
    pose proof (count_active_bound (symbolTable_ s)) as Hb. lia.
  - split; [repeat split; assumption|]. left. reflexivity.
Qed.

(** C7, as the code has it.  [getOrCreateIndex] does not look at the length
    of the symbol.  For every symbol, one longer than 8 bytes included, and
    every index with a free slot, it returns a valid id below [MAX_SYMBOLS],
    never [UINT32_MAX], and a lookup of the symbol then returns that id.  The
    key written for a symbol no slot held is the key of its first seven
    bytes: the symbol is stored truncated. *)
Theorem interning_has_no_length_check (symbol : string) (s : SymbolIndex)
    (r : Z) (s' : SymbolIndex) :
  index_wf s ->
  (exists k, (k < Z.to_nat MAX_SYMBOLS)%nat /\
             SymbolEntry.isActive (symbolTable_ s !!! k) = false) ->
  getOrCreateIndex hash symbol s = (r, s') ->
  0 <= r < MAX_SYMBOLS /\ r <> UINT32_MAX /\
  index_wf s' /\
  getIndex hash symbol s' = r /\
  (unknown_symbol symbol s ->
   exists idx, (idx < Z.to_nat MAX_SYMBOLS)%nat /\
     symbolTable_ s' !!! idx = SymbolEntry.mk (stored_key (first7 symbol)) r true).
Proof.
  intros Hwf (k & Hk & Hfree) H.
  destruct (getOrCreateIndex_wf _ _ _ _ Hwf H) as [Hwf' Hr].
  assert (Hrange : 0 <= r < MAX_SYMBOLS).
  { destruct Hr as [->|Hr]; [|exact Hr]. exfalso.
    destruct (getOrCreateIndex_outcome hash _ _ _ _ H)
      as [idx Hlt Hina Hnext _|idx Hlt Hh Hidx _|_ _ Hswept].
    - destruct Hwf as (Hlen & Hn & _).
      pose proof (count_active_bound (symbolTable_ s)) as Hb.
      rewrite Hlen in Hb. unfold UINT32_MAX, MAX_SYMBOLS in *. lia.
    - destruct Hwf as (Hlen & Hn & Hall).
      unfold holds_symbol in Hh. apply andb_true_iff in Hh. destruct Hh as [Ha _].
      pose proof (Forall_lookup_total_1 _ _ idx Hall) as Hf. cbv beta in Hf.
      specialize (Hf ltac:(rewrite Hlen; exact Hlt) Ha).
      pose proof (count_active_bound (symbolTable_ s)) as Hb.
      rewrite Hlen in Hb. unfold UINT32_MAX, MAX_SYMBOLS in *. lia.
    - rewrite (Hswept k Hk) in Hfree. discriminate. }
  destruct Hwf as (Hlen & Hn & Hall).
  split; [exact Hrange|]. split; [unfold UINT32_MAX, MAX_SYMBOLS in *; lia|].
  split; [exact Hwf'|]. split.
  - apply (getIndex_after_getOrCreateIndex hash _ _ _ _ Hlen H). lia.
  - intros Hun.
    destruct (getOrCreateIndex_unknown hash _ _ _ _ Hlen Hun H ltac:(lia))
      as (idx & Hlt & _ & _ & Et).
    exists idx. split; [exact Hlt|].
    rewrite Et, list_lookup_total_insert_eq by (rewrite Hlen; exact Hlt).
    rewrite <- stored_key_first7. reflexivity.
Qed.
End InterningTheorems.

Definition long_symbol : string := "ABCDEFGHIJ".

Lemma interning_has_no_length_check_witness :
  (8 < String.length long_symbol)%nat /\
  fst (getOrCreateIndex sample_hash long_symbol newSymbolIndex) <> UINT32_MAX /\
  getIndex sample_hash long_symbol
    (snd (getOrCreateIndex sample_hash long_symbol newSymbolIndex))
  = fst (getOrCreateIndex sample_hash long_symbol newSymbolIndex).
Proof.
  split; [vm_compute; lia|].
  destruct (interning_has_no_length_check sample_hash long_symbol newSymbolIndex
              (fst (getOrCreateIndex sample_hash long_symbol newSymbolIndex))
              (snd (getOrCreateIndex sample_hash long_symbol newSymbolIndex))
              new_index_wf new_index_free
              (surjective_pairing _))
    as (_ & H1 & _ & H2 & _).
  split; assumption.
Defined.

(** C7 as stated fails: the ten-byte symbol ABCDEFGHIJ is interned with id 0
    under the key ABCDEFG, and a lookup of ABCDEFG then finds it. *)
Lemma long_symbol_is_truncated :
  (8 < String.length long_symbol)%nat /\
  fst (getOrCreateIndex sample_hash long_symbol newSymbolIndex) = 0 /\
  0 <> UINT32_MAX /\
  SymbolEntry.symbol
    (symbolTable_ (snd (getOrCreateIndex sample_hash long_symbol newSymbolIndex))
       !!! Z.to_nat (bucket sample_hash long_symbol))
  = String.append "ABCDEFG" (String NUL EmptyString) /\
  getIndex sample_hash "ABCDEFG"
    (snd (getOrCreateIndex sample_hash long_symbol newSymbolIndex)) = 0.
Proof.
  split; [vm_compute; lia|].
  split; [vm_compute; reflexivity|].
  split; [discriminate|].
  split; vm_compute; reflexivity.
Qed.

(** ** Symbols that share their first seven bytes *)

(** ** Later states of the index *)

(** The later index keeps the size of the table and every claimed slot of
    the earlier one. *)
Definition index_extends (s s' : SymbolIndex) : Prop :=
  length (symbolTable_ s') = length (symbolTable_ s) /\
  forall k, SymbolEntry.isActive (symbolTable_ s !!! k) = true ->
            symbolTable_ s' !!! k = symbolTable_ s !!! k.

Lemma index_extends_refl (s : SymbolIndex) : index_extends s s.
Proof. split; [reflexivity|]. intros. reflexivity. Qed.

Lemma index_extends_trans (s1 s2 s3 : SymbolIndex) :
  index_extends s1 s2 -> index_extends s2 s3 -> index_extends s1 s3.
Proof.
  intros [L1 F1] [L2 F2]. split; [congruence|].
  intros k Hk. rewrite <- (F1 k Hk). apply F2. rewrite (F1 k Hk). exact Hk.
Qed.

Section IndexExtension.
Variable hash : string -> N.

Lemma getOrCreateIndex_extends symbol s r s' :
  getOrCreateIndex hash symbol s = (r, s') -> index_extends s s'.
Proof.
  unfold getOrCreateIndex. intros H.
  exact (getOrCreateIndex_loop_frame _ _ _ _ _ _ _ H).
Qed.

Lemma loops_stable n i h symbol s r s1 s2 :
  length (symbolTable_ s) = Z.to_nat MAX_SYMBOLS ->
  getOrCreateIndex_loop n i h symbol s = (r, s1) ->
  r < MAX_SYMBOLS ->
  index_extends s1 s2 ->
  getOrCreateIndex_loop n i h symbol s2 = (r, s2) /\
  getIndex_loop n i h symbol s2 = r.
Proof.
  intros Hlen. revert i.
  induction n as [|n IH]; intros i; cbn [getOrCreateIndex_loop getIndex_loop].
  - intros H Hr. inversion H; subst. vm_compute in Hr. discriminate.
  - destruct (SymbolEntry.isActive
                (symbolTable_ s !!! Z.to_nat ((h + i) mod MAX_SYMBOLS))) eqn:Ea;
      cbn [negb].
    + destruct (key_matches (symbolTable_ s !!! _) symbol) eqn:Ek.
      * intros H _ [_ Hext]. inversion H; subst.
        rewrite (Hext _ Ea), Ea, Ek. split; reflexivity.
      * intros H Hr [Hl Hext].
        destruct (getOrCreateIndex_loop_frame _ _ _ _ _ _ _ H) as [_ Hsame].
        assert (E : symbolTable_ s2 !!! Z.to_nat ((h + i) mod MAX_SYMBOLS)
                    = symbolTable_ s !!! Z.to_nat ((h + i) mod MAX_SYMBOLS)).
        { rewrite <- (Hsame _ Ea). apply Hext. rewrite (Hsame _ Ea). exact Ea. }
        rewrite E, Ea, Ek. cbn [negb andb].
        apply IH; try assumption. split; assumption.
    + intros H _ [_ Hext]. inversion H; subst. cbn [symbolTable_] in Hext.
      assert (E : symbolTable_ s2 !!! Z.to_nat ((h + i) mod MAX_SYMBOLS)
                  = SymbolEntry.mk (stored_key symbol) (nextIndex_ s) true).
      { rewrite <- (list_lookup_total_insert_eq (symbolTable_ s)
                      (Z.to_nat ((h + i) mod MAX_SYMBOLS))
                      (SymbolEntry.mk (stored_key symbol) (nextIndex_ s) true))
          by (rewrite Hlen; apply slot_in_range).
        apply Hext.
        rewrite list_lookup_total_insert_eq by (rewrite Hlen; apply slot_in_range).
        reflexivity. }
      rewrite E. cbn [SymbolEntry.isActive SymbolEntry.index negb andb].
      rewrite stored_key_matches. split; reflexivity.
Qed.

End IndexExtension.


Section PrefixTwins.
Variable hash : string -> N.



End PrefixTwins.





(** ** The quote decoder *)

(** A key, a colon and a value, and the vendor envelope around five such
    members. *)
Definition member (key value : string) : string :=
  String.append (quoted key) (String.append ":" value).

Definition envelope (open high low price volume : string) : string :=
  String.concat ""
    ["{"; quoted "Global Quote"; ":{";
     member "02. open" open; ",";
     member "03. high" high; ",";
     member "04. low" low; ",";
     member "05. price" price; ",";
     member "06. volume" volume; "}}"].

(** The envelope of the specification's scenario, every value a quoted
    numeric string, and the same envelope with bare numbers. *)
Definition quoted_envelope : string :=
  envelope (quoted "1") (quoted "2") (quoted "0.5") (quoted "1.5") (quoted "100").

Definition bare_envelope : string :=
  envelope "1" "2" "0.5" "1.5" "100".

Lemma stod_empty : stod EmptyString = Throw (invalid_argument "stod").
Proof. reflexivity. Qed.

(** A value that opens with a double quote ends the scan before it has
    begun: the text handed to [std::stod] is empty, whatever follows. *)
Lemma extractDouble_quoted_value (json key keyPos colonPos rest : string) :
  strstr json (quoted key) = Some keyPos ->
  strchr keyPos ":" = Some colonPos ->
  skip_ws (advance colonPos) = String dquote rest ->
  value_text json key = Ok EmptyString /\
  extractDouble json key = Throw (invalid_argument "stod").
Proof.
  intros Hk Hc Hv. unfold extractDouble, value_text.
  rewrite Hk, Hc, Hv. cbn [scan_value].
  replace (Ascii.eqb dquote NUL || Ascii.eqb dquote "," || Ascii.eqb dquote "}"
           || Ascii.eqb dquote "]" || Ascii.eqb dquote dquote) with true
    by reflexivity.
  split; reflexivity.
Qed.

(** Whatever the five values are, quoting them makes the first
    [extractDouble] raise. *)
Lemma parse_try_quoted_values (o h l p v : string) (stamp : Z) (data : MarketData.t) :
  parse_try (envelope (quoted o) (quoted h) (quoted l) (quoted p) (quoted v))
    stamp data
  = (data, Some (invalid_argument "stod")).
Proof. vm_compute. reflexivity. Qed.

(** C8 fails on the code.  For every envelope whose five values are quoted
    strings, and so for the envelope of the scenario, [extractDouble] raises
    [invalid_argument] at the first field: [parseAlphaVantage] and
    [parseAlphaVantageSafe] return a result that is not valid, with
    [bestBid], [bestAsk] and [lastPrice] left at [0.0], and count a failed
    parse. *)
Theorem quoted_envelope_is_rejected (symbol : string) (clk : ParseClock)
    (parser : FastJsonParser) :
  (forall o h l p v : string,
     let json := envelope (quoted o) (quoted h) (quoted l) (quoted p) (quoted v) in
     MarketData.isValid (fst (parseAlphaVantage symbol json clk parser)) = false /\
     MarketData.isValid (fst (parseAlphaVantageSafe symbol json clk parser)) = false) /\
  let data := fst (parseAlphaVantage symbol quoted_envelope clk parser) in
  let safe := fst (parseAlphaVantageSafe symbol quoted_envelope clk parser) in
  extractDouble (c_str quoted_envelope) "02. open" = Throw (invalid_argument "stod") /\
  MarketData.isValid data = false /\
  MarketData.bestBid data = 0%float /\
  MarketData.bestAsk data = 0%float /\
  MarketData.lastPrice data = 0%float /\
  failedParses_ (snd (parseAlphaVantage symbol quoted_envelope clk parser))
  = uint64_wrap (failedParses_ parser + 1) /\
  safe = data /\
  MarketData.isValid safe = false.
Proof.
  split.
  - intros o h l p v. cbv zeta.
    unfold parseAlphaVantageSafe, parseAlphaVantage.
    rewrite parse_try_quoted_values. split; reflexivity.
  - cbv zeta. unfold parseAlphaVantageSafe, parseAlphaVantage, quoted_envelope.
    rewrite parse_try_quoted_values.
    cbn [fst snd set_isValid MarketData.isValid MarketData.bestBid
         MarketData.bestAsk MarketData.lastPrice failedParses_ andb].
    split; [vm_compute; reflexivity|].
    repeat split.
Qed.

(** The same envelope with bare numbers is decoded to the values the
    scenario expects. *)
Lemma bare_envelope_is_decoded (symbol : string) (clk : ParseClock)
    (p : FastJsonParser) :
  fst (parseAlphaVantage symbol bare_envelope clk p)
  = MarketData.mk symbol 0.5 2 1.5 1 2 0.5 100 (t_stamp clk) true.
Proof.
  unfold parseAlphaVantage.
  replace (parse_try bare_envelope (t_stamp clk)
             (MarketData.mk symbol 0 0 0 0 0 0 0 0 false))
    with (MarketData.mk symbol 0.5 2 1.5 1 2 0.5 100 (t_stamp clk) true,
          @None exn)
    by (vm_compute; reflexivity).
  reflexivity.
Qed.

(** * Further properties of the order book *)

(** One call of the book's interface that returns, whatever is added. *)
Inductive book_call : OrderBook -> OrderBook -> Prop :=
| call_add order b :
    book_call b (snd (addOrder order b))
| call_remove orderId b :
    book_call b (snd (removeOrder orderId b))
| call_update order b r :
    updateOrder order b = Some r ->
    book_call b (snd r)
| call_match order clk b r :
    matchOrder order clk b = Some r ->
    book_call b (snd r).

(** The books any sequence of calls builds from a new book. *)
Inductive book_built : OrderBook -> Prop :=
| built_new symbol : book_built (newOrderBook symbol)
| built_call b b' : book_built b -> book_call b b' -> book_built b'.

(** The orders resting on a side, level by level. *)
Definition resting (m : PriceMap) : list OrderPtr :=
  List.concat (List.map snd m).

(** The only result [updateOrder] has. *)
Lemma updateOrder_result (order : OrderPtr) (b : OrderBook)
    (r : bool * OrderBook) :
  updateOrder order b = Some r -> r = (false, b).
Proof.
  unfold updateOrder.
  destruct (orders_ b !! Order.orderId (obj order)) as [old|];
    cbn; intros H; inversion H; reflexivity.
Qed.

(** X1.  [updateOrder] never updates.  Every call returns [false] and leaves
    the book exactly as it was: for an id the book does not hold it returns
    at once, and for an id the book holds the old order stays in the id map
    and on its side, since the [removeOrder] it calls locks the mutex that
    [updateOrder] holds and the exception this raises ends in the handler of
    [updateOrder]; [addOrder] is never reached. *)
Theorem updateOrder_never_updates (order : OrderPtr) (b : OrderBook) :
  updateOrder order b = Some (false, b) /\
  forall (oldOrder : OrderPtr) (r : bool * OrderBook),
    orders_ b !! Order.orderId (obj order) = Some oldOrder ->
    updateOrder order b = Some r ->
    fst r = false /\
    orders_ (snd r) !! Order.orderId (obj order) = Some oldOrder /\
    buyOrders_ (snd r) = buyOrders_ b /\
    sellOrders_ (snd r) = sellOrders_ b.
Proof.
  assert (H : updateOrder order b = Some (false, b)).
  { unfold updateOrder.
    destruct (orders_ b !! Order.orderId (obj order)) as [old|]; reflexivity. }
  split; [exact H|].
  intros oldOrder r Hold Hr. rewrite H in Hr. inversion Hr; subst r.
  cbn [fst snd]. repeat split. exact Hold.
Qed.

(** SELL 10@20 of [two_asks] sent again at 19: the resting order keeps its
    price. *)
Definition sell_10_at_19_again : OrderPtr := sample_order "s1" "SELL" 10 19 9.

Lemma updateOrder_never_updates_witness :
  orders_ two_asks !! Order.orderId (obj sell_10_at_19_again) = Some sell_10_at_20 /\
  updateOrder sell_10_at_19_again two_asks = Some (false, two_asks).
Proof.
  split; [vm_compute; reflexivity|].
  exact (proj1 (updateOrder_never_updates sell_10_at_19_again two_asks)).
Defined.

Lemma book_call_levels (b b' : OrderBook) :
  book_call b b' ->
  book_sorted b /\ book_levels_nonempty b ->
  book_sorted b' /\ book_levels_nonempty b'.
Proof.
  intros Hc [[Hsb Hss] Hne].
  destruct Hc as [order b|orderId b|order b r Hu|order clk b r Hm].
  - split; [|apply addOrder_levels_nonempty; exact Hne].
    destruct (side_cases order) as [H|[H|[H1 H2]]].
    + rewrite (addOrder_buy _ _ H). split; [|exact Hss].
      apply push_back_sorted; [exact gt_trans|exact Hsb].
    + rewrite (addOrder_sell _ _ H). split; [exact Hsb|].
      apply push_back_sorted; [exact lt_trans|exact Hss].
    + rewrite (addOrder_other _ _ H1 H2). split; assumption.
  - split; [|apply removeOrder_levels_nonempty; exact Hne].
    unfold removeOrder.
    destruct (orders_ b !! orderId) as [order|]; [|split; assumption].
    destruct (String.eqb (Order.side (obj order)) "BUY");
      [|destruct (String.eqb (Order.side (obj order)) "SELL")];
      split; cbn [snd buyOrders_ sellOrders_]; try assumption;
      apply remove_order_sorted; assumption.
  - apply updateOrder_result in Hu. subst r.
    repeat split; try assumption; apply Hne.
  - destruct r as [trades b'].
    destruct (matchOrder_frame _ _ _ _ _ Hm) as (H1 & H2 & _).
    unfold book_sorted, book_levels_nonempty. cbn [snd]. rewrite H1, H2.
    repeat split; try assumption; apply Hne.
Qed.

Lemma built_book_levels (b : OrderBook) :
  book_built b -> book_sorted b /\ book_levels_nonempty b.
Proof.
  induction 1 as [symbol|b b' _ IH Hc].
  - destruct (new_book_invariant symbol) as (H1 & H2 & _). split; assumption.
  - eapply book_call_levels; eassumption.
Qed.

Lemma sorted_best_first (comp : float -> float -> bool) (m : PriceMap)
    (best : float) (l : Level) :
  keys_sorted comp m -> best_price m = Some best -> In l m ->
  fst l = best \/ comp best (fst l) = true.
Proof.
  unfold keys_sorted. intros Hs Hb Hin.
  destruct Hs as [|[k v] m Hs Hall]; [discriminate|].
  cbn in Hb. inversion Hb; subst.
  destruct Hin as [<-|Hin]; [left; reflexivity|].
  right. rewrite Forall_forall in Hall. apply Hall.
  apply list_elem_of_In. exact Hin.
Qed.

(** X2.  Price priority.  In every book built through the interface each side is
    in the strict order of its comparator and holds no empty level: the first
    bid level is the highest and the first ask level the lowest. *)
Theorem best_level_comes_first (b : OrderBook) :
  book_built b ->
  book_levels_nonempty b /\
  (forall best l, best_price (buyOrders_ b) = Some best -> In l (buyOrders_ b) ->
                  fst l = best \/ Double.lt (fst l) best = true) /\
  (forall best l, best_price (sellOrders_ b) = Some best -> In l (sellOrders_ b) ->
                  fst l = best \/ Double.lt best (fst l) = true).
Proof.
  intros Hb. destruct (built_book_levels b Hb) as [[Hsb Hss] Hne].
  split; [exact Hne|]. split; intros best l Hbest Hin.
  - exact (sorted_best_first Double.gt _ _ _ Hsb Hbest Hin).
  - exact (sorted_best_first Double.lt _ _ _ Hss Hbest Hin).
Qed.

Lemma two_asks_built : book_built two_asks.
Proof.
  unfold two_asks.
  apply (built_call (snd (addOrder sell_10_at_20 (newOrderBook "SYM")))).
  - apply (built_call (newOrderBook "SYM")); [apply built_new|apply call_add].
  - apply call_add.
Qed.

Lemma best_level_comes_first_witness :
  Double.lt 20 21 = true.
Proof.
  destruct (best_level_comes_first two_asks two_asks_built) as (_ & _ & Hask).
  destruct (Hask 20%float (21%float, [sell_5_at_21]) eq_refl) as [E|E].
  - right. left. reflexivity.
  - vm_compute in E. discriminate E.
  - exact E.
Defined.

(** X3.  In every book built through the interface, [matchOrder] returns: it
    never indexes an empty level. *)
Theorem matchOrder_returns_on_built_book (order : OrderPtr) (clk : Clock)
    (b : OrderBook) :
  book_built b ->
  exists trades b', matchOrder order clk b = Some (trades, b') /\
                    (length trades <= 1)%nat /\ book_built b'.
Proof.
  intros Hb. destruct (built_book_levels b Hb) as [_ Hne].
  pose proof (matchOrder_cases order clk b Hne) as Hc.
  assert (Hex : exists trades b', matchOrder order clk b = Some (trades, b') /\
                                  (length trades <= 1)%nat).
  { destruct (opposing order b) as [|[p [|maker level]] rest].
    - exists [], b. split; [exact Hc|cbn; lia].
    - exists [], b. split; [exact Hc|cbn; lia].
    - destruct (crosses order p).
      + eexists _, _. split; [exact Hc|cbn; lia].
      + exists [], b. split; [exact Hc|cbn; lia]. }
  destruct Hex as (trades & b' & Hm & Hlen).
  exists trades, b'. repeat split; try assumption.
  exact (built_call b _ Hb (call_match order clk b (trades, b') Hm)).
Qed.

Lemma matchOrder_returns_on_built_book_witness :
  exists trades b', matchOrder buy_12_at_25 sample_clock two_asks = Some (trades, b').
Proof.
  destruct (matchOrder_returns_on_built_book buy_12_at_25 sample_clock two_asks
              two_asks_built) as (trades & b' & H & _).
  exists trades, b'. exact H.
Defined.

(** The cached best ask is never positive and the cached best bid never
    goes down. *)
Lemma min_not_positive (a p : float) :
  Double.gt a Double.zero = false ->
  Double.gt (Double.min a p) Double.zero = false.
Proof.
  intros Ha. unfold Double.min. destruct (Double.lt p a) eqn:E; [|exact Ha].
  apply not_true_is_false. intros Hp.
  change (Double.lt Double.zero a = false) in Ha.
  change (Double.lt Double.zero p = true) in Hp.
  rewrite (lt_trans _ _ _ Hp E) in Ha. discriminate.
Qed.

Lemma book_call_best_ask (b b' : OrderBook) :
  book_call b b' ->
  Double.gt (bestAsk_ b) Double.zero = false ->
  Double.gt (bestAsk_ b') Double.zero = false.
Proof.
  intros Hc Ha. destruct Hc as [order b|orderId b|order b r Hu|order clk b r Hm].
  - destruct (side_cases order) as [H|[H|[H1 H2]]].
    + rewrite (addOrder_buy _ _ H). exact Ha.
    + rewrite (addOrder_sell _ _ H). cbn [snd bestAsk_].
      apply min_not_positive. exact Ha.
    + rewrite (addOrder_other _ _ H1 H2). exact Ha.
  - unfold removeOrder. destruct (orders_ b !! orderId) as [order|]; [|exact Ha].
    destruct (String.eqb (Order.side (obj order)) "BUY");
      [|destruct (String.eqb (Order.side (obj order)) "SELL")]; exact Ha.
  - apply updateOrder_result in Hu. subst r. exact Ha.
  - destruct r as [trades b'].
    destruct (matchOrder_frame _ _ _ _ _ Hm) as (_ & _ & _ & _ & _ & _ & E).
    cbn [snd]. rewrite E. exact Ha.
Qed.

(** X4.  [getSpread] returns [0.0] in every book built through the interface:
    the cached best ask starts at [0.0] and [std::min] never lets it rise
    above that. *)
Theorem spread_is_zero_on_built_book (b : OrderBook) :
  book_built b ->
  Double.gt (getBestAsk b) Double.zero = false /\
  getSpread b = Double.zero.
Proof.
  intros Hb.
  assert (Ha : Double.gt (bestAsk_ b) Double.zero = false).
  { induction Hb as [symbol|b b' _ IH Hc].
    - apply gt_irrefl.
    - eapply book_call_best_ask; eassumption. }
  split; [exact Ha|]. unfold getSpread. rewrite Ha, andb_false_r. reflexivity.
Qed.

Lemma bid_10_ask_20_built : book_built bid_10_ask_20.
Proof.
  unfold bid_10_ask_20.
  apply (built_call (snd (addOrder buy_100_at_10 (newOrderBook "SYM")))).
  - apply (built_call (newOrderBook "SYM")); [apply built_new|apply call_add].
  - apply call_add.
Qed.

Lemma spread_is_zero_on_built_book_witness :
  best_price (buyOrders_ bid_10_ask_20) = Some 10%float /\
  best_price (sellOrders_ bid_10_ask_20) = Some 20%float /\
  getSpread bid_10_ask_20 = Double.zero.
Proof.
  split; [reflexivity|]. split; [reflexivity|].
  exact (proj2 (spread_is_zero_on_built_book bid_10_ask_20 bid_10_ask_20_built)).
Defined.

(** [removeOrder] of a known id, by the side of the order found. *)
Lemma removeOrder_buy (orderId : string) (order : OrderPtr) (b : OrderBook) :
  orders_ b !! orderId = Some order ->
  Order.side (obj order) = "BUY" ->
  removeOrder orderId b =
  (true,
   {| symbol_ := symbol_ b;
      buyOrders_ := map_remove_order Double.gt (Order.price (obj order)) order (buyOrders_ b);
      sellOrders_ := sellOrders_ b;
      totalOrders_ := size_t_wrap (totalOrders_ b - 1);
      totalVolume_ := size_t_wrap (totalVolume_ b - Order.quantity (obj order));
      lastTradePrice_ := lastTradePrice_ b;
      orders_ := delete orderId (orders_ b);
      lastPrice_ := lastPrice_ b;
      bestBid_ := bestBid_ b; bestAsk_ := bestAsk_ b |}).
Proof. intros H Hs. unfold removeOrder. rewrite H, Hs. reflexivity. Qed.

Lemma removeOrder_sell (orderId : string) (order : OrderPtr) (b : OrderBook) :
  orders_ b !! orderId = Some order ->
  Order.side (obj order) = "SELL" ->
  removeOrder orderId b =
  (true,
   {| symbol_ := symbol_ b;
      buyOrders_ := buyOrders_ b;
      sellOrders_ := map_remove_order Double.lt (Order.price (obj order)) order (sellOrders_ b);
      totalOrders_ := size_t_wrap (totalOrders_ b - 1);
      totalVolume_ := size_t_wrap (totalVolume_ b - Order.quantity (obj order));
      lastTradePrice_ := lastTradePrice_ b;
      orders_ := delete orderId (orders_ b);
      lastPrice_ := lastPrice_ b;
      bestBid_ := bestBid_ b; bestAsk_ := bestAsk_ b |}).
Proof. intros H Hs. unfold removeOrder. rewrite H, Hs. reflexivity. Qed.

Lemma removeOrder_other (orderId : string) (order : OrderPtr) (b : OrderBook) :
  orders_ b !! orderId = Some order ->
  String.eqb (Order.side (obj order)) "BUY" = false ->
  String.eqb (Order.side (obj order)) "SELL" = false ->
  removeOrder orderId b =
  (true,
   {| symbol_ := symbol_ b;
      buyOrders_ := buyOrders_ b;
      sellOrders_ := sellOrders_ b;
      totalOrders_ := size_t_wrap (totalOrders_ b - 1);
      totalVolume_ := size_t_wrap (totalVolume_ b - Order.quantity (obj order));
      lastTradePrice_ := lastTradePrice_ b;
      orders_ := delete orderId (orders_ b);
      lastPrice_ := lastPrice_ b;
      bestBid_ := bestBid_ b; bestAsk_ := bestAsk_ b |}).
Proof. intros H H1 H2. unfold removeOrder. rewrite H, H1, H2. reflexivity. Qed.

Lemma ptr_eqb_refl (p : OrderPtr) : ptr_eqb p p = true.
Proof. unfold ptr_eqb. apply N.eqb_refl. Qed.


Lemma max_not_below (a p : float) : Double.lt (Double.max a p) a = false.
Proof.
  unfold Double.max. destruct (Double.lt a p) eqn:E.
  - apply lt_asym. exact E.
  - apply lt_irrefl.
Qed.

(** X5.  The cached best bid is a high-water mark: no call lowers it, a removal
    included.  After the only bid of a book is added at a positive price and
    removed again, the buy side is empty and [getBestBid] still returns that
    price. *)
Theorem best_bid_cache_goes_stale (symbol : string) (order : OrderPtr) :
  Order.side (obj order) = "BUY" ->
  Double.gt (Order.price (obj order)) Double.zero = true ->
  let b1 := snd (addOrder order (newOrderBook symbol)) in
  let r := removeOrder (Order.orderId (obj order)) b1 in
  fst r = true /\
  buyOrders_ (snd r) = [] /\
  orders_ (snd r) = ∅ /\
  getBestBid (snd r) = Order.price (obj order) /\
  forall b b', book_call b b' -> Double.lt (bestBid_ b') (bestBid_ b) = false.
Proof.
  intros Hs Hp. cbv zeta. rewrite (addOrder_buy _ _ Hs). cbn [snd].
  erewrite removeOrder_buy; [|cbn [orders_]; apply lookup_insert_eq|exact Hs].
  unfold newOrderBook, getBestBid.
  cbn [fst snd buyOrders_ orders_ bestBid_ map_push_back map_remove_order].
  rewrite !gt_irrefl. cbn [List.filter]. rewrite ptr_eqb_refl. cbn [negb].
  repeat split.
  - apply delete_insert_id. apply lookup_empty.
  - unfold Double.max.
    change (Double.lt Double.zero (Order.price (obj order)) = true) in Hp.
    rewrite Hp. reflexivity.
  - intros b b' Hc.
    destruct Hc as [o b|orderId b|o b r Hu|o clk b r Hm].
    + destruct (side_cases o) as [H|[H|[H1 H2]]].
      * rewrite (addOrder_buy _ _ H). apply max_not_below.
      * rewrite (addOrder_sell _ _ H). apply lt_irrefl.
      * rewrite (addOrder_other _ _ H1 H2). apply lt_irrefl.
    + unfold removeOrder. destruct (orders_ b !! orderId) as [o|]; [|apply lt_irrefl].
      destruct (String.eqb (Order.side (obj o)) "BUY");
        [|destruct (String.eqb (Order.side (obj o)) "SELL")]; apply lt_irrefl.
    + apply updateOrder_result in Hu. subst r. apply lt_irrefl.
    + destruct r as [trades b'].
      destruct (matchOrder_frame _ _ _ _ _ Hm) as (_ & _ & _ & _ & _ & E & _).
      cbn [snd]. rewrite E. apply lt_irrefl.
Qed.

Lemma best_bid_cache_goes_stale_witness :
  buyOrders_ (snd (removeOrder "b2" (snd (addOrder buy_100_at_10 (newOrderBook "SYM")))))
  = [] /\
  getBestBid (snd (removeOrder "b2" (snd (addOrder buy_100_at_10 (newOrderBook "SYM")))))
  = 10%float.
Proof.
  destruct (best_bid_cache_goes_stale "SYM" buy_100_at_10 eq_refl eq_refl)
    as (_ & H1 & _ & H2 & _).
  split; [exact H1|exact H2].
Defined.

(** ** Adding and removing *)

Section StdMapRoundTrip.
Variable comp : float -> float -> bool.
Hypothesis comp_irrefl : forall a, comp a a = false.

Lemma filter_fresh (o : OrderPtr) (v : list OrderPtr) :
  Forall (fun q => addr q <> addr o) v ->
  List.filter (fun q => negb (ptr_eqb q o)) v = v.
Proof.
  induction 1 as [|q v Hq _ IH]; [reflexivity|].
  cbn [List.filter]. unfold ptr_eqb at 1.
  replace (N.eqb (addr q) (addr o)) with false
    by (symmetry; apply N.eqb_neq; exact Hq).
  cbn [negb]. rewrite IH. reflexivity.
Qed.

Lemma filter_appended (o : OrderPtr) (v : list OrderPtr) :
  Forall (fun q => addr q <> addr o) v ->
  List.filter (fun q => negb (ptr_eqb q o)) (v ++ [o]) = v.
Proof.
  intros H. rewrite List.filter_app, (filter_fresh o v H).
  cbn [List.filter]. rewrite ptr_eqb_refl. cbn [negb]. apply app_nil_r.
Qed.

(** Removing what was just pushed gives the map back. *)
Lemma remove_pushed (k : float) (o : OrderPtr) (m : PriceMap) :
  levels_nonempty m ->
  Forall (fun q => addr q <> addr o) (resting m) ->
  map_remove_order comp k o (map_push_back comp k o m) = m.
Proof.
  unfold levels_nonempty, resting. intros Hne.
  induction Hne as [|[k' v] m Hv Hne IH]; intros Hfresh;
    cbn [map_push_back map_remove_order].
  - rewrite comp_irrefl. cbn [List.filter]. rewrite ptr_eqb_refl. reflexivity.
  - cbn [List.map List.concat snd] in Hfresh.
    apply Forall_app in Hfresh. destruct Hfresh as [Hv' Hm'].
    destruct (comp k' k) eqn:E1; [|destruct (comp k k') eqn:E2];
      cbn [map_remove_order].
    + rewrite E1, (IH Hm'). reflexivity.
    + rewrite comp_irrefl. cbn [List.filter]. rewrite ptr_eqb_refl. reflexivity.
    + rewrite E1, E2, (filter_appended o v Hv').
      destruct v; [contradiction Hv; reflexivity|reflexivity].
Qed.

(** What rests keeps resting when something is pushed, and when another
    pointer is removed. *)
Lemma push_back_resting (k : float) (o q : OrderPtr) (m : PriceMap) :
  In q (resting (map_push_back comp k o m)) <-> q = o \/ In q (resting m).
Proof.
  unfold resting. induction m as [|[k' v] m IH]; cbn [map_push_back].
  - cbn. intuition congruence.
  - destruct (comp k' k); [|destruct (comp k k')];
      cbn [List.map List.concat snd]; rewrite ?in_app_iff.
    + rewrite IH. tauto.
    + cbn [In]. intuition congruence.
    + cbn [In]. intuition congruence.
Qed.

Lemma remove_order_resting (k : float) (o q : OrderPtr) (m : PriceMap) :
  In q (resting m) -> addr q <> addr o ->
  In q (resting (map_remove_order comp k o m)).
Proof.
  unfold resting. intros Hin Hne.
  induction m as [|[k' v] m IH]; [contradiction|].
  cbn [map_remove_order].
  destruct (comp k' k); [|destruct (comp k k')].
  - cbn [List.map List.concat snd] in *. rewrite in_app_iff in *.
    destruct Hin as [H|H]; [left; exact H|right; exact (IH H)].
  - exact Hin.
  - cbn [List.map List.concat snd] in Hin. rewrite in_app_iff in Hin.
    assert (Hf : In q v -> In q (List.filter (fun q0 => negb (ptr_eqb q0 o)) v)).
    { intros H. apply List.filter_In. split; [exact H|].
      unfold ptr_eqb. apply negb_true_iff, N.eqb_neq. exact Hne. }
    destruct (List.filter _ v) as [|x v'] eqn:Ef.
    + destruct Hin as [H|H]; [destruct (Hf H)|exact H].
    + cbn [List.map List.concat snd]. rewrite in_app_iff.
      destruct Hin as [H|H]; [left; exact (Hf H)|right; exact H].
Qed.
End StdMapRoundTrip.

Lemma size_t_add_sub (x d : Z) :
  0 <= x < 2 ^ 64 -> size_t_wrap (size_t_wrap (x + d) - d) = x.
Proof.
  intros Hx. unfold size_t_wrap. rewrite Zminus_mod_idemp_l.
  replace (x + d - d) with x by lia. apply Z.mod_small. exact Hx.
Qed.

(** X6.  Round trip.  [addOrder] of an order with a new id and a new address,
    followed by [removeOrder] of that id, gives back both sides, the id map
    and both counters.  The cached best bid and ask are the ones [addOrder]
    left. *)
Theorem remove_undoes_add (order : OrderPtr) (b : OrderBook) :
  book_levels_nonempty b ->
  orders_ b !! Order.orderId (obj order) = None ->
  Forall (fun q => addr q <> addr order) (resting (buyOrders_ b)) ->
  Forall (fun q => addr q <> addr order) (resting (sellOrders_ b)) ->
  0 <= totalOrders_ b < 2 ^ 64 ->
  0 <= totalVolume_ b < 2 ^ 64 ->
  let b1 := snd (addOrder order b) in
  let r := removeOrder (Order.orderId (obj order)) b1 in
  fst r = true /\
  buyOrders_ (snd r) = buyOrders_ b /\
  sellOrders_ (snd r) = sellOrders_ b /\
  orders_ (snd r) = orders_ b /\
  totalOrders_ (snd r) = totalOrders_ b /\
  totalVolume_ (snd r) = totalVolume_ b /\
  bestBid_ (snd r) = bestBid_ b1 /\ bestAsk_ (snd r) = bestAsk_ b1.
Proof.
  intros [Hnb Hns] Hid Hfb Hfs Hc Hv. cbv zeta.
  destruct (side_cases order) as [H|[H|[H1 H2]]].
  - rewrite (addOrder_buy _ _ H). cbn [snd].
    erewrite removeOrder_buy; [|cbn [orders_]; apply lookup_insert_eq|exact H].
    cbn [fst snd buyOrders_ sellOrders_ orders_ totalOrders_ totalVolume_
         bestBid_ bestAsk_].
    rewrite (remove_pushed Double.gt gt_irrefl _ _ _ Hnb Hfb).
    rewrite (delete_insert_id _ _ _ Hid).
    rewrite (size_t_add_sub _ _ Hc), (size_t_add_sub _ _ Hv). repeat split.
  - rewrite (addOrder_sell _ _ H). cbn [snd].
    erewrite removeOrder_sell; [|cbn [orders_]; apply lookup_insert_eq|exact H].
    cbn [fst snd buyOrders_ sellOrders_ orders_ totalOrders_ totalVolume_
         bestBid_ bestAsk_].
    rewrite (remove_pushed Double.lt lt_irrefl _ _ _ Hns Hfs).
    rewrite (delete_insert_id _ _ _ Hid).
    rewrite (size_t_add_sub _ _ Hc), (size_t_add_sub _ _ Hv). repeat split.
  - rewrite (addOrder_other _ _ H1 H2). cbn [snd].
    erewrite removeOrder_other; [|cbn [orders_]; apply lookup_insert_eq|exact H1|exact H2].
    cbn [fst snd buyOrders_ sellOrders_ orders_ totalOrders_ totalVolume_
         bestBid_ bestAsk_].
    rewrite (delete_insert_id _ _ _ Hid).
    rewrite (size_t_add_sub _ _ Hc), (size_t_add_sub _ _ Hv). repeat split.
Qed.

Lemma remove_undoes_add_witness :
  sellOrders_ (snd (removeOrder "b1" (snd (addOrder buy_12_at_25 two_asks))))
  = sellOrders_ two_asks /\
  buyOrders_ (snd (removeOrder "b1" (snd (addOrder buy_12_at_25 two_asks))))
  = buyOrders_ two_asks /\
  totalOrders_ (snd (removeOrder "b1" (snd (addOrder buy_12_at_25 two_asks)))) = 2.
Proof.
  assert (Hid : orders_ two_asks !! Order.orderId (obj buy_12_at_25) = None)
    by (vm_compute; reflexivity).
  assert (Hfb : Forall (fun q => addr q <> addr buy_12_at_25)
                  (resting (buyOrders_ two_asks))) by constructor.
  assert (Hfs : Forall (fun q => addr q <> addr buy_12_at_25)
                  (resting (sellOrders_ two_asks)))
    by (repeat constructor; discriminate).
  assert (Hc : 0 <= totalOrders_ two_asks < 2 ^ 64) by (vm_compute; split; congruence).
  assert (Hv : 0 <= totalVolume_ two_asks < 2 ^ 64) by (vm_compute; split; congruence).
  destruct (remove_undoes_add buy_12_at_25 two_asks two_asks_levels_nonempty
              Hid Hfb Hfs Hc Hv) as (_ & H1 & H2 & _ & H3 & _).
  split; [exact H2|]. split; [exact H1|]. exact H3.
Defined.

(** X7.  An id used twice.  [addOrder] of a second order under an id the book
    holds replaces the map entry and leaves the first order resting;
    [removeOrder] of the id then takes the second order out and nothing else:
    both sides are what they were before the second order was added.  After
    that the id is unknown and the first order, still resting, cannot be
    removed. *)
Theorem reused_id_strands_first_order (first second : OrderPtr) (b : OrderBook) :
  book_levels_nonempty b ->
  Forall (fun q => addr q <> addr second) (resting (buyOrders_ b)) ->
  Forall (fun q => addr q <> addr second) (resting (sellOrders_ b)) ->
  Order.orderId (obj second) = Order.orderId (obj first) ->
  addr first <> addr second ->
  Order.side (obj first) = "BUY" ->
  let id := Order.orderId (obj first) in
  let b1 := snd (addOrder first b) in
  let b2 := snd (addOrder second b1) in
  let r := removeOrder id b2 in
  orders_ b2 !! id = Some second /\
  fst r = true /\
  buyOrders_ (snd r) = buyOrders_ b1 /\
  sellOrders_ (snd r) = sellOrders_ b1 /\
  ~ In second (resting (buyOrders_ (snd r)) ++ resting (sellOrders_ (snd r))) /\
  In first (resting (buyOrders_ (snd r))) /\
  orders_ (snd r) !! id = None /\
  removeOrder id (snd r) = (false, snd r).
Proof.
  intros Hne Hfb Hfs Hid Haddr Hside. cbv zeta.
  set (b1 := snd (addOrder first b)).
  assert (Hne1 : book_levels_nonempty b1)
    by (apply addOrder_levels_nonempty; exact Hne).
  assert (E1 : buyOrders_ b1
               = map_push_back Double.gt (Order.price (obj first)) first (buyOrders_ b)
               /\ sellOrders_ b1 = sellOrders_ b).
  { unfold b1. rewrite (addOrder_buy _ _ Hside). split; reflexivity. }
  destruct E1 as [Eb1 Es1].
  assert (H1 : In first (resting (buyOrders_ b1))).
  { rewrite Eb1. apply push_back_resting. left. reflexivity. }
  assert (Hfb1 : Forall (fun q => addr q <> addr second) (resting (buyOrders_ b1))).
  { apply List.Forall_forall. intros q Hq. rewrite Eb1 in Hq.
    apply push_back_resting in Hq. destruct Hq as [->|Hq]; [exact Haddr|].
    revert q Hq. apply List.Forall_forall. exact Hfb. }
  assert (Hfs1 : Forall (fun q => addr q <> addr second) (resting (sellOrders_ b1)))
    by (rewrite Es1; exact Hfs).
  assert (Hfresh : ~ In second (resting (buyOrders_ b1) ++ resting (sellOrders_ b1))).
  { intros Hin. apply in_app_or in Hin.
    destruct Hin as [Hin|Hin];
      [pose proof (proj1 (List.Forall_forall _ _) Hfb1 _ Hin) as Hc
      |pose proof (proj1 (List.Forall_forall _ _) Hfs1 _ Hin) as Hc];
      apply Hc; reflexivity. }
  destruct Hne1 as [Hnb1 Hns1].
  set (b2 := snd (addOrder second b1)).
  assert (Hl : orders_ b2 !! Order.orderId (obj first) = Some second).
  { unfold b2. unfold addOrder.
    destruct (String.eqb (Order.side (obj second)) "BUY");
      [|destruct (String.eqb (Order.side (obj second)) "SELL")];
      cbn [snd orders_]; rewrite Hid; apply lookup_insert_eq. }
  assert (H3 : fst (removeOrder (Order.orderId (obj first)) b2) = true /\
               buyOrders_ (snd (removeOrder (Order.orderId (obj first)) b2))
               = buyOrders_ b1 /\
               sellOrders_ (snd (removeOrder (Order.orderId (obj first)) b2))
               = sellOrders_ b1 /\
               orders_ (snd (removeOrder (Order.orderId (obj first)) b2))
                 !! Order.orderId (obj first) = None).
  { destruct (side_cases second) as [H|[H|[Ha Hb]]].
    - rewrite (removeOrder_buy _ _ _ Hl H). unfold b2.
      rewrite (addOrder_buy _ _ H).
      cbn [fst snd orders_ buyOrders_ sellOrders_].
      rewrite (remove_pushed Double.gt gt_irrefl _ _ _ Hnb1 Hfb1).
      repeat split. apply lookup_delete_eq.
    - rewrite (removeOrder_sell _ _ _ Hl H). unfold b2.
      rewrite (addOrder_sell _ _ H).
      cbn [fst snd orders_ buyOrders_ sellOrders_].
      rewrite (remove_pushed Double.lt lt_irrefl _ _ _ Hns1 Hfs1).
      repeat split. apply lookup_delete_eq.
    - rewrite (removeOrder_other _ _ _ Hl Ha Hb). unfold b2.
      rewrite (addOrder_other _ _ Ha Hb).
      cbn [fst snd orders_ buyOrders_ sellOrders_].
      repeat split. apply lookup_delete_eq. }
  destruct H3 as (Ha & Hb & Hc & Hd).
  split; [exact Hl|]. split; [exact Ha|]. split; [exact Hb|]. split; [exact Hc|].
  split; [rewrite Hb, Hc; exact Hfresh|].
  split; [rewrite Hb; exact H1|]. split; [exact Hd|].
  unfold removeOrder at 1. rewrite Hd. reflexivity.
Qed.

Definition buy_again_at_11 : OrderPtr := sample_order "b2" "BUY" 50 11 7.

Lemma reused_id_strands_first_order_witness :
  buyOrders_
    (snd (removeOrder "b2"
       (snd (addOrder buy_again_at_11
          (snd (addOrder buy_100_at_10 (newOrderBook "SYM")))))))
  = buyOrders_ (snd (addOrder buy_100_at_10 (newOrderBook "SYM"))) /\
  In buy_100_at_10
    (resting (buyOrders_
       (snd (removeOrder "b2"
          (snd (addOrder buy_again_at_11
             (snd (addOrder buy_100_at_10 (newOrderBook "SYM"))))))))).
Proof.
  assert (Hne : book_levels_nonempty (newOrderBook "SYM"))
    by (split; constructor).
  assert (Haddr : addr buy_100_at_10 <> addr buy_again_at_11) by discriminate.
  destruct (reused_id_strands_first_order buy_100_at_10 buy_again_at_11
              (newOrderBook "SYM") Hne (List.Forall_nil _) (List.Forall_nil _)
              eq_refl Haddr eq_refl) as (_ & _ & Hb & _ & _ & H & _).
  split; [exact Hb|exact H].
Defined.

(** ** The counters *)

(** The total quantity of the orders in the id map. *)
Definition booked_volume (m : gmap string OrderPtr) : Z :=
  map_fold (fun _ p acc => Order.quantity (obj p) + acc) 0 m.

(** The calls in which no id is used while the book holds it. *)
Inductive book_call_fresh : OrderBook -> OrderBook -> Prop :=
| fresh_add order b :
    orders_ b !! Order.orderId (obj order) = None ->
    book_call_fresh b (snd (addOrder order b))
| fresh_remove orderId b :
    book_call_fresh b (snd (removeOrder orderId b))
| fresh_update order b r :
    updateOrder order b = Some r ->
    book_call_fresh b (snd r)
| fresh_match order clk b r :
    matchOrder order clk b = Some r ->
    book_call_fresh b (snd r).

Inductive book_built_fresh : OrderBook -> Prop :=
| built_fresh_new symbol : book_built_fresh (newOrderBook symbol)
| built_fresh_call b b' :
    book_built_fresh b -> book_call_fresh b b' -> book_built_fresh b'.

Definition counters_agree (b : OrderBook) : Prop :=
  totalOrders_ b = size_t_wrap (Z.of_nat (size (orders_ b))) /\
  totalVolume_ b = size_t_wrap (booked_volume (orders_ b)).

Lemma booked_volume_insert (m : gmap string OrderPtr) (id : string) (p : OrderPtr) :
  m !! id = None ->
  booked_volume (<[id := p]> m) = Order.quantity (obj p) + booked_volume m.
Proof.
  intros H. unfold booked_volume.
  apply (map_fold_insert_L (fun _ (p : OrderPtr) acc => Order.quantity (obj p) + acc));
    [|exact H].
  intros. lia.
Qed.

Lemma booked_volume_delete (m : gmap string OrderPtr) (id : string) (p : OrderPtr) :
  m !! id = Some p ->
  booked_volume m = Order.quantity (obj p) + booked_volume (delete id m).
Proof.
  intros H. unfold booked_volume.
  apply (map_fold_delete_L (fun _ (p : OrderPtr) acc => Order.quantity (obj p) + acc));
    [|exact H].
  intros. lia.
Qed.

Lemma addOrder_counters (order : OrderPtr) (b : OrderBook) :
  let b' := snd (addOrder order b) in
  totalOrders_ b' = size_t_wrap (totalOrders_ b + 1) /\
  totalVolume_ b' = size_t_wrap (totalVolume_ b + Order.quantity (obj order)) /\
  orders_ b' = <[Order.orderId (obj order) := order]> (orders_ b).
Proof.
  cbv zeta. destruct (side_cases order) as [H|[H|[H1 H2]]].
  - rewrite (addOrder_buy _ _ H). repeat split.
  - rewrite (addOrder_sell _ _ H). repeat split.
  - rewrite (addOrder_other _ _ H1 H2). repeat split.
Qed.

Lemma removeOrder_counters (orderId : string) (order : OrderPtr) (b : OrderBook) :
  orders_ b !! orderId = Some order ->
  let b' := snd (removeOrder orderId b) in
  totalOrders_ b' = size_t_wrap (totalOrders_ b - 1) /\
  totalVolume_ b' = size_t_wrap (totalVolume_ b - Order.quantity (obj order)) /\
  orders_ b' = delete orderId (orders_ b).
Proof.
  intros Hl. cbv zeta. destruct (side_cases order) as [H|[H|[H1 H2]]].
  - rewrite (removeOrder_buy _ _ _ Hl H). repeat split.
  - rewrite (removeOrder_sell _ _ _ Hl H). repeat split.
  - rewrite (removeOrder_other _ _ _ Hl H1 H2). repeat split.
Qed.

Lemma book_call_fresh_counters (b b' : OrderBook) :
  book_call_fresh b b' -> counters_agree b -> counters_agree b'.
Proof.
  intros Hc [Hn Hv].
  destruct Hc as [order b Hid|orderId b|order b r Hu|order clk b r Hm].
  - destruct (addOrder_counters order b) as (E1 & E2 & E3).
    unfold counters_agree. rewrite E1, E2, E3, Hn, Hv.
    rewrite (map_size_insert_None _ _ _ Hid), (booked_volume_insert _ _ _ Hid).
    unfold size_t_wrap. rewrite !Zplus_mod_idemp_l. split; f_equal; lia.
  - destruct (orders_ b !! orderId) as [order|] eqn:Hl.
    + destruct (removeOrder_counters orderId order b Hl) as (E1 & E2 & E3).
      unfold counters_agree. rewrite E1, E2, E3, Hn, Hv.
      rewrite (booked_volume_delete _ _ _ Hl).
      rewrite (map_size_delete_Some orderId (orders_ b)) by (rewrite Hl; eauto).
      assert (size (orders_ b) <> O).
      { intros E. apply map_size_empty_inv in E. rewrite E in Hl.
        rewrite lookup_empty in Hl. discriminate. }
      unfold size_t_wrap. rewrite !Zminus_mod_idemp_l. split; f_equal; lia.
    + unfold removeOrder. rewrite Hl. split; assumption.
  - apply updateOrder_result in Hu. subst r. split; assumption.
  - destruct r as [trades b'].
    destruct (matchOrder_frame _ _ _ _ _ Hm) as (_ & _ & E1 & E2 & E3 & _).
    unfold counters_agree. cbn [snd]. rewrite E1, E2, E3. split; assumption.
Qed.

(** X8.  As long as no id is added while the book holds it, [getOrderCount] is
    the number of ids in the id map and the total volume is the sum of their
    quantities, both as [size_t]. *)
Theorem counters_follow_the_id_map (b : OrderBook) :
  book_built_fresh b ->
  getOrderCount b = size_t_wrap (Z.of_nat (size (orders_ b))) /\
  totalVolume_ b = size_t_wrap (booked_volume (orders_ b)).
Proof.
  induction 1 as [symbol|b b' _ IH Hc].
  - split; reflexivity.
  - exact (book_call_fresh_counters b b' Hc IH).
Qed.

Lemma two_asks_built_fresh : book_built_fresh two_asks.
Proof.
  unfold two_asks.
  apply (built_fresh_call (snd (addOrder sell_10_at_20 (newOrderBook "SYM")))).
  - apply (built_fresh_call (newOrderBook "SYM")); [apply built_fresh_new|].
    apply fresh_add. reflexivity.
  - apply fresh_add. vm_compute. reflexivity.
Qed.

Lemma counters_follow_the_id_map_witness :
  getOrderCount two_asks = 2 /\ size (orders_ two_asks) = 2%nat.
Proof.
  destruct (counters_follow_the_id_map two_asks two_asks_built_fresh) as [H _].
  split; [reflexivity|]. vm_compute. reflexivity.
Defined.

(** With an id used twice the count and the map part: two orders counted,
    one id held. *)
Lemma reused_id_counts_twice (first second : OrderPtr) (symbol : string) :
  Order.orderId (obj second) = Order.orderId (obj first) ->
  let b2 := snd (addOrder second (snd (addOrder first (newOrderBook symbol)))) in
  getOrderCount b2 = 2 /\ size (orders_ b2) = 1%nat.
Proof.
  intros Hid. cbv zeta.
  destruct (addOrder_counters second (snd (addOrder first (newOrderBook symbol))))
    as (E1 & _ & E3).
  destruct (addOrder_counters first (newOrderBook symbol)) as (F1 & _ & F3).
  unfold getOrderCount. rewrite E1, E3, F1, F3, Hid. cbn [newOrderBook totalOrders_ orders_].
  split; [reflexivity|].
  rewrite insert_insert_eq. rewrite map_size_insert_None by apply lookup_empty.
  rewrite map_size_empty. reflexivity.
Qed.

(** ** Queue positions *)

(** X9.  Price-time priority of the resting side.  An order added on the side a
    taker is matched against, at a price that is not better than the best
    level's, does not change what the taker trades: the maker at the front
    of the best level stays there. *)
Theorem later_order_does_not_jump_the_queue
    (taker added : OrderPtr) (clk : Clock) (b : OrderBook)
    (p : float) (maker : OrderPtr) (queue : list OrderPtr) (others : PriceMap) :
  opposing taker b = (p, maker :: queue) :: others ->
  (Order.side (obj taker) = "SELL" /\ Order.side (obj added) = "BUY" /\
   Double.gt (Order.price (obj added)) p = false) \/
  (Order.side (obj taker) = "BUY" /\ Order.side (obj added) = "SELL" /\
   Double.lt (Order.price (obj added)) p = false) ->
  option_map fst (matchOrder taker clk (snd (addOrder added b)))
  = option_map fst (matchOrder taker clk b) /\
  exists queue' others',
    opposing taker (snd (addOrder added b)) = (p, maker :: queue') :: others'.
Proof.
  intros Hopp Hcase.
  assert (Hpush : forall comp,
            comp (Order.price (obj added)) p = false ->
            exists queue' others',
              map_push_back comp (Order.price (obj added)) added
                ((p, maker :: queue) :: others)
              = (p, maker :: queue') :: others').
  { intros comp Hc. cbn [map_push_back].
    destruct (comp p (Order.price (obj added))); [eauto|].
    rewrite Hc. eexists _, _. reflexivity. }
  assert (Hnew : exists queue' others',
            opposing taker (snd (addOrder added b)) = (p, maker :: queue') :: others').
  { unfold opposing in *.
    destruct Hcase as [(Ht & Ha & Hc)|(Ht & Ha & Hc)]; rewrite Ht in *;
      cbn [String.eqb Ascii.eqb Bool.eqb] in *.
    - rewrite (addOrder_buy _ _ Ha). cbn [snd buyOrders_]. rewrite Hopp.
      apply Hpush. exact Hc.
    - rewrite (addOrder_sell _ _ Ha). cbn [snd sellOrders_]. rewrite Hopp.
      apply Hpush. exact Hc. }
  split; [|exact Hnew].
  destruct Hnew as (queue' & others' & Hopp').
  unfold matchOrder.
  assert (Hm : forall b0 q0 o0,
            opposing taker b0 = (p, maker :: q0) :: o0 ->
            (if String.eqb (Order.side (obj taker)) "BUY"
             then matchBuyOrder taker clk b0
             else if String.eqb (Order.side (obj taker)) "SELL"
                  then matchSellOrder taker clk b0 else Some [])
            = Some (if crosses taker p then [make_trade taker maker p clk] else [])).
  { intros b0 q0 o0 H0. unfold opposing, crosses in *.
    destruct (String.eqb (Order.side (obj taker)) "BUY").
    - unfold matchBuyOrder. rewrite H0.
      destruct (Double.ge (Order.price (obj taker)) p); reflexivity.
    - destruct (String.eqb (Order.side (obj taker)) "SELL"); [|discriminate].
      unfold matchSellOrder. rewrite H0.
      destruct (Double.le (Order.price (obj taker)) p); reflexivity. }
  rewrite (Hm _ _ _ Hopp), (Hm _ _ _ Hopp').
  destruct (crosses taker p); reflexivity.
Qed.

Definition buy_50_at_10 : OrderPtr := sample_order "b4" "BUY" 50 10 8.

Lemma later_order_does_not_jump_the_queue_witness :
  option_map fst (matchOrder sell_100_at_9 sample_clock
                    (snd (addOrder buy_50_at_10 bid_10_ask_20)))
  = option_map fst (matchOrder sell_100_at_9 sample_clock bid_10_ask_20).
Proof.
  refine (proj1 (later_order_does_not_jump_the_queue sell_100_at_9 buy_50_at_10
                   sample_clock bid_10_ask_20 10 buy_100_at_10 [] [] eq_refl _)).
  left. repeat split; reflexivity.
Defined.

(** * Further properties of the symbol index and the store *)

Section IndexStability.
Variable hash : string -> N.

(** X10.  Intern stability.  Once [getOrCreateIndex] has returned a valid id for a
    symbol, every later [getOrCreateIndex] and [getIndex] of that symbol
    returns the same id, whatever was interned in between, and the later
    [getOrCreateIndex] writes nothing. *)
Theorem interned_id_is_stable (symbol : string) (s : SymbolIndex) (r : Z)
    (s1 s2 : SymbolIndex) :
  length (symbolTable_ s) = Z.to_nat MAX_SYMBOLS ->
  getOrCreateIndex hash symbol s = (r, s1) ->
  r < MAX_SYMBOLS ->
  index_extends s1 s2 ->
  getOrCreateIndex hash symbol s2 = (r, s2) /\
  getIndex hash symbol s2 = r /\
  forall other r' s3, getOrCreateIndex hash other s2 = (r', s3) ->
                      index_extends s1 s3.
Proof.
  intros Hlen H Hr Hext.
  destruct (loops_stable _ _ _ _ _ _ _ _ Hlen H Hr Hext) as [H1 H2].
  split; [exact H1|]. split; [exact H2|].
  intros other r' s3 H3. eapply index_extends_trans; [exact Hext|].
  eapply getOrCreateIndex_extends. exact H3.
Qed.

(** A symbol no slot holds is not found. *)
Lemma getIndex_loop_unknown n i h symbol s :
  length (symbolTable_ s) = Z.to_nat MAX_SYMBOLS ->
  unknown_symbol symbol s ->
  getIndex_loop n i h symbol s = UINT32_MAX.
Proof.
  intros Hlen Hun. revert i. induction n as [|n IH]; intros i; [reflexivity|].
  cbn [getIndex_loop].
  pose proof (Forall_lookup_total_1 _ _ (Z.to_nat ((h + i) mod MAX_SYMBOLS)) Hun)
    as Hf. cbv beta in Hf. unfold holds_symbol in Hf.
  rewrite Hf by (rewrite Hlen; apply slot_in_range). apply IH.
Qed.

(** X11.  A symbol that was never interned, and shares its first seven bytes with
    no interned symbol, is unknown to every reader: [getIndex] returns
    [UINT32_MAX], [getMarketData], [getBestPrices] and [hasValidData] fail,
    and the store is left as it was. *)
Theorem unknown_symbol_is_not_read (symbol : string) (st : MarketDataStore) :
  store_wf st ->
  unknown_symbol symbol (symbolIndex_ st) ->
  getIndex hash symbol (symbolIndex_ st) = UINT32_MAX /\
  getMarketData hash symbol st = (None, st) /\
  getBestPrices hash symbol st = None /\
  hasValidData hash symbol st = false.
Proof.
  intros [_ Hs] Hun.
  assert (E : getIndex hash symbol (symbolIndex_ st) = UINT32_MAX)
    by (apply getIndex_loop_unknown; assumption).
  unfold getMarketData, getBestPrices, hasValidData. rewrite E.
  repeat split.
Qed.

(** X12.  The three readers agree on every store. *)
Theorem readers_agree (symbol : string) (st : MarketDataStore) :
  hasValidData hash symbol st
  = match fst (getMarketData hash symbol st) with Some _ => true | None => false end /\
  getBestPrices hash symbol st
  = option_map (fun out : MarketDataOut =>
                  match out with (bid, ask, _, _, _, _) => (bid, ask) end)
      (fst (getMarketData hash symbol st)).
Proof.
  unfold hasValidData, getBestPrices, getMarketData.
  destruct (getIndex hash symbol (symbolIndex_ st) >=? MAX_SYMBOLS);
    [split; reflexivity|].
  destruct (MarketDataSnapshot.isValid _); split; reflexivity.
Qed.

(** X13.  When every slot is claimed and none holds the symbol, interning returns
    [UINT32_MAX] and [updateMarketData] returns [false]; neither writes
    anything. *)
Theorem full_table_rejects (symbol : string) (bid ask last : float) (vol now : Z)
    (st : MarketDataStore) :
  store_wf st ->
  unknown_symbol symbol (symbolIndex_ st) ->
  (forall k, (k < Z.to_nat MAX_SYMBOLS)%nat ->
             SymbolEntry.isActive (symbolTable_ (symbolIndex_ st) !!! k) = true) ->
  getOrCreateIndex hash symbol (symbolIndex_ st) = (UINT32_MAX, symbolIndex_ st) /\
  fst (updateMarketData hash symbol bid ask last vol now st) = false /\
  marketData_ (snd (updateMarketData hash symbol bid ask last vol now st))
  = marketData_ st /\
  symbolIndex_ (snd (updateMarketData hash symbol bid ask last vol now st))
  = symbolIndex_ st.
Proof.
  intros [_ Hs] Hun Hfull.
  assert (E : getOrCreateIndex hash symbol (symbolIndex_ st)
              = (UINT32_MAX, symbolIndex_ st)).
  { destruct (getOrCreateIndex hash symbol (symbolIndex_ st)) as [r s'] eqn:H.
    destruct (getOrCreateIndex_outcome hash _ _ _ _ H)
      as [idx Hlt Hina _ _|idx Hlt Hh _ _| -> -> _].
    - rewrite (Hfull idx Hlt) in Hina. discriminate.
    - pose proof (Forall_lookup_total_1 _ _ idx Hun) as Hf. cbv beta in Hf.
      rewrite Hf in Hh by (rewrite Hs; exact Hlt). discriminate.
    - reflexivity. }
  split; [exact E|]. unfold updateMarketData. rewrite E.
  replace (UINT32_MAX >=? MAX_SYMBOLS) with true by reflexivity.
  repeat split.
Qed.
End IndexStability.

Definition full_index : SymbolIndex :=
  {| symbolTable_ :=
       replicate (Z.to_nat MAX_SYMBOLS) (SymbolEntry.mk (stored_key "TAKEN") 0 true);
     nextIndex_ := MAX_SYMBOLS |}.

Definition full_store : MarketDataStore :=
  {| marketData_ := replicate (Z.to_nat MAX_SYMBOLS) MarketDataSnapshot.initial;
     symbolIndex_ := full_index; totalUpdates_ := 0; totalReads_ := 0 |}.

Lemma full_table_rejects_witness :
  fst (updateMarketData sample_hash "AAPL" 1 2 1.5 100 1000 full_store) = false.
Proof.
  assert (Hwf : store_wf full_store) by (split; apply length_replicate).
  assert (Hun : unknown_symbol "AAPL" (symbolIndex_ full_store))
    by (apply Forall_replicate; reflexivity).
  assert (Hfull : forall k, (k < Z.to_nat MAX_SYMBOLS)%nat ->
            SymbolEntry.isActive (symbolTable_ (symbolIndex_ full_store) !!! k) = true).
  { intros k Hk. cbn [full_store symbolIndex_ full_index symbolTable_].
    rewrite lookup_total_replicate_2 by exact Hk. reflexivity. }
  exact (proj1 (proj2 (full_table_rejects sample_hash "AAPL" 1 2 1.5 100 1000
                         full_store Hwf Hun Hfull))).
Defined.

Lemma unknown_symbol_is_not_read_witness :
  getMarketData sample_hash "AAPL" newMarketDataStore = (None, newMarketDataStore).
Proof.
  exact (proj1 (proj2 (unknown_symbol_is_not_read sample_hash "AAPL"
                         newMarketDataStore new_store_wf (new_index_unknown "AAPL")))).
Defined.

Lemma interned_id_is_stable_witness :
  getIndex sample_hash "AAPL"
    (snd (getOrCreateIndex sample_hash "MSFT"
            (snd (getOrCreateIndex sample_hash "AAPL" newSymbolIndex))))
  = 0.
Proof.
  assert (H : getOrCreateIndex sample_hash "AAPL" newSymbolIndex
              = (0, snd (getOrCreateIndex sample_hash "AAPL" newSymbolIndex)))
    by (vm_compute; reflexivity).
  refine (proj1 (proj2 (interned_id_is_stable sample_hash "AAPL" newSymbolIndex 0
                          _ _ (length_replicate _ _) H eq_refl _))).
  eapply getOrCreateIndex_extends. apply surjective_pairing.
Defined.

(** ** Symbols with different first seven bytes *)

Fixpoint nul_free (s : string) : Prop :=
  match s with
  | EmptyString => True
  | String c s' => c <> NUL /\ nul_free s'
  end.

(** What interning keeps on top of [index_wf]: a claimed slot holds the key
    written for some symbol, and no two claimed slots hold the same id. *)
Definition index_inv (s : SymbolIndex) : Prop :=
  index_wf s /\
  Forall (fun e => SymbolEntry.isActive e = true ->
                   exists c, SymbolEntry.symbol e = stored_key c) (symbolTable_ s) /\
  forall k1 k2,
    (k1 < Z.to_nat MAX_SYMBOLS)%nat -> (k2 < Z.to_nat MAX_SYMBOLS)%nat ->
    SymbolEntry.isActive (symbolTable_ s !!! k1) = true ->
    SymbolEntry.isActive (symbolTable_ s !!! k2) = true ->
    SymbolEntry.index (symbolTable_ s !!! k1) = SymbolEntry.index (symbolTable_ s !!! k2) ->
    k1 = k2.

Definition store_inv (st : MarketDataStore) : Prop :=
  store_wf st /\ index_inv (symbolIndex_ st).

Lemma c_str_nul_free (s : string) : nul_free (c_str s).
Proof.
  induction s as [|c s IH]; cbn [c_str]; [exact I|].
  destruct (Ascii.eqb c NUL) eqn:E; [exact I|].
  split; [|exact IH]. intros ->. rewrite Ascii.eqb_refl in E. discriminate.
Qed.

Lemma code_difference (c1 c2 : ascii) :
  Z.of_nat (nat_of_ascii c1) - Z.of_nat (nat_of_ascii c2) = 0 -> c1 = c2.
Proof.
  intros H. assert (E : nat_of_ascii c1 = nat_of_ascii c2) by lia.
  rewrite <- (ascii_nat_embedding c1), <- (ascii_nat_embedding c2), E.
  reflexivity.
Qed.

(** A key matches only symbols with the first bytes it was copied from. *)
Lemma strncmp_stored_inv (x y rest : string) (n : nat) :
  nul_free x -> nul_free y ->
  strncmp (String.append (strncpy x n) rest) y n = 0 ->
  string_take n y = string_take n x.
Proof.
  revert x y. induction n as [|n IH]; intros x y Hx Hy; [reflexivity|].
  cbn [strncpy].
  destruct (Ascii.eqb (peek x) NUL) eqn:E; rewrite append_cons;
    cbn [strncmp peek advance].
  - destruct x as [|c x]; [|cbn in E; destruct Hx as [Hc _];
      apply Ascii.eqb_eq in E; contradiction].
    destruct (negb (Ascii.eqb NUL (peek y))) eqn:E2.
    + intros H. apply code_difference in H. rewrite H, Ascii.eqb_refl in E2.
      discriminate.
    + intros _. apply negb_false_iff, Ascii.eqb_eq in E2.
      destruct y as [|c y]; [reflexivity|].
      cbn in E2. destruct Hy as [Hc _]. congruence.
  - destruct x as [|c x]; [vm_compute in E; discriminate|].
    cbn [peek advance] in *.
    destruct (negb (Ascii.eqb c (peek y))) eqn:E2.
    + intros H. apply code_difference in H. rewrite H, Ascii.eqb_refl in E2.
      discriminate.
    + apply negb_false_iff, Ascii.eqb_eq in E2. rewrite E.
      destruct y as [|c' y]; cbn [peek] in E2.
      * subst c. rewrite Ascii.eqb_refl in E. discriminate.
      * subst c'. cbn [advance string_take]. intros H.
        rewrite (IH x y (proj2 Hx) (proj2 Hy) H). reflexivity.
Qed.

Lemma stored_key_matches_inv (c a : string) (index : Z) (active : bool) :
  key_matches (SymbolEntry.mk (stored_key c) index active) a = true ->
  first7 a = first7 c.
Proof.
  unfold key_matches, stored_key, first7. cbn [SymbolEntry.symbol].
  intros H. apply Z.eqb_eq in H.
  eapply strncmp_stored_inv; [apply c_str_nul_free|apply c_str_nul_free|exact H].
Qed.

Lemma new_index_inv : index_inv newSymbolIndex.
Proof.
  split; [exact new_index_wf|]. split.
  - apply Forall_replicate. discriminate.
  - intros k1 k2 Hk1 _ Ha _ _. exfalso.
    unfold newSymbolIndex in Ha. cbn [symbolTable_] in Ha.
    rewrite lookup_total_replicate_2 in Ha by exact Hk1. discriminate.
Qed.

Section Isolation.
Variable hash : string -> N.

Lemma getOrCreateIndex_inv symbol s r s' :
  index_inv s ->
  getOrCreateIndex hash symbol s = (r, s') ->
  index_inv s'.
Proof.
  intros (Hwf & Hkeys & Hdist) H.
  destruct (getOrCreateIndex_wf hash _ _ _ _ Hwf H) as [Hwf' _].
  split; [exact Hwf'|].
  destruct (getOrCreateIndex_outcome hash _ _ _ _ H)
    as [idx Hlt Hina -> ->|idx Hlt Hh -> ->| -> -> _];
    try (split; assumption).
  destruct Hwf as (Hlen & Hn & Hall). cbn [symbolTable_]. split.
  - apply Forall_insert; [exact Hkeys|]. intros _. eexists. reflexivity.
  - intros k1 k2 Hk1 Hk2.
    assert (Hold : forall k, (k < Z.to_nat MAX_SYMBOLS)%nat ->
              SymbolEntry.isActive (symbolTable_ s !!! k) = true ->
              SymbolEntry.index (symbolTable_ s !!! k) <> nextIndex_ s).
    { intros k Hk Ha.
      pose proof (Forall_lookup_total_1 _ _ k Hall) as Hf. cbv beta in Hf.
      specialize (Hf ltac:(rewrite Hlen; exact Hk) Ha). lia. }
    destruct (decide (k1 = idx)) as [->|N1]; destruct (decide (k2 = idx)) as [->|N2];
      [reflexivity| | |].
    + rewrite list_lookup_total_insert_eq by (rewrite Hlen; exact Hlt).
      rewrite list_lookup_total_insert_ne by congruence.
      cbn [SymbolEntry.index]. intros _ Ha E. symmetry in E.
      destruct (Hold k2 Hk2 Ha E).
    + rewrite (list_lookup_total_insert_eq _ idx) by (rewrite Hlen; exact Hlt).
      rewrite list_lookup_total_insert_ne by congruence.
      cbn [SymbolEntry.index]. intros Ha _ E.
      destruct (Hold k1 Hk1 Ha E).
    + rewrite !list_lookup_total_insert_ne by congruence.
      apply Hdist; assumption.
Qed.

(** What a successful lookup found. *)
Lemma getIndex_loop_found n i h symbol s r :
  getIndex_loop n i h symbol s = r -> r < MAX_SYMBOLS ->
  exists k, (k < Z.to_nat MAX_SYMBOLS)%nat /\
            holds_symbol (symbolTable_ s !!! k) symbol = true /\
            SymbolEntry.index (symbolTable_ s !!! k) = r.
Proof.
  revert i. induction n as [|n IH]; intros i; cbn [getIndex_loop].
  - intros <- Hr. vm_compute in Hr. discriminate.
  - destruct (SymbolEntry.isActive _ && key_matches _ symbol) eqn:E.
    + intros <- _. eexists. split; [apply slot_in_range|]. split; [exact E|reflexivity].
    + apply IH.
Qed.

(** Claiming a slot for [a] does not change the lookup of a symbol with
    other first bytes. *)
Lemma getIndex_loop_after_claim n i h a b s idx index :
  length (symbolTable_ s) = Z.to_nat MAX_SYMBOLS ->
  (idx < Z.to_nat MAX_SYMBOLS)%nat ->
  SymbolEntry.isActive (symbolTable_ s !!! idx) = false ->
  first7 a <> first7 b ->
  getIndex_loop n i h b
    {| symbolTable_ := <[idx := SymbolEntry.mk (stored_key a) index true]> (symbolTable_ s);
       nextIndex_ := uint32_wrap (index + 1) |}
  = getIndex_loop n i h b s.
Proof.
  intros Hlen Hidx Hina Hab. revert i.
  induction n as [|n IH]; intros i; [reflexivity|].
  cbn [getIndex_loop symbolTable_].
  destruct (decide (idx = Z.to_nat ((h + i) mod MAX_SYMBOLS))) as [E|E].
  - rewrite <- E. rewrite list_lookup_total_insert_eq by (rewrite Hlen; exact Hidx).
    rewrite Hina. cbn [SymbolEntry.isActive andb].
    destruct (key_matches _ b) eqn:Ek.
    + apply stored_key_matches_inv in Ek. congruence.
    + apply IH.
  - rewrite list_lookup_total_insert_ne by exact E.
    destruct (SymbolEntry.isActive _ && key_matches _ b); [reflexivity|apply IH].
Qed.

Lemma updateMarketData_inv symbol bid ask last vol now st :
  store_inv st ->
  store_inv (snd (updateMarketData hash symbol bid ask last vol now st)).
Proof.
  intros [Hwf Hinv]. split; [apply updateMarketData_wf; exact Hwf|].
  unfold updateMarketData.
  destruct (getOrCreateIndex hash symbol (symbolIndex_ st)) as [index si] eqn:E.
  pose proof (getOrCreateIndex_inv _ _ _ _ Hinv E) as Hinv'.
  destruct (index >=? MAX_SYMBOLS); exact Hinv'.
Qed.

(** X14.  Isolation.  In a store built by updates, an update of one symbol,
    whether it succeeds or not, does not change the result of a read of a
    symbol whose first seven bytes differ: a read that failed still fails,
    and a read that succeeded returns the same six values. *)
Theorem update_leaves_other_symbols (a b : string) (bid ask last : float)
    (vol now : Z) (st : MarketDataStore) :
  store_inv st ->
  first7 a <> first7 b ->
  fst (getMarketData hash b (snd (updateMarketData hash a bid ask last vol now st)))
  = fst (getMarketData hash b st) /\
  hasValidData hash b (snd (updateMarketData hash a bid ask last vol now st))
  = hasValidData hash b st.
Proof.
  intros [[Hm Hs] (Hwf & Hkeys & Hdist)] Hab.
  destruct Hwf as (Hlen & Hn & Hall).
  unfold updateMarketData.
  destruct (getOrCreateIndex hash a (symbolIndex_ st)) as [ia si] eqn:Ea.
  assert (Hsame : getIndex hash b si = getIndex hash b (symbolIndex_ st)).
  { destruct (getOrCreateIndex_outcome hash _ _ _ _ Ea)
      as [idx Hlt Hina -> ->|idx Hlt Hh -> ->| -> -> _]; [|reflexivity|reflexivity].
    unfold getIndex. apply getIndex_loop_after_claim; assumption. }
  destruct (getIndex hash b (symbolIndex_ st) >=? MAX_SYMBOLS) eqn:Eb.
  - destruct (ia >=? MAX_SYMBOLS); cbn [snd]; unfold getMarketData, hasValidData;
      cbn [symbolIndex_ marketData_ totalUpdates_ totalReads_];
      rewrite Hsame, Eb; split; reflexivity.
  - assert (Hib : getIndex hash b (symbolIndex_ st) < MAX_SYMBOLS) by lia.
    destruct (getIndex_loop_found _ _ _ _ _ _ eq_refl Hib) as (kb & Hkb & Hhb & Eib).
    fold (getIndex hash b (symbolIndex_ st)) in Eib.
    apply andb_true_iff in Hhb. destruct Hhb as [Hab_act Hmb].
    pose proof (Forall_lookup_total_1 _ _ kb Hall ltac:(rewrite Hlen; exact Hkb) Hab_act)
      as Hrange. cbv beta in Hrange.
    assert (Hne : ia < MAX_SYMBOLS ->
                  ia <> getIndex hash b (symbolIndex_ st) /\ 0 <= ia).
    { destruct (getOrCreateIndex_outcome hash _ _ _ _ Ea)
        as [idx Hlt Hina -> ->|idx Hlt Hh -> ->| -> -> _].
      - intros _. rewrite <- Eib.
        pose proof (count_active_bound (symbolTable_ (symbolIndex_ st))). lia.
      - intros _.
        apply andb_true_iff in Hh. destruct Hh as [Hact Hma].
        pose proof (Forall_lookup_total_1 _ _ idx Hall ltac:(rewrite Hlen; exact Hlt) Hact)
          as Hr2. cbv beta in Hr2.
        split; [|lia]. rewrite <- Eib. intros E.
        assert (idx = kb) by (apply Hdist; assumption). subst idx.
        pose proof (Forall_lookup_total_1 _ _ kb Hkeys ltac:(rewrite Hlen; exact Hkb) Hab_act)
          as [c Hc]. cbv beta in Hc.
        apply Hab.
        transitivity (first7 c).
        + apply (stored_key_matches_inv c a (SymbolEntry.index (symbolTable_ (symbolIndex_ st) !!! kb)) true).
          unfold key_matches in *. cbn [SymbolEntry.symbol]. rewrite <- Hc. exact Hma.
        + symmetry.
          apply (stored_key_matches_inv c b (SymbolEntry.index (symbolTable_ (symbolIndex_ st) !!! kb)) true).
          unfold key_matches in *. cbn [SymbolEntry.symbol]. rewrite <- Hc. exact Hmb.
      - intros H. vm_compute in H. discriminate. }
    destruct (ia >=? MAX_SYMBOLS) eqn:Eia; cbn [snd];
      unfold getMarketData, hasValidData;
      cbn [symbolIndex_ marketData_ totalUpdates_ totalReads_]; rewrite Hsame, Eb.
    + destruct (MarketDataSnapshot.isValid
                  (marketData_ st !!! Z.to_nat (getIndex hash b (symbolIndex_ st))));
        split; reflexivity.
    + destruct (Hne ltac:(lia)) as [Hne' Hpos].
      rewrite list_lookup_total_insert_ne by lia.
      destruct (MarketDataSnapshot.isValid
                  (marketData_ st !!! Z.to_nat (getIndex hash b (symbolIndex_ st))));
        split; reflexivity.
Qed.
End Isolation.

Lemma new_store_inv : store_inv newMarketDataStore.
Proof. split; [exact new_store_wf|exact new_index_inv]. Qed.

Lemma update_leaves_other_symbols_witness :
  fst (getMarketData sample_hash "AAPL"
         (snd (updateMarketData sample_hash "MSFT" 3 4 3.5 20 200 store_after_first_update)))
  = Some (1%float, 2%float, 1.5%float, 1%float, 100, 1000) /\
  fst (getMarketData sample_hash "GOOGL"
         (snd (updateMarketData sample_hash "MSFT" 3 4 3.5 20 200 store_after_first_update)))
  = None.
Proof.
  assert (Hinv : store_inv store_after_first_update)
    by (apply updateMarketData_inv; exact new_store_inv).
  split.
  - rewrite (proj1 (update_leaves_other_symbols sample_hash "MSFT" "AAPL"
                      3 4 3.5 20 200 store_after_first_update Hinv
                      ltac:(discriminate))).
    vm_compute. reflexivity.
  - rewrite (proj1 (update_leaves_other_symbols sample_hash "MSFT" "GOOGL"
                      3 4 3.5 20 200 store_after_first_update Hinv
                      ltac:(discriminate))).
    vm_compute. reflexivity.
Defined.

(** ** What one update writes *)

Section OneSnapshot.
Variable hash : string -> N.

(** X15.  An update that fails leaves every snapshot as it was.  One that succeeds
    writes the snapshot of the id the symbol now resolves to and no other,
    raises that snapshot's sequence number by one (as [uint32_t]) and marks
    it valid.  No update makes a valid snapshot invalid. *)
Theorem update_writes_one_snapshot (symbol : string) (bid ask last : float)
    (vol now : Z) (st : MarketDataStore) :
  store_wf st ->
  let r := updateMarketData hash symbol bid ask last vol now st in
  (fst r = false -> marketData_ (snd r) = marketData_ st) /\
  (fst r = true ->
   exists index,
     getIndex hash symbol (symbolIndex_ (snd r)) = index /\
     index < MAX_SYMBOLS /\
     (forall i, i <> Z.to_nat index ->
                marketData_ (snd r) !!! i = marketData_ st !!! i) /\
     MarketDataSnapshot.sequenceNumber (marketData_ (snd r) !!! Z.to_nat index)
     = uint32_wrap (MarketDataSnapshot.sequenceNumber
                      (marketData_ st !!! Z.to_nat index) + 1) /\
     MarketDataSnapshot.isValid (marketData_ (snd r) !!! Z.to_nat index) = true) /\
  (forall i, MarketDataSnapshot.isValid (marketData_ st !!! i) = true ->
             MarketDataSnapshot.isValid (marketData_ (snd r) !!! i) = true).
Proof.
  intros [Hm Hs]. cbv zeta.
  destruct (updateMarketData hash symbol bid ask last vol now st) as [ok st'] eqn:Hu.
  cbn [fst snd]. destruct ok.
  - destruct (updateMarketData_true hash _ _ _ _ _ _ _ _ Hu)
      as (index & si & Hi & Hlt & Esi & Emd).
    assert (Hin : (Z.to_nat index < length (marketData_ st))%nat)
      by (rewrite Hm; unfold MAX_SYMBOLS in *; lia).
    split; [discriminate|]. split.
    + intros _. exists index. rewrite Esi, Emd.
      split; [exact (getIndex_after_getOrCreateIndex hash _ _ _ _ Hs Hi Hlt)|].
      split; [exact Hlt|]. split.
      * intros i Hne. apply list_lookup_total_insert_ne. congruence.
      * rewrite list_lookup_total_insert_eq by exact Hin. split; reflexivity.
    + intros i Hv. rewrite Emd, list_lookup_total_insert.
      destruct (decide _); [reflexivity|exact Hv].
  - assert (E : marketData_ st' = marketData_ st).
    { unfold updateMarketData in Hu.
      destruct (getOrCreateIndex hash symbol (symbolIndex_ st)) as [index si].
      destruct (index >=? MAX_SYMBOLS); inversion Hu; reflexivity. }
    rewrite E. split; [reflexivity|]. split; [discriminate|]. intros i Hv. exact Hv.
Qed.
End OneSnapshot.

Lemma update_writes_one_snapshot_witness :
  MarketDataSnapshot.sequenceNumber
    (marketData_ (snd (updateMarketData sample_hash "AAPL" 3 4 3.5 20 200
                         store_after_first_update)) !!! O) = 2.
Proof.
  destruct (update_writes_one_snapshot sample_hash "AAPL" 3 4 3.5 20 200
              store_after_first_update
              (updateMarketData_wf sample_hash _ _ _ _ _ _ _ new_store_wf))
    as (_ & H & _).
  destruct (H ltac:(vm_compute; reflexivity)) as (index & Hi & _ & _ & Hseq & _).
  assert (E : index = 0) by (rewrite <- Hi; vm_compute; reflexivity).
  rewrite E in Hseq. change (Z.to_nat 0) with O in Hseq.
  rewrite Hseq. vm_compute. reflexivity.
Defined.

(** * Further properties of the quote decoder *)

(** ** What a parse result carries *)

(** The characters of a string. *)
Definition chars (s : string) : list ascii := list_ascii_of_string s.

Lemma parse_try_ok (json : string) (stamp : Z) (data d : MarketData.t) :
  parse_try json stamp data = (d, None) ->
  MarketData.symbol d = MarketData.symbol data /\
  MarketData.bestBid d = MarketData.low d /\
  MarketData.bestAsk d = MarketData.high d /\
  MarketData.timestamp d = stamp /\
  MarketData.isValid d = true.
Proof.
  unfold parse_try.
  repeat match goal with
         | |- context [match ?x with _ => _ end] => destruct x
         end;
    intros H; inversion H; subst; cbn; repeat split.
Qed.

Lemma parse_try_throw (json : string) (stamp : Z) (data d : MarketData.t) (e : exn) :
  parse_try json stamp data = (d, Some e) ->
  MarketData.symbol d = MarketData.symbol data /\
  MarketData.bestBid d = MarketData.bestBid data /\
  MarketData.bestAsk d = MarketData.bestAsk data /\
  MarketData.volume d = MarketData.volume data /\
  MarketData.timestamp d = MarketData.timestamp data.
Proof.
  unfold parse_try.
  repeat match goal with
         | |- context [match ?x with _ => _ end] => destruct x
         end;
    intros H; inversion H; subst; cbn; repeat split.
Qed.

(** The two outcomes of [parseAlphaVantage]. *)
Lemma parseAlphaVantage_cases (symbol json : string) (clk : ParseClock)
    (p : FastJsonParser) :
  let r := parseAlphaVantage symbol json clk p in
  MarketData.symbol (fst r) = symbol /\
  totalParses_ (snd r) = uint64_wrap (totalParses_ p + 1) /\
  totalParseTimeNs_ (snd r)
  = uint64_wrap (totalParseTimeNs_ p + (t_end clk - t_start clk)) /\
  ((MarketData.isValid (fst r) = true /\
    MarketData.bestBid (fst r) = MarketData.low (fst r) /\
    MarketData.bestAsk (fst r) = MarketData.high (fst r) /\
    MarketData.timestamp (fst r) = t_stamp clk /\
    failedParses_ (snd r) = failedParses_ p) \/
   (MarketData.isValid (fst r) = false /\
    MarketData.bestBid (fst r) = 0%float /\
    MarketData.bestAsk (fst r) = 0%float /\
    MarketData.volume (fst r) = 0 /\
    MarketData.timestamp (fst r) = 0 /\
    failedParses_ (snd r) = uint64_wrap (failedParses_ p + 1))).
Proof.
  cbv zeta. unfold parseAlphaVantage.
  destruct (parse_try json (t_stamp clk)
              (MarketData.mk symbol 0 0 0 0 0 0 0 0 false)) as [d [e|]] eqn:Hp.
  - destruct (parse_try_throw _ _ _ _ _ Hp) as (Hs & Hb & Ha & Hv & Ht).
    cbn in Hs, Hb, Ha, Hv, Ht. cbn [fst snd totalParses_ totalParseTimeNs_ failedParses_].
    split; [destruct d; exact Hs|]. split; [reflexivity|]. split; [reflexivity|].
    right. destruct d; cbn in *. repeat split; assumption.
  - destruct (parse_try_ok _ _ _ _ Hp) as (Hs & Hb & Ha & Ht & Hv).
    cbn in Hs. cbn [fst snd totalParses_ totalParseTimeNs_ failedParses_].
    split; [exact Hs|]. split; [reflexivity|]. split; [reflexivity|].
    left. repeat split; assumption.
Qed.

(** What the checks of [parseAlphaVantageSafe] leave of a valid result. *)
Lemma parseAlphaVantageSafe_valid (symbol json : string) (clk : ParseClock)
    (p p' : FastJsonParser) (d : MarketData.t) :
  parseAlphaVantageSafe symbol json clk p = (d, p') ->
  MarketData.isValid d = true ->
  MarketData.symbol d = symbol /\
  MarketData.bestBid d = MarketData.low d /\
  MarketData.bestAsk d = MarketData.high d /\
  MarketData.timestamp d = t_stamp clk /\
  Double.le (MarketData.lastPrice d) 0 = false /\
  0 <= MarketData.volume d.
Proof.
  unfold parseAlphaVantageSafe.
  pose proof (parseAlphaVantage_cases symbol json clk p) as H. cbv zeta in H.
  destruct (parseAlphaVantage symbol json clk p) as [d0 p1]. cbn [fst snd] in H.
  destruct H as (Hs & _ & _ & [(Hv & Hb & Ha & Ht & _)|(Hv & _)]).
  - rewrite Hv. cbn [andb].
    destruct (Double.le (MarketData.lastPrice d0) 0) eqn:Hle; cbn [orb].
    + intros E. inversion E; subst. destruct d0; cbn. discriminate.
    + destruct (MarketData.volume d0 <? 0) eqn:Hvol.
      * intros E. inversion E; subst. destruct d0; cbn. discriminate.
      * intros E _. inversion E; subst. repeat split; try assumption. lia.
  - rewrite Hv. cbn [andb]. intros E. inversion E; subst. congruence.
Qed.

(** X16.  A result of [parseAlphaVantageSafe] that is valid carries the symbol it
    was asked for, the day's low as its bid and the day's high as its ask,
    the time stamp taken in the call, a volume that is not negative and a
    last price that is not [<= 0].  (A last price that is not a number passes
    that test.) *)
Theorem valid_quote_is_well_formed (symbol json : string) (clk : ParseClock)
    (p : FastJsonParser) :
  MarketData.isValid (fst (parseAlphaVantageSafe symbol json clk p)) = true ->
  let d := fst (parseAlphaVantageSafe symbol json clk p) in
  MarketData.symbol d = symbol /\
  MarketData.bestBid d = MarketData.low d /\
  MarketData.bestAsk d = MarketData.high d /\
  MarketData.timestamp d = t_stamp clk /\
  Double.le (MarketData.lastPrice d) 0 = false /\
  0 <= MarketData.volume d.
Proof.
  cbv zeta.
  destruct (parseAlphaVantageSafe symbol json clk p) as [d p'] eqn:E.
  cbn [fst]. intros Hv.
  exact (parseAlphaVantageSafe_valid symbol json clk p p' d E Hv).
Qed.

Lemma valid_quote_is_well_formed_witness :
  MarketData.bestBid
    (fst (parseAlphaVantageSafe "IBM" bare_envelope (mkParseClock 1 2 3)
            (mkParser 0 0 0)))
  = MarketData.low
      (fst (parseAlphaVantageSafe "IBM" bare_envelope (mkParseClock 1 2 3)
              (mkParser 0 0 0))).
Proof.
  apply (valid_quote_is_well_formed "IBM" bare_envelope (mkParseClock 1 2 3)
           (mkParser 0 0 0)).
  vm_compute. reflexivity.
Defined.

(** X17.  Every call of [parseAlphaVantageSafe] counts one parse and adds the time
    of the call; it counts one failed parse when the result it returns is not
    valid and none when it is, so a response that parses but is rejected by
    the check of price and volume is counted once, not twice. *)
Theorem failed_parse_counted_once (symbol json : string) (clk : ParseClock)
    (p : FastJsonParser) :
  let r := parseAlphaVantageSafe symbol json clk p in
  totalParses_ (snd r) = uint64_wrap (totalParses_ p + 1) /\
  totalParseTimeNs_ (snd r)
  = uint64_wrap (totalParseTimeNs_ p + (t_end clk - t_start clk)) /\
  failedParses_ (snd r)
  = (if MarketData.isValid (fst r) then failedParses_ p
     else uint64_wrap (failedParses_ p + 1)).
Proof.
  cbv zeta. unfold parseAlphaVantageSafe.
  pose proof (parseAlphaVantage_cases symbol json clk p) as H. cbv zeta in H.
  destruct (parseAlphaVantage symbol json clk p) as [d p1]. cbn [fst snd] in H.
  destruct H as (_ & Ht & Hn & [(Hv & _ & _ & _ & Hf)|(Hv & _ & _ & _ & _ & Hf)]);
    rewrite Hv; cbn [andb].
  - destruct (Double.le (MarketData.lastPrice d) 0 || (MarketData.volume d <? 0));
      cbn [fst snd totalParses_ totalParseTimeNs_ failedParses_].
    + destruct d; cbn. rewrite Hf. repeat split; assumption.
    + rewrite Hv. repeat split; assumption.
  - cbn [fst snd]. rewrite Hv. repeat split; assumption.
Qed.

(** X18.  A result of [parseAlphaVantage] that is not valid has bid, ask, volume
    and time stamp at their initial zero, whichever field raised. *)
Theorem failed_parse_leaves_no_prices (symbol json : string) (clk : ParseClock)
    (p : FastJsonParser) :
  MarketData.isValid (fst (parseAlphaVantage symbol json clk p)) = false ->
  let d := fst (parseAlphaVantage symbol json clk p) in
  MarketData.bestBid d = 0%float /\
  MarketData.bestAsk d = 0%float /\
  MarketData.volume d = 0 /\
  MarketData.timestamp d = 0.
Proof.
  cbv zeta. intros Hv.
  pose proof (parseAlphaVantage_cases symbol json clk p) as H. cbv zeta in H.
  destruct H as (_ & _ & _ & [(Hv' & _)|(_ & Hb & Ha & Hvol & Ht & _)]).
  - congruence.
  - repeat split; assumption.
Qed.

Lemma failed_parse_leaves_no_prices_witness :
  MarketData.bestBid
    (fst (parseAlphaVantage "IBM" "{}" (mkParseClock 1 2 3) (mkParser 0 0 0)))
  = 0%float.
Proof.
  apply (failed_parse_leaves_no_prices "IBM" "{}" (mkParseClock 1 2 3)
           (mkParser 0 0 0)).
  vm_compute. reflexivity.
Defined.

(** *** The text of a numeric value *)

Lemma scan_value_chars (p : string) (c : ascii) :
  In c (chars (scan_value p)) ->
  c <> NUL /\ c <> ","%char /\ c <> "}"%char /\ c <> "]"%char /\ c <> dquote.
Proof.
  induction p as [|a p IH]; cbn [scan_value]; [intros []|].
  destruct (Ascii.eqb a NUL) eqn:E1; [intros []|].
  destruct (Ascii.eqb a ",") eqn:E2; [intros []|].
  destruct (Ascii.eqb a "}") eqn:E3; [intros []|].
  destruct (Ascii.eqb a "]") eqn:E4; [intros []|].
  destruct (Ascii.eqb a dquote) eqn:E5; [intros []|].
  cbn [orb chars list_ascii_of_string In]. intros [<-|Hin]; [|exact (IH Hin)].
  apply Ascii.eqb_neq in E1, E2, E3, E4, E5. repeat split; assumption.
Qed.

Lemma front_in (s : string) : s = EmptyString \/ In (front s) (chars s).
Proof. destruct s; [left; reflexivity|right; left; reflexivity]. Qed.

(** X19.  The text that [extractDouble] and [extractLong] convert is the value of
    the key: the characters that follow the first colon after the first
    occurrence of the quoted key, white space skipped, up to the first comma,
    brace, bracket, double quote or terminator.  It holds none of these
    characters, so it never begins with a double quote and the branch that
    strips a pair of quotes is never taken. *)
Theorem numeric_text_has_no_quote (json key s : string) :
  value_text json key = Ok s ->
  (forall c, In c (chars s) ->
     c <> NUL /\ c <> ","%char /\ c <> "}"%char /\ c <> "]"%char /\ c <> dquote) /\
  front s <> dquote /\
  exists keyPos colonPos,
    strstr json (quoted key) = Some keyPos /\
    strchr keyPos ":" = Some colonPos /\
    s = scan_value (skip_ws (advance colonPos)).
Proof.
  unfold value_text.
  destruct (strstr json (quoted key)) as [keyPos|]; [|discriminate].
  destruct (strchr keyPos ":") as [colonPos|] eqn:Ec; [|discriminate].
  set (v := scan_value (skip_ws (advance colonPos))).
  assert (Hf : Ascii.eqb (front v) dquote = false).
  { apply Ascii.eqb_neq. destruct (front_in v) as [E|Hin].
    - rewrite E. vm_compute. discriminate.
    - exact (proj2 (proj2 (proj2 (proj2 (scan_value_chars _ _ Hin))))). }
  rewrite Hf. cbn [andb]. intros H. inversion H; subst s.
  split; [intros c; apply scan_value_chars|].
  split; [apply Ascii.eqb_neq; exact Hf|].
  exists keyPos, colonPos.
  split; [reflexivity|]. split; [first [reflexivity|exact Ec]|]. reflexivity.
Qed.

Lemma numeric_text_has_no_quote_witness :
  exists keyPos colonPos,
    strstr (String.append (member "04. low" "0.5,") (member "05. price" "1.5}"))
      (quoted "05. price") = Some keyPos /\
    strchr keyPos ":" = Some colonPos /\
    "1.5" = scan_value (skip_ws (advance colonPos)).
Proof.
  refine (proj2 (proj2 (numeric_text_has_no_quote
                          (String.append (member "04. low" "0.5,")
                                         (member "05. price" "1.5}"))
                          "05. price" "1.5" _))).
  vm_compute. reflexivity.
Defined.

(** *** Quoted values *)

Lemma append_assoc (a b c : string) :
  String.append (String.append a b) c = String.append a (String.append b c).
Proof.
  induction a as [|x a IH]; [reflexivity|].
  rewrite !append_cons, IH. reflexivity.
Qed.

Lemma strchr_append (a r : string) (x : ascii) :
  (forall c, In c (chars a) -> c <> x) ->
  strchr (String.append a (String x r)) x = Some (String x r).
Proof.
  induction a as [|y a IH]; intros Hno.
  - change (String.append EmptyString (String x r)) with (String x r).
    cbn [strchr]. rewrite Ascii.eqb_refl. reflexivity.
  - rewrite append_cons. cbn [strchr].
    assert (Hy : Ascii.eqb y x = false)
      by (apply Ascii.eqb_neq, Hno; left; reflexivity).
    rewrite Hy. apply IH. intros c Hc. apply Hno. right. exact Hc.
Qed.

Lemma scan_string_append (v r : string) :
  (forall c, In c (chars v) -> c <> NUL /\ c <> dquote) ->
  scan_string (String.append v (String dquote r)) = v.
Proof.
  induction v as [|y v IH]; intros Hno.
  - change (String.append EmptyString (String dquote r)) with (String dquote r).
    reflexivity.
  - rewrite append_cons. cbn [scan_string].
    destruct (Hno y (or_introl eq_refl)) as [H1 H2].
    apply Ascii.eqb_neq in H1, H2. rewrite H1, H2. cbn [orb].
    rewrite IH; [reflexivity|]. intros c Hc. apply Hno. right. exact Hc.
Qed.

Lemma append_nil_l (a : string) : String.append EmptyString a = a.
Proof. reflexivity. Qed.

Ltac flatten_append :=
  repeat (rewrite append_cons || rewrite append_assoc || rewrite append_nil_l).

(** A member whose value is a quoted string, character by character. *)
Lemma quoted_member_chars (key v rest : string) :
  String.append (member key (quoted v)) rest
  = String dquote
      (String.append key
         (String dquote
            (String ":" (String dquote (String.append v (String dquote rest)))))).
Proof. unfold member, quoted. flatten_append. reflexivity. Qed.

(** The colon of such a member and the start of its value. *)
Lemma quoted_member_value (key v rest : string) :
  (forall c, In c (chars key) -> c <> ":"%char) ->
  exists colonPos,
    strchr (String.append (member key (quoted v)) rest) ":" = Some colonPos /\
    skip_ws (advance colonPos)
    = String dquote (String.append v (String dquote rest)).
Proof.
  intros Hkey.
  exists (String ":" (String dquote (String.append v (String dquote rest)))).
  split; [|reflexivity].
  rewrite quoted_member_chars. cbn [strchr].
  replace (Ascii.eqb dquote ":") with false by reflexivity.
  change (String dquote (String ":" ?r))
    with (String.append (String dquote EmptyString) (String ":" r)).
  rewrite <- append_assoc. apply strchr_append.
  intros c Hc. unfold chars in *.
  assert (Hin : In c (list_ascii_of_string key) \/ c = dquote).
  { clear -Hc. induction key as [|y k IH].
    - destruct Hc as [<-|[]]. right. reflexivity.
    - rewrite append_cons in Hc. destruct Hc as [<-|Hc].
      + left. left. reflexivity.
      + destruct (IH Hc) as [H|H]; [left; right; exact H|right; exact H]. }
  destruct Hin as [Hin| ->]; [exact (Hkey c Hin)|discriminate].
Qed.

(** X20.  A value written as a quoted string is what [extractString] reads and
    what [extractDouble] cannot: at the first occurrence of the quoted key,
    with no colon in the key and neither a double quote nor a NUL in the
    value, [extractString] returns the characters between the quotes, while
    [extractDouble] raises [invalid_argument] whatever those characters
    are. *)
Theorem quoted_value_is_a_string_only (json key v rest : string) :
  strstr json (quoted key) = Some (String.append (member key (quoted v)) rest) ->
  (forall c, In c (chars key) -> c <> ":"%char) ->
  (forall c, In c (chars v) -> c <> NUL /\ c <> dquote) ->
  extractString json key = Ok v /\
  extractDouble json key = Throw (invalid_argument "stod") /\
  extractLong json key = Throw (invalid_argument "stol").
Proof.
  intros Hk Hkey Hv.
  destruct (quoted_member_value key v rest Hkey) as (colonPos & Hc & Hs).
  split; [|split].
  - unfold extractString. rewrite Hk, Hc, Hs. cbn [peek advance].
    rewrite Ascii.eqb_refl. cbn [negb]. rewrite scan_string_append by exact Hv.
    reflexivity.
  - exact (proj2 (extractDouble_quoted_value _ _ _ _ _ Hk Hc Hs)).
  - unfold extractLong.
    rewrite (proj1 (extractDouble_quoted_value _ _ _ _ _ Hk Hc Hs)). reflexivity.
Qed.

Lemma quoted_value_is_a_string_only_witness :
  extractString (String.append "{" (String.append (member "01. symbol" (quoted "IBM")) "}"))
    "01. symbol"
  = Ok "IBM".
Proof.
  apply (quoted_value_is_a_string_only _ "01. symbol" "IBM" "}").
  - vm_compute. reflexivity.
  - intros c Hc. cbn in Hc.
    repeat (destruct Hc as [<-|Hc]; [discriminate|]). destruct Hc.
  - intros c Hc. cbn in Hc.
    repeat (destruct Hc as [<-|Hc]; [split; discriminate|]). destruct Hc.
Defined.

(** * The market-data service *)

(** ** The watch list *)

Lemma found_elem_of (symbol : string) (l : list string) :
  CppMarketDataService.found symbol l = true <-> symbol ∈ l.
Proof.
  unfold CppMarketDataService.found. rewrite existsb_exists, list_elem_of_In.
  split.
  - intros (x & Hx & E). apply String.eqb_eq in E. subst x. exact Hx.
  - intros H. exists symbol. split; [exact H|apply String.eqb_refl].
Qed.

Lemma erase_first_elem_of (symbol x : string) (l : list string) :
  x ∈ CppMarketDataService.erase_first symbol l -> x ∈ l.
Proof.
  induction l as [|y l IH]; cbn [CppMarketDataService.erase_first]; [tauto|].
  rewrite elem_of_cons. destruct (String.eqb symbol y).
  - intros H. right. exact H.
  - rewrite elem_of_cons. intros [H|H]; [left; exact H|right; exact (IH H)].
Qed.

Lemma erase_first_other (symbol x : string) (l : list string) :
  x <> symbol -> x ∈ l -> x ∈ CppMarketDataService.erase_first symbol l.
Proof.
  intros Hne. induction l as [|y l IH]; cbn [CppMarketDataService.erase_first]; [tauto|].
  rewrite elem_of_cons. destruct (String.eqb symbol y) eqn:E.
  - apply String.eqb_eq in E. subst y. intros [H|H]; [congruence|exact H].
  - rewrite elem_of_cons. intros [H|H]; [left; exact H|right; exact (IH H)].
Qed.

Lemma erase_first_NoDup (symbol : string) (l : list string) :
  NoDup l ->
  NoDup (CppMarketDataService.erase_first symbol l) /\
  symbol ∉ CppMarketDataService.erase_first symbol l.
Proof.
  induction l as [|y l IH]; cbn [CppMarketDataService.erase_first].
  - intros _. split; [constructor|apply not_elem_of_nil].
  - intros Hnd. apply NoDup_cons in Hnd. destruct Hnd as [Hy Hnd].
    destruct (String.eqb symbol y) eqn:E.
    + apply String.eqb_eq in E. subst y. split; assumption.
    + apply String.eqb_neq in E. destruct (IH Hnd) as [H1 H2]. split.
      * apply NoDup_cons. split; [|exact H1].
        intros H. apply Hy. exact (erase_first_elem_of _ _ _ H).
      * rewrite elem_of_cons. intros [H|H]; [congruence|exact (H2 H)].
Qed.

Lemma erase_first_appended (symbol : string) (l : list string) :
  symbol ∉ l -> CppMarketDataService.erase_first symbol (l ++ [symbol]) = l.
Proof.
  induction l as [|y l IH]; intros Hn; cbn [app CppMarketDataService.erase_first].
  - rewrite String.eqb_refl. reflexivity.
  - destruct (String.eqb symbol y) eqn:E.
    + apply String.eqb_eq in E. subst y. exfalso. apply Hn. left.
    + rewrite IH; [reflexivity|]. intros H. apply Hn. right. exact H.
Qed.

(** X21.  [addSymbol] and [removeSymbol] keep a watch list free of duplicates so:
    after [addSymbol] the symbol is on it, after [removeSymbol] it is not,
    no other symbol comes or goes, and removing a symbol that [addSymbol] has
    just put on the list gives the list back. *)
Theorem watch_list_stays_distinct (symbol : string) (s : CppMarketDataService.t) :
  NoDup (CppMarketDataService.getSymbols s) ->
  let added := CppMarketDataService.getSymbols (CppMarketDataService.addSymbol symbol s) in
  let removed :=
    CppMarketDataService.getSymbols (CppMarketDataService.removeSymbol symbol s) in
  NoDup added /\ symbol ∈ added /\
  NoDup removed /\ (symbol ∉ removed) /\
  (forall x, x <> symbol ->
     (x ∈ added <-> x ∈ CppMarketDataService.getSymbols s) /\
     (x ∈ removed <-> x ∈ CppMarketDataService.getSymbols s)) /\
  (symbol ∉ CppMarketDataService.getSymbols s ->
   CppMarketDataService.getSymbols
     (CppMarketDataService.removeSymbol symbol
        (CppMarketDataService.addSymbol symbol s))
   = CppMarketDataService.getSymbols s).
Proof.
  intros Hnd. cbv zeta.
  unfold CppMarketDataService.getSymbols, CppMarketDataService.addSymbol,
    CppMarketDataService.removeSymbol in *.
  destruct (CppMarketDataService.found symbol (CppMarketDataService.symbols_ s))
    eqn:Hf; cbn [negb CppMarketDataService.set_symbols CppMarketDataService.symbols_].
  - pose proof (proj1 (found_elem_of _ _) Hf) as Hin.
    destruct (erase_first_NoDup symbol _ Hnd) as [H1 H2].
    rewrite Hf. cbn [CppMarketDataService.set_symbols CppMarketDataService.symbols_].
    split; [exact Hnd|]. split; [exact Hin|]. split; [exact H1|].
    split; [exact H2|]. split.
    + intros x Hx. split; [tauto|]. split.
      * apply erase_first_elem_of.
      * apply erase_first_other. exact Hx.
    + intros Hn. contradiction.
  - assert (Hn : symbol ∉ CppMarketDataService.symbols_ s).
    { intros H. apply found_elem_of in H. congruence. }
    assert (Hf' : CppMarketDataService.found symbol
                    (CppMarketDataService.symbols_ s ++ [symbol]) = true).
    { apply found_elem_of, elem_of_app. right. left. }
    rewrite Hf'. cbn [CppMarketDataService.set_symbols CppMarketDataService.symbols_].
    split.
    { apply NoDup_app. split; [exact Hnd|]. split.
      - intros x Hx Hx'. apply list_elem_of_singleton in Hx'. subst x. exact (Hn Hx).
      - apply NoDup_singleton. }
    split; [apply elem_of_app; right; left|].
    split; [exact Hnd|]. split; [exact Hn|]. split.
    + intros x Hx. split; [|tauto]. rewrite elem_of_app, list_elem_of_singleton.
      tauto.
    + intros _. apply erase_first_appended. exact Hn.
Qed.

Lemma watch_list_stays_distinct_witness :
  "IBM" ∈ CppMarketDataService.getSymbols
            (CppMarketDataService.addSymbol "IBM" (CppMarketDataService.new 0)).
Proof.
  refine (proj1 (proj2 (watch_list_stays_distinct "IBM" (CppMarketDataService.new 0) _))).
  apply (bool_decide_unpack _). vm_compute. exact I.
Defined.

(** ** The rate limit *)

Lemma uint64_wrap_small (z : Z) : 0 <= z < 2 ^ 64 -> uint64_wrap z = z.
Proof. intros H. unfold uint64_wrap. apply Z.mod_small. exact H. Qed.

Lemma canUpdate_in_range (nowMs : Z) (s : CppMarketDataService.t) :
  0 <= CppMarketDataService.lastUpdateTime_ s <= nowMs ->
  nowMs < 2 ^ 63 ->
  0 <= CppMarketDataService.minUpdateInterval_ s < 2 ^ 63 ->
  CppMarketDataService.canUpdate nowMs s
  = (CppMarketDataService.minUpdateInterval_ s
     <=? nowMs - CppMarketDataService.lastUpdateTime_ s).
Proof.
  intros H1 H2 H3. unfold CppMarketDataService.canUpdate.
  rewrite (uint64_wrap_small nowMs) by lia.
  rewrite !uint64_wrap_small by lia.
  rewrite Z.geb_leb. reflexivity.
Qed.

(** X22.  After [updateRateLimit] at a reading of [last] milliseconds, [canUpdate]
    at a later reading [now] is true exactly when [now - last] has reached
    [minUpdateInterval_]: the 12 ms the constructor sets.  No setter changes
    that member: [setUpdateInterval] changes the pause between two passes of
    the worker, not the answer of [canUpdate]. *)
Theorem fetch_waits_for_the_minimum_interval (last now interval : Z)
    (s : CppMarketDataService.t) :
  0 <= last <= now ->
  now < 2 ^ 63 ->
  0 <= CppMarketDataService.minUpdateInterval_ s < 2 ^ 63 ->
  CppMarketDataService.canUpdate now (CppMarketDataService.updateRateLimit last s)
  = (CppMarketDataService.minUpdateInterval_ s <=? now - last) /\
  CppMarketDataService.canUpdate now
    (CppMarketDataService.setUpdateInterval interval
       (CppMarketDataService.updateRateLimit last s))
  = (CppMarketDataService.minUpdateInterval_ s <=? now - last).
Proof.
  intros H1 H2 H3.
  assert (E : CppMarketDataService.canUpdate now
                (CppMarketDataService.updateRateLimit last s)
              = (CppMarketDataService.minUpdateInterval_ s <=? now - last)).
  { rewrite canUpdate_in_range;
      cbn [CppMarketDataService.updateRateLimit
           CppMarketDataService.lastUpdateTime_
           CppMarketDataService.minUpdateInterval_];
      rewrite ?uint64_wrap_small by lia; solve [reflexivity | lia]. }
  split; [exact E|]. rewrite <- E. reflexivity.
Qed.

Lemma fetch_waits_for_the_minimum_interval_witness :
  CppMarketDataService.canUpdate 111
    (CppMarketDataService.updateRateLimit 100 (CppMarketDataService.new 0))
  = false.
Proof.
  rewrite (proj1 (fetch_waits_for_the_minimum_interval 100 111 0
                    (CppMarketDataService.new 0)
                    ltac:(lia) ltac:(lia) ltac:(cbn; lia))).
  reflexivity.
Defined.

(** ** One call of the service *)

Lemma updateMarketData_false (hash : string -> N) symbol bid ask last vol now st st' :
  updateMarketData hash symbol bid ask last vol now st = (false, st') ->
  marketData_ st' = marketData_ st.
Proof.
  unfold updateMarketData.
  destruct (getOrCreateIndex hash symbol (symbolIndex_ st)) as [index si].
  destruct (index >=? MAX_SYMBOLS); intros H; inversion H; reflexivity.
Qed.

Ltac service_fields :=
  cbn [fst snd CppMarketDataService.set_counters
       CppMarketDataService.totalUpdates_ CppMarketDataService.failedUpdates_
       CppMarketDataService.httpClient_ CppMarketDataService.symbols_
       CppMarketDataService.apiKey_ CppMarketDataService.lastUpdateTime_
       CppMarketDataService.minUpdateInterval_].

Section ServiceUpdate.
Variable hash : string -> N.

(** The three ways through [updateMarketData]. *)
Inductive update_path (symbol : string) (env : CppMarketDataService.Fetch)
    (s : CppMarketDataService.t) (store : MarketDataStore)
    (r : bool * CppMarketDataService.t * MarketDataStore) : Prop :=
| path_no_response :
    fst (FastHttpClient.get
           (FastHttpClient.buildAlphaVantageUrl symbol (CppMarketDataService.apiKey_ s))
           (CppMarketDataService.curl_easy_perform env)
           (CppMarketDataService.httpClient_ s)) = EmptyString ->
    r = (false,
         CppMarketDataService.set_counters
           (snd (FastHttpClient.get
                   (FastHttpClient.buildAlphaVantageUrl symbol
                      (CppMarketDataService.apiKey_ s))
                   (CppMarketDataService.curl_easy_perform env)
                   (CppMarketDataService.httpClient_ s)))
           (CppMarketDataService.jsonParser_ s)
           (CppMarketDataService.totalUpdates_ s)
           (uint64_wrap (CppMarketDataService.failedUpdates_ s + 1))
           (CppMarketDataService.totalLatencyNs_ s) s,
         store) ->
    update_path symbol env s store r
| path_invalid (response : string) (http : FastHttpClient.t)
    (d : MarketData.t) (parser : FastJsonParser) :
    FastHttpClient.get
      (FastHttpClient.buildAlphaVantageUrl symbol (CppMarketDataService.apiKey_ s))
      (CppMarketDataService.curl_easy_perform env)
      (CppMarketDataService.httpClient_ s) = (response, http) ->
    response <> EmptyString ->
    parseAlphaVantageSafe symbol response (CppMarketDataService.parse_clock env)
      (CppMarketDataService.jsonParser_ s) = (d, parser) ->
    MarketData.isValid d = false ->
    r = (false,
         CppMarketDataService.set_counters http parser
           (CppMarketDataService.totalUpdates_ s)
           (uint64_wrap (CppMarketDataService.failedUpdates_ s + 1))
           (CppMarketDataService.totalLatencyNs_ s) s,
         store) ->
    update_path symbol env s store r
| path_store (response : string) (http : FastHttpClient.t)
    (d : MarketData.t) (parser : FastJsonParser) (success : bool)
    (store' : MarketDataStore) :
    FastHttpClient.get
      (FastHttpClient.buildAlphaVantageUrl symbol (CppMarketDataService.apiKey_ s))
      (CppMarketDataService.curl_easy_perform env)
      (CppMarketDataService.httpClient_ s) = (response, http) ->
    response <> EmptyString ->
    parseAlphaVantageSafe symbol response (CppMarketDataService.parse_clock env)
      (CppMarketDataService.jsonParser_ s) = (d, parser) ->
    MarketData.isValid d = true ->
    updateMarketData hash symbol (MarketData.bestBid d) (MarketData.bestAsk d)
      (MarketData.lastPrice d) (MarketData.volume d)
      (CppMarketDataService.store_now env) store = (success, store') ->
    r = (success,
         (if success
          then CppMarketDataService.set_counters http parser
                 (uint64_wrap (CppMarketDataService.totalUpdates_ s + 1))
                 (CppMarketDataService.failedUpdates_ s)
                 (uint64_wrap (CppMarketDataService.totalLatencyNs_ s
                               + (CppMarketDataService.clock_end env
                                  - CppMarketDataService.clock_start env))) s
          else CppMarketDataService.set_counters http parser
                 (CppMarketDataService.totalUpdates_ s)
                 (uint64_wrap (CppMarketDataService.failedUpdates_ s + 1))
                 (uint64_wrap (CppMarketDataService.totalLatencyNs_ s
                               + (CppMarketDataService.clock_end env
                                  - CppMarketDataService.clock_start env))) s),
         store') ->
    update_path symbol env s store r.

Lemma updateMarketData_path symbol env s store :
  update_path symbol env s store
    (CppMarketDataService.updateMarketData hash symbol env s store).
Proof.
  unfold CppMarketDataService.updateMarketData.
  destruct (FastHttpClient.get _ _ _) as [response http] eqn:Hg.
  destruct (String.eqb response EmptyString) eqn:He.
  - apply String.eqb_eq in He. subst response.
    apply path_no_response; rewrite Hg; reflexivity.
  - apply String.eqb_neq in He.
    destruct (parseAlphaVantageSafe symbol response _ _) as [d parser] eqn:Hp.
    destruct (MarketData.isValid d) eqn:Hv; cbn [negb].
    + destruct (updateMarketData hash symbol _ _ _ _ _ store) as [success store'] eqn:Hu.
      eapply path_store; eauto.
    + eapply path_invalid; eauto.
Qed.

(** X23.  Every call of the service's [updateMarketData] counts once: the call
    that returns true adds one to [totalUpdates_] and leaves
    [failedUpdates_], the call that returns false adds one to
    [failedUpdates_] and leaves [totalUpdates_]; each sends one request.
    The watch list, the API key and the rate limit are left as they were. *)
Theorem service_update_counts_once (symbol : string)
    (env : CppMarketDataService.Fetch) (s : CppMarketDataService.t)
    (store : MarketDataStore) :
  let r := CppMarketDataService.updateMarketData hash symbol env s store in
  let ok := fst (fst r) in
  let s' := snd (fst r) in
  CppMarketDataService.totalUpdates_ s'
  = (if ok then uint64_wrap (CppMarketDataService.totalUpdates_ s + 1)
     else CppMarketDataService.totalUpdates_ s) /\
  CppMarketDataService.failedUpdates_ s'
  = (if ok then CppMarketDataService.failedUpdates_ s
     else uint64_wrap (CppMarketDataService.failedUpdates_ s + 1)) /\
  FastHttpClient.totalRequests_ (CppMarketDataService.httpClient_ s')
  = uint64_wrap
      (FastHttpClient.totalRequests_ (CppMarketDataService.httpClient_ s) + 1) /\
  CppMarketDataService.symbols_ s' = CppMarketDataService.symbols_ s /\
  CppMarketDataService.apiKey_ s' = CppMarketDataService.apiKey_ s /\
  CppMarketDataService.lastUpdateTime_ s' = CppMarketDataService.lastUpdateTime_ s /\
  CppMarketDataService.minUpdateInterval_ s'
  = CppMarketDataService.minUpdateInterval_ s.
Proof.
  cbv zeta.
  assert (Hreq : forall url perform c,
             FastHttpClient.totalRequests_ (snd (FastHttpClient.get url perform c))
             = uint64_wrap (FastHttpClient.totalRequests_ c + 1)).
  { intros. unfold FastHttpClient.get.
    destruct (FastHttpClient.curle_ok (perform url)); reflexivity. }
  pose proof (Hreq (FastHttpClient.buildAlphaVantageUrl symbol
                      (CppMarketDataService.apiKey_ s))
                (CppMarketDataService.curl_easy_perform env)
                (CppMarketDataService.httpClient_ s)) as Hr.
  destruct (updateMarketData_path symbol env s store)
    as [He ->|response http d parser Hg Hne Hp Hv ->
        |response http d parser success store' Hg Hne Hp Hv Hu ->].
  - service_fields. rewrite Hr. repeat split.
  - rewrite Hg in Hr. cbn [snd] in Hr. service_fields. rewrite Hr. repeat split.
  - rewrite Hg in Hr. cbn [snd] in Hr.
    destruct success; service_fields; rewrite Hr; repeat split.
Qed.

(** X24.  A call of the service's [updateMarketData] that returns false has
    written no snapshot: the store holds what it held. *)
Theorem failed_service_update_writes_nothing (symbol : string)
    (env : CppMarketDataService.Fetch) (s : CppMarketDataService.t)
    (store : MarketDataStore) :
  fst (fst (CppMarketDataService.updateMarketData hash symbol env s store)) = false ->
  marketData_ (snd (CppMarketDataService.updateMarketData hash symbol env s store))
  = marketData_ store.
Proof.
  destruct (updateMarketData_path symbol env s store)
    as [He ->|response http d parser Hg Hne Hp Hv ->
        |response http d parser success store' Hg Hne Hp Hv Hu ->];
    cbn [fst snd]; try reflexivity.
  intros ->. exact (updateMarketData_false _ _ _ _ _ _ _ _ _ Hu).
Qed.

(** X25.  A call of the service's [updateMarketData] that returns true has read a
    non-empty body from a transfer that ended with [CURLE_OK], decoded it to
    a valid quote, and stored the quote's low as the bid and its high as the
    ask: a read of the symbol returns low, high, last price, high minus low,
    volume and the time of the store's write. *)
Theorem stored_quote_is_low_and_high (symbol : string)
    (env : CppMarketDataService.Fetch) (s : CppMarketDataService.t)
    (store : MarketDataStore) :
  store_wf store ->
  fst (fst (CppMarketDataService.updateMarketData hash symbol env s store)) = true ->
  let tr :=
    CppMarketDataService.curl_easy_perform env
      (FastHttpClient.buildAlphaVantageUrl symbol (CppMarketDataService.apiKey_ s)) in
  let d :=
    fst (parseAlphaVantageSafe symbol (FastHttpClient.received tr)
           (CppMarketDataService.parse_clock env)
           (CppMarketDataService.jsonParser_ s)) in
  FastHttpClient.curle_ok tr = true /\
  MarketData.isValid d = true /\
  fst (getMarketData hash symbol
         (snd (CppMarketDataService.updateMarketData hash symbol env s store)))
  = Some (MarketData.low d, MarketData.high d, MarketData.lastPrice d,
          (MarketData.high d - MarketData.low d)%float, MarketData.volume d,
          CppMarketDataService.store_now env).
Proof.
  intros Hwf. cbv zeta.
  destruct (updateMarketData_path symbol env s store)
    as [He ->|response http d parser Hg Hne Hp Hv ->
        |response http d parser success store' Hg Hne Hp Hv Hu ->];
    cbn [fst snd]; try discriminate.
  intros ->.
  unfold FastHttpClient.get in Hg.
  destruct (FastHttpClient.curle_ok _) eqn:Hok; cbn [negb] in Hg;
    inversion Hg; subst; [|congruence].
  rewrite Hp. cbn [fst].
  split; [reflexivity|]. split; [exact Hv|].
  destruct (parseAlphaVantageSafe_valid _ _ _ _ _ _ Hp Hv) as (_ & Hb & Ha & _).
  rewrite <- Hb, <- Ha.
  exact (read_after_update hash _ _ _ _ _ _ _ _ Hwf Hu).
Qed.

End ServiceUpdate.

(** A transfer that ends with [CURLE_OK] and the given body, one that fails,
    and the rest of what a call meets. *)
Definition served (body : string) (url : string) : FastHttpClient.Transfer :=
  FastHttpClient.mkTransfer true body 10 20.

Definition unreachable (url : string) : FastHttpClient.Transfer :=
  FastHttpClient.mkTransfer false "partial" 10 20.

Definition sample_fetch (perform : string -> FastHttpClient.Transfer)
    : CppMarketDataService.Fetch :=
  CppMarketDataService.mkFetch perform 5 30 (mkParseClock 21 22 23) 25.

Lemma failed_service_update_writes_nothing_witness :
  marketData_
    (snd (CppMarketDataService.updateMarketData sample_hash "IBM"
            (sample_fetch unreachable) (CppMarketDataService.new 0)
            store_after_first_update))
  = marketData_ store_after_first_update.
Proof.
  apply (failed_service_update_writes_nothing sample_hash "IBM"
           (sample_fetch unreachable) (CppMarketDataService.new 0)
           store_after_first_update).
  vm_compute. reflexivity.
Defined.

Lemma stored_quote_is_low_and_high_witness :
  fst (getMarketData sample_hash "IBM"
         (snd (CppMarketDataService.updateMarketData sample_hash "IBM"
                 (sample_fetch (served bare_envelope)) (CppMarketDataService.new 0)
                 newMarketDataStore)))
  = Some (0.5%float, 2%float, 1.5%float, 1.5%float, 100, 25).
Proof.
  destruct (stored_quote_is_low_and_high sample_hash "IBM"
              (sample_fetch (served bare_envelope)) (CppMarketDataService.new 0)
              newMarketDataStore new_store_wf ltac:(vm_compute; reflexivity))
    as (_ & _ & H).
  rewrite H. vm_compute. reflexivity.
Defined.

(** ** The vendor's envelope, end to end *)

Lemma parseAlphaVantageSafe_quoted_values (symbol o h l p v : string)
    (clk : ParseClock) (parser : FastJsonParser) :
  MarketData.isValid
    (fst (parseAlphaVantageSafe symbol
            (envelope (quoted o) (quoted h) (quoted l) (quoted p) (quoted v))
            clk parser)) = false.
Proof.
  unfold parseAlphaVantageSafe, parseAlphaVantage.
  rewrite parse_try_quoted_values. reflexivity.
Qed.

(** X26.  The service never stores a response in the vendor's format.  Whatever
    the five values are, when the body of the response is the envelope with
    each value written as a quoted string, the service's [updateMarketData]
    returns false, counts a failed update and leaves the store as it was,
    snapshots, symbol index and counters. *)
Theorem quoted_response_is_never_stored (hash : string -> N)
    (symbol o h l p v : string) (env : CppMarketDataService.Fetch)
    (s : CppMarketDataService.t) (store : MarketDataStore) :
  FastHttpClient.received
    (CppMarketDataService.curl_easy_perform env
       (FastHttpClient.buildAlphaVantageUrl symbol (CppMarketDataService.apiKey_ s)))
  = envelope (quoted o) (quoted h) (quoted l) (quoted p) (quoted v) ->
  let r := CppMarketDataService.updateMarketData hash symbol env s store in
  fst (fst r) = false /\
  snd r = store /\
  CppMarketDataService.failedUpdates_ (snd (fst r))
  = uint64_wrap (CppMarketDataService.failedUpdates_ s + 1) /\
  CppMarketDataService.totalUpdates_ (snd (fst r))
  = CppMarketDataService.totalUpdates_ s.
Proof.
  intros Hbody. cbv zeta.
  destruct (updateMarketData_path hash symbol env s store)
    as [He ->|response http d parser Hg Hne Hp Hv ->
        |response http d parser success store' Hg Hne Hp Hv Hu ->];
    try (service_fields; repeat split; fail).
  exfalso.
  unfold FastHttpClient.get in Hg.
  destruct (FastHttpClient.curle_ok _); cbn [negb] in Hg; inversion Hg; subst;
    [|congruence].
  rewrite Hbody in Hp.
  pose proof (parseAlphaVantageSafe_quoted_values symbol o h l p v
                (CppMarketDataService.parse_clock env)
                (CppMarketDataService.jsonParser_ s)) as Hq.
  rewrite Hp in Hq. cbn [fst] in Hq. congruence.
Qed.

Lemma quoted_response_is_never_stored_witness :
  snd (CppMarketDataService.updateMarketData sample_hash "IBM"
         (sample_fetch (served quoted_envelope)) (CppMarketDataService.new 0)
         newMarketDataStore)
  = newMarketDataStore.
Proof.
  refine (proj1 (proj2 (quoted_response_is_never_stored sample_hash "IBM"
                          "1" "2" "0.5" "1.5" "100"
                          (sample_fetch (served quoted_envelope))
                          (CppMarketDataService.new 0) newMarketDataStore _))).
  reflexivity.
Defined.

(** ** One pass of the worker *)

Section WorkerPass.
Variable hash : string -> N.

Lemma updateMarketData_keeps_limit symbol env s store :
  CppMarketDataService.lastUpdateTime_
    (snd (fst (CppMarketDataService.updateMarketData hash symbol env s store)))
  = CppMarketDataService.lastUpdateTime_ s /\
  CppMarketDataService.minUpdateInterval_
    (snd (fst (CppMarketDataService.updateMarketData hash symbol env s store)))
  = CppMarketDataService.minUpdateInterval_ s.
Proof.
  destruct (updateMarketData_path hash symbol env s store)
    as [He ->|response http d parser Hg Hne Hp Hv ->
        |response http d parser success store' Hg Hne Hp Hv Hu ->];
    try destruct success; service_fields; split; reflexivity.
Qed.

(** A turn that comes before the minimum interval has gone by. *)
Definition too_early (s : CppMarketDataService.t) (turn : CppMarketDataService.Turn)
    : Prop :=
  CppMarketDataService.lastUpdateTime_ s <= CppMarketDataService.check_ms turn
  /\ CppMarketDataService.check_ms turn
     < CppMarketDataService.lastUpdateTime_ s
       + CppMarketDataService.minUpdateInterval_ s.

Lemma pass_skips_early_turns symbols turns s store :
  0 <= CppMarketDataService.lastUpdateTime_ s ->
  CppMarketDataService.lastUpdateTime_ s
  + CppMarketDataService.minUpdateInterval_ s < 2 ^ 63 ->
  0 <= CppMarketDataService.minUpdateInterval_ s ->
  Forall (too_early s) turns ->
  CppMarketDataService.workerThread_pass hash symbols turns s store = (s, store).
Proof.
  intros H0 H1 H2. revert turns.
  induction symbols as [|symbol rest IH]; intros turns Hall; [reflexivity|].
  destruct turns as [|turn turns']; [reflexivity|].
  cbn [CppMarketDataService.workerThread_pass].
  apply Forall_cons in Hall. destruct Hall as [[Ha Hb] Hall].
  destruct (CppMarketDataService.running_now turn); cbn [negb]; [|reflexivity].
  rewrite canUpdate_in_range by lia.
  replace (_ <=? _) with false by lia.
  apply IH. exact Hall.
Qed.

(** X27.  The worker does not wait for the rate limit, it skips.  In a pass over
    the watch list, once a symbol has been fetched and [updateRateLimit] has
    stored the time [limit_ms], every following symbol whose turn comes less
    than [minUpdateInterval_] after it is passed over without a request: the
    pass ends in the state the first fetch left. *)
Theorem throttled_symbols_are_skipped (symbol : string) (rest : list string)
    (turn : CppMarketDataService.Turn) (turns : list CppMarketDataService.Turn)
    (s : CppMarketDataService.t) (store : MarketDataStore) :
  CppMarketDataService.running_now turn = true ->
  CppMarketDataService.canUpdate (CppMarketDataService.check_ms turn) s = true ->
  0 <= CppMarketDataService.limit_ms turn ->
  0 <= CppMarketDataService.minUpdateInterval_ s ->
  CppMarketDataService.limit_ms turn
  + CppMarketDataService.minUpdateInterval_ s < 2 ^ 63 ->
  Forall (fun later =>
            CppMarketDataService.limit_ms turn
            <= CppMarketDataService.check_ms later
            < CppMarketDataService.limit_ms turn
              + CppMarketDataService.minUpdateInterval_ s) turns ->
  let r :=
    CppMarketDataService.updateMarketData hash symbol
      (CppMarketDataService.fetch turn) s store in
  CppMarketDataService.workerThread_pass hash (symbol :: rest) (turn :: turns)
    s store
  = (CppMarketDataService.updateRateLimit (CppMarketDataService.limit_ms turn)
       (snd (fst r)),
     snd r).
Proof.
  intros Hrun Hcan Hl Hm Hlm Hall. cbv zeta.
  cbn [CppMarketDataService.workerThread_pass].
  rewrite Hrun, Hcan. cbn [negb].
  destruct (updateMarketData_keeps_limit symbol (CppMarketDataService.fetch turn)
              s store) as [_ Hmin].
  destruct (CppMarketDataService.updateMarketData hash symbol
              (CppMarketDataService.fetch turn) s store) as [[ok s1] store1].
  cbn [fst snd] in *.
  apply pass_skips_early_turns;
    cbn [CppMarketDataService.updateRateLimit
         CppMarketDataService.lastUpdateTime_
         CppMarketDataService.minUpdateInterval_];
    rewrite ?uint64_wrap_small by lia; rewrite ?Hmin; try lia.
  eapply Forall_impl; [exact Hall|].
  intros later Hlater. unfold too_early.
  cbn [CppMarketDataService.updateRateLimit
       CppMarketDataService.lastUpdateTime_
       CppMarketDataService.minUpdateInterval_].
  rewrite uint64_wrap_small by lia. rewrite Hmin. exact Hlater.
Qed.

End WorkerPass.

Definition first_turn : CppMarketDataService.Turn :=
  CppMarketDataService.mkTurn true 1000 (sample_fetch (served bare_envelope)) 1040.

Definition later_turn (ms : Z) : CppMarketDataService.Turn :=
  CppMarketDataService.mkTurn true ms (sample_fetch (served bare_envelope)) (ms + 1).

Lemma throttled_symbols_are_skipped_witness :
  hasValidData sample_hash "GOOGL"
    (snd (CppMarketDataService.workerThread_pass sample_hash
            ["AAPL"; "GOOGL"; "MSFT"] [first_turn; later_turn 1041; later_turn 1043]
            (CppMarketDataService.new 0) newMarketDataStore))
  = false.
Proof.
  rewrite (throttled_symbols_are_skipped sample_hash "AAPL" ["GOOGL"; "MSFT"]
             first_turn [later_turn 1041; later_turn 1043]
             (CppMarketDataService.new 0) newMarketDataStore).
  - vm_compute. reflexivity.
  - reflexivity.
  - vm_compute. reflexivity.
  - vm_compute. discriminate.
  - vm_compute. discriminate.
  - vm_compute. reflexivity.
  - repeat constructor; vm_compute; discriminate.
Defined.

(** ** Metrics and health *)



(** X29.  A service is not healthy before its first request and its first parse,
    and [resetMetrics] makes a healthy service unhealthy again: [isHealthy]
    reads the counters that [resetMetrics] clears. *)
Theorem reset_service_is_unhealthy (now : Z) (s : CppMarketDataService.t) :
  CppMarketDataService.isHealthy (CppMarketDataService.resetMetrics now s) = false /\
  CppMarketDataService.isHealthy (CppMarketDataService.new now) = false /\
  (CppMarketDataService.isHealthy s = true ->
   0 < FastHttpClient.totalRequests_ (CppMarketDataService.httpClient_ s) /\
   0 < totalParses_ (CppMarketDataService.jsonParser_ s)).
Proof.
  split; [|split].
  - unfold CppMarketDataService.isHealthy, CppMarketDataService.resetMetrics.
    cbn. rewrite andb_false_r. reflexivity.
  - reflexivity.
  - unfold CppMarketDataService.isHealthy, FastHttpClient.isHealthy, isHealthy.
    intros H. apply andb_prop in H. destruct H as [H Hp].
    apply andb_prop in H. destruct H as [_ Hh]. lia.
Qed.

(** * The books of the engine *)

(** A book that has no order of the given id. *)
Definition unknown_to (orderId : string) (entry : string * OrderBook) : Prop :=
  orders_ (snd entry) !! orderId = None.

Lemma removeOrder_known (orderId : string) (b : OrderBook) :
  fst (removeOrder orderId b) = true <-> orders_ b !! orderId <> None.
Proof.
  unfold removeOrder. destruct (orders_ b !! orderId) as [order|].
  - destruct (String.eqb (Order.side (obj order)) "BUY");
      [|destruct (String.eqb (Order.side (obj order)) "SELL")];
      cbn [fst]; split; congruence.
  - cbn [fst]. split; congruence.
Qed.

Lemma removeOrder_unknown (orderId : string) (b : OrderBook) :
  orders_ b !! orderId = None -> removeOrder orderId b = (false, b).
Proof. intros H. unfold removeOrder. rewrite H. reflexivity. Qed.

(** X30.  The engine removes an order by id from the first book, in the order of
    the symbols, that has an order of that id, and from no other: the books
    before it do not know the id, the books after it are not looked at, and
    a second order of the same id in a later book stays.  It returns false,
    and changes nothing, exactly when no book knows the id. *)
Theorem engine_remove_stops_at_first_book (orderId : string)
    (m : TradingEngineJNI.Books) :
  let r := TradingEngineJNI.removeOrder orderId m in
  (fst r = false /\ snd r = m /\ Forall (unknown_to orderId) m) \/
  (fst r = true /\
   exists pre k b post,
     m = pre ++ (k, b) :: post /\
     Forall (unknown_to orderId) pre /\
     orders_ b !! orderId <> None /\
     snd r = pre ++ (k, snd (removeOrder orderId b)) :: post).
Proof.
  cbv zeta. induction m as [|[k b] m IH].
  - left. cbn. repeat split. constructor.
  - cbn [TradingEngineJNI.removeOrder].
    pose proof (removeOrder_known orderId b) as Hk.
    destruct (removeOrder orderId b) as [removed b'] eqn:Hr.
    cbn [fst] in Hk. destruct removed.
    + right. split; [reflexivity|]. exists [], k, b, m.
      split; [reflexivity|]. split; [constructor|]. split; [apply Hk; reflexivity|].
      rewrite Hr. reflexivity.
    + assert (Hn : orders_ b !! orderId = None).
      { destruct (orders_ b !! orderId) eqn:E; [|reflexivity].
        assert (false = true) by (apply Hk; congruence). discriminate. }
      rewrite (removeOrder_unknown _ _ Hn) in Hr. inversion Hr; subst b'.
      destruct (TradingEngineJNI.removeOrder orderId m) as [r m''].
      cbn [fst snd] in *.
      destruct IH as [(-> & -> & Hall)|(-> & pre & k' & b0 & post & -> & Hpre & Hb & ->)].
      * left. repeat split. constructor; [exact Hn|exact Hall].
      * right. split; [reflexivity|]. exists ((k, b) :: pre), k', b0, post.
        split; [reflexivity|]. split; [constructor; [exact Hn|exact Hpre]|].
        split; [exact Hb|reflexivity].
Qed.
